(** * UMAP coordinate pipeline of zebra-h2b-audit-v2: model and properties

    The development embeds the pipeline scripts

    - [packages/db/populate-umap-coordinates.py]   (module [Populate])
    - [scripts/embeddings/umap-reduce.py]          (module [UmapReduce])
    - [visualization-pipeline/01_extract_embeddings.py] (module [Extract01])
    - [visualization-pipeline/03_update_database.py]    (module [Update03])
    - [visualization-pipeline/check_db_final.py]        (module [CheckDbFinal])

    over an explicit model of the [embedding_cache] table.  Floating point
    values, the text-to-float conversions and the UMAP projection are
    external collaborators and enter as the class [Numerics]. *)

From Stdlib Require Import List ZArith QArith String Ascii Bool Lia.
From Stdlib Require Import Sorted Permutation DecimalString.
Import ListNotations.

Set Implicit Arguments.
Open Scope Z_scope.
Open Scope list_scope.

(* ------------------------------------------------------------------ *)
(** ** Python exceptions and results *)

Inductive exn : Type :=
| DatabaseError        (* psycopg2.Error / asyncpg.PostgresError *)
| ValueError
| IndexError
| TypeError
| ZeroDivisionError
| ProjectionFailure    (* any exception raised inside umap *)
| OSError              (* the file system refuses an operation *)
| SystemExit (code : Z).

Inductive result (A : Type) : Type :=
| Ok (a : A)
| Raise (e : exn).

Arguments Ok {A} a.
Arguments Raise {A} e.

Definition is_ok {A} (r : result A) : bool :=
  match r with Ok _ => true | Raise _ => false end.

Definition of_option {A} (e : exn) (o : option A) : result A :=
  match o with Some a => Ok a | None => Raise e end.

Definition rbind {A B} (r : result A) (k : A -> result B) : result B :=
  match r with Ok a => k a | Raise e => Raise e end.

(** [for x in l: f x], collecting the values, stopping at the first
    exception. *)
Fixpoint rmap {A B} (f : A -> result B) (l : list A) : result (list B) :=
  match l with
  | [] => Ok []
  | x :: l' =>
      match f x with
      | Raise e => Raise e
      | Ok y => match rmap f l' with
                | Raise e => Raise e
                | Ok ys => Ok (y :: ys)
                end
      end
  end.

Definition is_null {A} (o : option A) : bool :=
  match o with None => true | Some _ => false end.

Definition not_null {A} (o : option A) : bool := negb (is_null o).

(* ------------------------------------------------------------------ *)
(** ** External collaborators *)

(** Keyword arguments handed to [umap.UMAP]. *)
Record umap_params : Type := mkParams {
  n_components : nat;
  n_neighbors : nat;
  min_dist : Q;
  metric : string;
  random_state : Z;
  n_jobs : option Z
}.

(** What the scripts take from Python, numpy, json and umap-learn.  A
    projection is a function of its parameters (seed included) and of its
    input matrix; [None] stands for a raised exception. *)
Class Numerics : Type := {
  float : Type;
  (** builtin [float(s)] on a string *)
  float_of_string : string -> option float;
  (** [np.array(json.loads(s), dtype=np.float32)] *)
  json_loads : string -> option (list float);
  (** [np.array(cells, dtype=np.float32)] on the cells psycopg2 delivers *)
  ndarray_of_cells : list (option string) -> option (list (list float));
  (** [fit_transform] of a [UMAP] object built from the parameters *)
  fit_transform : umap_params -> list (list float) -> option (list (list float));
  (** the format specification [:.6f] *)
  format_6f : float -> string;
  (** the order SQL [MIN]/[MAX] use on the coordinate columns *)
  float_leb : float -> float -> bool
}.

(* ------------------------------------------------------------------ *)
(** ** The store: table [embedding_cache] *)

Section Store.
Context {N : Numerics}.

(** One row.  The five coordinate cells are [None] for SQL NULL. *)
Record row : Type := mkRow {
  id : Z;
  value : string;
  value_hash : string;
  embedding_small : option string;   (* pgvector text, e.g. "[0.1,0.2]" *)
  embedding_large : option string;
  source_table : string;
  source_column : string;
  usage_count : Z;
  created_at : string;
  umap_x_2d : option float;
  umap_y_2d : option float;
  umap_x_3d : option float;
  umap_y_3d : option float;
  umap_z_3d : option float
}.

(** The table: which of its columns beyond the fixed ones exist (in
    creation order), and its rows in physical order. *)
Record store : Type := mkStore {
  columns : list string;
  rows : list row
}.

Definition has_column (c : string) (s : store) : bool :=
  existsb (String.eqb c) (columns s).

Definition umap_column_names : list string :=
  ["umap_x_2d"; "umap_y_2d"; "umap_x_3d"; "umap_y_3d"; "umap_z_3d"]%string.

Definition has_umap_columns (s : store) : bool :=
  forallb (fun c => has_column c s) umap_column_names.

(** The five-column assignment of every [UPDATE] in the scripts. *)
Definition set_coords (x2 y2 x3 y3 z3 : float) (r : row) : row :=
  {| id := id r; value := value r; value_hash := value_hash r;
     embedding_small := embedding_small r;
     embedding_large := embedding_large r;
     source_table := source_table r; source_column := source_column r;
     usage_count := usage_count r; created_at := created_at r;
     umap_x_2d := Some x2; umap_y_2d := Some y2;
     umap_x_3d := Some x3; umap_y_3d := Some y3; umap_z_3d := Some z3 |}.

(** A freshly added column holds NULL in every row. *)
Definition null_column (c : string) (r : row) : row :=
  {| id := id r; value := value r; value_hash := value_hash r;
     embedding_small := embedding_small r;
     embedding_large := embedding_large r;
     source_table := source_table r; source_column := source_column r;
     usage_count := usage_count r; created_at := created_at r;
     umap_x_2d := if String.eqb c "umap_x_2d" then None else umap_x_2d r;
     umap_y_2d := if String.eqb c "umap_y_2d" then None else umap_y_2d r;
     umap_x_3d := if String.eqb c "umap_x_3d" then None else umap_x_3d r;
     umap_y_3d := if String.eqb c "umap_y_3d" then None else umap_y_3d r;
     umap_z_3d := if String.eqb c "umap_z_3d" then None else umap_z_3d r |}.

(** [ALTER TABLE embedding_cache ADD COLUMN c]: an error when [c] exists. *)
Definition add_column (c : string) (s : store) : result store :=
  if has_column c s then Raise DatabaseError
  else Ok {| columns := columns s ++ [c];
             rows := map (null_column c) (rows s) |}.

(** [ALTER TABLE embedding_cache ADD COLUMN IF NOT EXISTS c]. *)
Definition add_column_if_not_exists (c : string) (s : store) : store :=
  if has_column c s then s
  else {| columns := columns s ++ [c];
          rows := map (null_column c) (rows s) |}.

(** [UPDATE embedding_cache SET (five columns) WHERE key = k]. *)
Definition update_where (key : row -> bool) (x2 y2 x3 y3 z3 : float)
    (s : store) : result store :=
  if has_umap_columns s
  then Ok {| columns := columns s;
             rows := map (fun r => if key r then set_coords x2 y2 x3 y3 z3 r
                                   else r) (rows s) |}
  else Raise DatabaseError.

(** [ORDER BY]: a stable insertion sort on the selected tuples. *)
Fixpoint insert_by {A} (le : A -> A -> bool) (x : A) (l : list A) : list A :=
  match l with
  | [] => [x]
  | y :: l' => if le x y then x :: l else y :: insert_by le x l'
  end.

Definition order_by {A} (le : A -> A -> bool) (l : list A) : list A :=
  fold_right (insert_by le) [] l.

(** SQL [COUNT(col)]: the rows where [col] is not NULL. *)
Definition count_not_null {A} (col : row -> option A) (s : store) : Z :=
  Z.of_nat (List.length (filter (fun r => not_null (col r)) (rows s))).

Definition count_all (s : store) : Z := Z.of_nat (List.length (rows s)).

(** A psycopg2 connection: statements act on the open transaction
    ([working]); [commit] makes them durable; what is not committed when the
    process ends is lost. *)
Record connection : Type := mkConn {
  committed : store;
  working : store
}.

Definition connect (s : store) : connection :=
  {| committed := s; working := s |}.

Definition commit (c : connection) : connection :=
  {| committed := working c; working := working c |}.

Definition execute (f : store -> result store) (c : connection)
  : result connection :=
  match f (working c) with
  | Ok s => Ok {| committed := committed c; working := s |}
  | Raise e => Raise e
  end.

End Store.

(* ------------------------------------------------------------------ *)
(** ** Script actions: a connection threaded through fallible steps *)

Section Actions.
Context {N : Numerics}.

Definition io (A : Type) : Type := connection -> result A * connection.

Definition ret {A} (a : A) : io A := fun c => (Ok a, c).

Definition throw {A} (e : exn) : io A := fun c => (Raise e, c).

Definition bind {A B} (m : io A) (k : A -> io B) : io B :=
  fun c => match m c with
           | (Ok a, c') => k a c'
           | (Raise e, c') => (Raise e, c')
           end.

Definition lift {A} (r : result A) : io A := fun c => (r, c).

(** [cur.execute(statement)] inside the open transaction. *)
Definition exec (f : store -> result store) : io unit :=
  fun c => match f (working c) with
           | Ok s => (Ok tt, {| committed := committed c; working := s |})
           | Raise e => (Raise e, c)
           end.

(** [for x in xs: cur.execute(statement, x)]. *)
Fixpoint exec_each {X} (stmt : X -> store -> result store) (xs : list X)
  : io unit :=
  match xs with
  | [] => ret tt
  | x :: rest => bind (exec (stmt x)) (fun _ => exec_each stmt rest)
  end.

(** [cur.execute(select); cur.fetchall()]. *)
Definition query {A} (q : store -> result A) : io A :=
  fun c => (q (working c), c).

(** [conn.commit()]; [fails] tells whether the server rejects it. *)
Definition do_commit (fails : bool) : io unit :=
  fun c => if fails then (Raise DatabaseError, c) else (Ok tt, commit c).

End Actions.

Declare Scope io_scope.
Delimit Scope io_scope with io.
Notation "x <- m ;; k" := (bind m (fun x => k))
  (at level 61, m at next level, right associativity) : io_scope.
Notation "m ;;; k" := (bind m (fun _ => k))
  (at level 61, right associativity) : io_scope.

(** What a script run leaves behind. *)
Record process {N : Numerics} : Type := mkProcess {
  exit_status : Z;
  database : store;                 (* the durable table at exit *)
  stdout : list string;             (* the outcome messages printed *)
  files : list (string * string)    (* files written: name, content *)
}.

(** [range(0, stop, step)] for a positive [step]. *)
Definition range_step (stop step : nat) : list nat :=
  map (fun k => (k * step)%nat) (seq 0 ((stop + step - 1) / step)).

(** [m[j, k]] on a matrix held as a list of rows. *)
Definition at2 {A} (m : list (list A)) (j k : nat) : result A :=
  match nth_error m j with
  | Some r => of_option IndexError (nth_error r k)
  | None => Raise IndexError
  end.

(* ------------------------------------------------------------------ *)
(** ** Python string methods used by the scripts *)

Definition TAB : ascii := Ascii.ascii_of_nat 9.
Definition LF : ascii := Ascii.ascii_of_nat 10.
Definition CR : ascii := Ascii.ascii_of_nat 13.

Definition mem_ascii (a : ascii) (chars : list ascii) : bool :=
  existsb (Ascii.eqb a) chars.

(** [s.startswith(c)] and [s.endswith(c)] for a one-character [c]. *)
Definition startswith (c : ascii) (s : string) : bool :=
  match s with
  | EmptyString => false
  | String a _ => Ascii.eqb a c
  end.

Fixpoint endswith (c : ascii) (s : string) : bool :=
  match s with
  | EmptyString => false
  | String a EmptyString => Ascii.eqb a c
  | String _ s' => endswith c s'
  end.

(** [s.split(sep)] for a one-character separator. *)
Fixpoint split (sep : ascii) (s : string) : list string :=
  match s with
  | EmptyString => [EmptyString]
  | String a s' =>
      if Ascii.eqb a sep then EmptyString :: split sep s'
      else match split sep s' with
           | [] => [String a EmptyString]
           | w :: ws => String a w :: ws
           end
  end.

(** [s.strip(chars)]. *)
Fixpoint lstrip (chars : list ascii) (s : string) : string :=
  match s with
  | EmptyString => EmptyString
  | String a s' => if mem_ascii a chars then lstrip chars s' else s
  end.

Fixpoint rstrip (chars : list ascii) (s : string) : string :=
  match s with
  | EmptyString => EmptyString
  | String a s' =>
      match rstrip chars s' with
      | EmptyString => if mem_ascii a chars then EmptyString
                       else String a EmptyString
      | t => String a t
      end
  end.

Definition strip (chars : list ascii) (s : string) : string :=
  rstrip chars (lstrip chars s).

(** [s.replace(old, new)] for one-character [old] and [new]. *)
Fixpoint replace (old new : ascii) (s : string) : string :=
  match s with
  | EmptyString => EmptyString
  | String a s' =>
      String (if Ascii.eqb a old then new else a) (replace old new s')
  end.

(** [str(n)] for an integer. *)
Definition str_int (n : Z) : string := NilZero.string_of_int (Z.to_int n).

Fixpoint concat_strings (l : list string) : string :=
  match l with
  | [] => EmptyString
  | s :: l' => (s ++ concat_strings l')%string
  end.

Fixpoint occurrences (c : ascii) (s : string) : nat :=
  match s with
  | EmptyString => 0%nat
  | String a s' => ((if Ascii.eqb a c then 1 else 0) + occurrences c s')%nat
  end.

(* ------------------------------------------------------------------ *)
(** ** packages/db/populate-umap-coordinates.py *)

Module Populate.
Section Script.
Context {N : Numerics}.
Open Scope io_scope.

Definition UMAP_2D_PARAMS : umap_params :=
  mkParams 2 15 (1 # 10) "cosine" 42 (Some (-1)).

Definition UMAP_3D_PARAMS : umap_params :=
  mkParams 3 15 (1 # 10) "cosine" 42 (Some (-1)).

Definition BATCH_SIZE : nat := 100.

(** The query of [fetch_embeddings]:
    [SELECT id, value, embedding_small FROM embedding_cache
     WHERE umap_x_2d IS NULL ORDER BY id]. *)
Definition select_pending (s : store)
  : result (list (Z * string * option string)) :=
  if has_column "umap_x_2d" s
  then Ok (order_by (fun a b => fst (fst a) <=? fst (fst b))
             (map (fun r => (id r, value r, embedding_small r))
                  (filter (fun r => is_null (umap_x_2d r)) (rows s))))
  else Raise DatabaseError.

Definition fetch_embeddings
  : io (list Z * list string * list (list float)) :=
  rows <- query select_pending ;;
  match rows with
  | [] => ret ([], [], [])
  | _ =>
      let ids := map (fun row => fst (fst row)) rows in
      let labels := map (fun row => snd (fst row)) rows in
      embeddings <- lift (of_option ValueError
                            (ndarray_of_cells (map snd rows))) ;;
      ret (ids, labels, embeddings)
  end.

(** One tuple of [batch_data]. *)
Definition batch_tuple (ids : list Z) (coords_2d coords_3d : list (list float))
    (j : nat) : result (float * float * float * float * float * Z) :=
  rbind (at2 coords_2d j 0) (fun x2 =>
  rbind (at2 coords_2d j 1) (fun y2 =>
  rbind (at2 coords_3d j 0) (fun x3 =>
  rbind (at2 coords_3d j 1) (fun y3 =>
  rbind (at2 coords_3d j 2) (fun z3 =>
  rbind (of_option IndexError (nth_error ids j)) (fun k =>
  Ok (x2, y2, x3, y3, z3, k))))))).

(** [update_query] with one parameter tuple. *)
Definition update_query (t : float * float * float * float * float * Z)
    (s : store) : result store :=
  let '(x2, y2, x3, y3, z3, k) := t in
  update_where (fun r => id r =? k) x2 y2 x3 y3 z3 s.

(** [cur.executemany(update_query, batch_data)]. *)
Definition executemany
    (batch_data : list (float * float * float * float * float * Z))
  : io unit :=
  exec_each update_query batch_data.

(** The body of the batch loop for the batch starting at [i]; [fails]
    tells whether this batch's commit is rejected. *)
Definition update_batch (fails : bool) (ids : list Z)
    (coords_2d coords_3d : list (list float)) (i : nat) : io nat :=
  let batch_end := Nat.min (i + BATCH_SIZE) (List.length ids) in
  batch_data <- lift (rmap (batch_tuple ids coords_2d coords_3d)
                        (seq i (batch_end - i))) ;;
  executemany batch_data ;;;
  do_commit fails ;;;
  ret (List.length batch_data).

(** The batch loop; [k] numbers the batches for the fault schedule. *)
Fixpoint update_loop (fault : nat -> bool) (ids : list Z)
    (coords_2d coords_3d : list (list float)) (starts : list nat) (k : nat)
    (total_updated : nat) : io nat :=
  match starts with
  | [] => ret total_updated
  | i :: rest =>
      n <- update_batch (fault k) ids coords_2d coords_3d i ;;
      update_loop fault ids coords_2d coords_3d rest (S k)
        (total_updated + n)%nat
  end.

Definition update_umap_coordinates (fault : nat -> bool) (ids : list Z)
    (coords_2d coords_3d : list (list float)) : io nat :=
  update_loop fault ids coords_2d coords_3d
    (range_step (List.length ids) BATCH_SIZE) 0 0.

(** SQL [MIN]/[MAX] over a nullable column. *)
Definition pick (better : float -> float -> bool) (x : float)
    (acc : option float) : option float :=
  match acc with
  | None => Some x
  | Some y => if better x y then Some x else Some y
  end.

Fixpoint aggregate (better : float -> float -> bool)
    (col : row -> option float) (l : list row) : option float :=
  match l with
  | [] => None
  | r :: l' =>
      match col r with
      | None => aggregate better col l'
      | Some x => pick better x (aggregate better col l')
      end
  end.

Definition sql_min col (s : store) := aggregate float_leb col (rows s).
Definition sql_max col (s : store) :=
  aggregate (fun x y => float_leb y x) col (rows s).

(** What [verify_population] prints. *)
Record statistics : Type := mkStats {
  total : Z;
  populated_2d : Z;
  populated_3d : Z;
  percent_2d : Q;
  percent_3d : Q;
  ranges : list (float * float)
}.

(** Python's [a / b] on integers. *)
Definition true_div (a b : Z) : result Q :=
  if b =? 0 then Raise ZeroDivisionError
  else Ok (inject_Z a / inject_Z b)%Q.

(** [f"{lo:.2f}, {hi:.2f}"]: a [None] bound has no such format. *)
Definition fmt_range (lo hi : option float) : result (float * float) :=
  match lo, hi with
  | Some a, Some b => Ok (a, b)
  | _, _ => Raise TypeError
  end.

Definition verify_population_on (s : store) : result statistics :=
  if negb (has_umap_columns s) then Raise DatabaseError else
  let stats0 := count_all s in
  let stats1 := count_not_null umap_x_2d s in
  let stats2 := count_not_null umap_x_3d s in
  rbind (true_div (100 * stats1) stats0) (fun p2 =>
  rbind (true_div (100 * stats2) stats0) (fun p3 =>
  rbind (rmap (fun col => fmt_range (sql_min col s) (sql_max col s))
           [umap_x_2d; umap_y_2d; umap_x_3d; umap_y_3d; umap_z_3d])
        (fun rs => Ok (mkStats stats0 stats1 stats2 p2 p3 rs)))).

Definition verify_population : io statistics := query verify_population_on.

Definition compute_umap_projections (embeddings : list (list float))
  : result (list (list float) * list (list float)) :=
  rbind (of_option ProjectionFailure
           (fit_transform UMAP_2D_PARAMS embeddings)) (fun coords_2d =>
  rbind (of_option ProjectionFailure
           (fit_transform UMAP_3D_PARAMS embeddings)) (fun coords_3d =>
  Ok (coords_2d, coords_3d))).

Definition msg_nothing_to_do : string :=
  "All embeddings already have UMAP coordinates. Exiting.".
Definition msg_success : string := "Success! UMAP coordinates populated.".
Definition msg_database_error : string := "Database error".
Definition msg_unexpected_error : string := "Unexpected error".

(** The steps of [main] inside its [try]. *)
Definition steps (fault : nat -> bool) : io string :=
  fetched <- fetch_embeddings ;;
  let '(ids, labels, embeddings) := fetched in
  if (List.length ids =? 0)%nat then ret msg_nothing_to_do
  else
    projections <- lift (compute_umap_projections embeddings) ;;
    let '(coords_2d, coords_3d) := projections in
    update_umap_coordinates fault ids coords_2d coords_3d ;;;
    verify_population ;;;
    ret msg_success.

(** [main]: the handlers turn every exception into exit status 1; what was
    committed stays. *)
Definition main (fault : nat -> bool) (db : store) : process :=
  match steps fault (connect db) with
  | (Ok msg, conn) => mkProcess 0 (committed conn) [msg] []
  | (Raise DatabaseError, conn) =>
      mkProcess 1 (committed conn) [msg_database_error] []
  | (Raise _, conn) => mkProcess 1 (committed conn) [msg_unexpected_error] []
  end.

End Script.
End Populate.

(* ------------------------------------------------------------------ *)
(** ** scripts/embeddings/umap-reduce.py *)

Module UmapReduce.
Section Script.
Context {N : Numerics}.
Open Scope io_scope.

Definition UMAP_PARAMS (n_components : nat) : umap_params :=
  mkParams n_components 20 (1 # 10) "cosine" 42 None.

(** An element of [data] as [fetch_embeddings] builds it. *)
Record datum : Type := mkDatum {
  d_value_hash : string;
  d_value : string;
  d_embedding : list float;
  d_source_table : string;
  d_source_column : string;
  d_usage_count : Z
}.

(** The same element once [run_umap] has added its two keys. *)
Record point : Type := mkPoint {
  d : datum;
  umap_2d : list float;
  umap_3d : list float
}.

Definition selected : Type :=
  (string * string * string * string * string * Z)%type.

Definition hash_of (t : selected) : string :=
  let '(h, _, _, _, _, _) := t in h.

(** The query of [fetch_embeddings]: the six columns of every row WHERE
    [embedding_small IS NOT NULL], ORDER BY [value_hash]. *)
Definition select_embeddings (s : store) : result (list selected) :=
  Ok (order_by (fun a b => String.leb (hash_of a) (hash_of b))
        (flat_map (fun r =>
                     match embedding_small r with
                     | Some e => [(value_hash r, value r, e, source_table r,
                                   source_column r, usage_count r)]
                     | None => []
                     end) (rows s))).

(** Parsing one stored vector. *)
Definition parse_embedding (embedding_str : string) : result (list float) :=
  if startswith "[" embedding_str && endswith "]" embedding_str
  then of_option ValueError (json_loads embedding_str)
  else rmap (fun x => of_option ValueError (float_of_string x))
         (split "," embedding_str).

Definition parse_row (t : selected) : result datum :=
  let '(value_hash, value, embedding_str, source_table, source_column,
        usage_count) := t in
  rbind (parse_embedding embedding_str) (fun embedding =>
  Ok (mkDatum value_hash value embedding source_table source_column
        usage_count)).

Definition fetch_embeddings : io (list datum) :=
  rows <- query select_embeddings ;;
  match rows with
  | [] => throw (SystemExit 1)
  | _ => lift (rmap parse_row rows)
  end.

(** The [information_schema] query: which of the five names exist. *)
Definition existing_umap_columns (s : store) : result (list string) :=
  Ok (filter (fun c => has_column c s) umap_column_names).

Definition not_in (c : string) (l : list string) : bool :=
  negb (existsb (String.eqb c) l).

Fixpoint alter_all (cols : list string) : io unit :=
  match cols with
  | [] => ret tt
  | col :: rest =>
      exec (fun s => Ok (add_column_if_not_exists col s)) ;;; alter_all rest
  end.

Definition columns_to_add (existing_columns : list string) : list string :=
  (if not_in "umap_x_2d" existing_columns
   then ["umap_x_2d"; "umap_y_2d"]%string else [])
  ++ (if not_in "umap_x_3d" existing_columns
      then ["umap_x_3d"; "umap_y_3d"; "umap_z_3d"]%string else []).

Definition add_umap_columns : io unit :=
  existing_columns <- query existing_umap_columns ;;
  match columns_to_add existing_columns with
  | [] => ret tt
  | cols => alter_all cols ;;; do_commit false
  end.

(** [np.vstack]: the rows must agree in length, and there must be one. *)
Definition vstack (vs : list (list float)) : result (list (list float)) :=
  match vs with
  | [] => Raise ValueError
  | v :: _ =>
      if forallb (fun w => (List.length w =? List.length v)%nat) vs
      then Ok vs else Raise ValueError
  end.

(** The loop of [run_umap] that attaches row [i] to element [i]. *)
Fixpoint attach (i : nat) (coords_2d coords_3d : list (list float))
    (data : list datum) : result (list point) :=
  match data with
  | [] => Ok []
  | x :: rest =>
      rbind (of_option IndexError (nth_error coords_2d i)) (fun c2 =>
      rbind (of_option IndexError (nth_error coords_3d i)) (fun c3 =>
      rbind (attach (S i) coords_2d coords_3d rest) (fun ps =>
      Ok (mkPoint x c2 c3 :: ps))))
  end.

Definition run_umap (data : list datum) : result (list point) :=
  rbind (vstack (map d_embedding data)) (fun embeddings =>
  rbind (of_option ProjectionFailure
           (fit_transform (UMAP_PARAMS 2) embeddings)) (fun coords_2d =>
  rbind (of_option ProjectionFailure
           (fit_transform (UMAP_PARAMS 3) embeddings)) (fun coords_3d =>
  attach 0 coords_2d coords_3d data))).

Definition idx {A} (v : list A) (k : nat) : result A :=
  of_option IndexError (nth_error v k).

(** The [UPDATE ... WHERE value_hash = %s] of one element. *)
Definition update_one (p : point) (s : store) : result store :=
  rbind (idx (umap_2d p) 0) (fun x2 =>
  rbind (idx (umap_2d p) 1) (fun y2 =>
  rbind (idx (umap_3d p) 0) (fun x3 =>
  rbind (idx (umap_3d p) 1) (fun y3 =>
  rbind (idx (umap_3d p) 2) (fun z3 =>
  update_where (fun r => String.eqb (value_hash r) (d_value_hash (d p)))
    x2 y2 x3 y3 z3 s))))).

Definition update_database (data : list point) : io unit :=
  exec_each update_one data ;;; do_commit false.

Definition line_2d (p : point) : result string :=
  rbind (idx (umap_2d p) 0) (fun x =>
  rbind (idx (umap_2d p) 1) (fun y =>
  Ok (format_6f x ++ String TAB (format_6f y ++ String LF ""))%string)).

Definition line_3d (p : point) : result string :=
  rbind (idx (umap_3d p) 0) (fun x =>
  rbind (idx (umap_3d p) 1) (fun y =>
  rbind (idx (umap_3d p) 2) (fun z =>
  Ok (format_6f x ++ String TAB (format_6f y ++ String TAB
        (format_6f z ++ String LF "")))%string))).

Definition metadata_header : string :=
  ("value" ++ String TAB ("source_table" ++ String TAB ("source_column"
     ++ String TAB ("usage_count" ++ String LF ""))))%string.

(** One data row of [metadata.tsv]. *)
Definition metadata_line (x : datum) : string :=
  let value := replace CR " " (replace LF " " (replace TAB " " (d_value x))) in
  (value ++ String TAB (d_source_table x ++ String TAB (d_source_column x
     ++ String TAB (str_int (d_usage_count x) ++ String LF ""))))%string.

(** [with open(path, 'w') as f: for d in data: f.write(line(d))]: what
    the file holds when the block is left, and how it is left.  An
    exception leaves the block through the [with], which closes the file
    with the lines written so far. *)
Fixpoint write_lines (line : point -> result string) (data : list point)
    (written : string) : string * result unit :=
  match data with
  | [] => (written, Ok tt)
  | p :: rest =>
      match line p with
      | Ok l => write_lines line rest (written ++ l)%string
      | Raise e => (written, Raise e)
      end
  end.

(** [export_tsv]: the files it leaves, in the order it opened them, and
    how it ends.  The files are written one after the other, so an
    exception leaves the files written before it and the part of the
    current one.  [disk_fails k] tells whether the file system refuses
    operation [k]: creating the directory (0), opening
    [embeddings_2d.tsv] (1), [embeddings_3d.tsv] (2), [metadata.tsv]
    (3). *)
Definition export_tsv (disk_fails : nat -> bool) (data : list point)
  : list (string * string) * result unit :=
  if disk_fails 0%nat then ([], Raise OSError) else
  if disk_fails 1%nat then ([], Raise OSError) else
  let '(text_2d, end_2d) := write_lines line_2d data "" in
  let files := [("embeddings_2d.tsv"%string, text_2d)] in
  match end_2d with
  | Raise e => (files, Raise e)
  | Ok _ =>
      if disk_fails 2%nat then (files, Raise OSError) else
      let '(text_3d, end_3d) := write_lines line_3d data "" in
      let files := files ++ [("embeddings_3d.tsv"%string, text_3d)] in
      match end_3d with
      | Raise e => (files, Raise e)
      | Ok _ =>
          if disk_fails 3%nat then (files, Raise OSError) else
          (files ++
           [("metadata.tsv"%string,
             (metadata_header
              ++ concat_strings
                   (map (fun p => metadata_line (d p)) data))%string)],
           Ok tt)
      end
  end.

Definition verify_update_on (s : store) : result Z :=
  if has_column "umap_x_2d" s then Ok (count_not_null umap_x_2d s)
  else Raise DatabaseError.

(** [verify_update]; [fails] tells whether the server refuses the query
    (the connection is lost). *)
Definition verify_update (fails : bool) : io Z :=
  if fails then throw DatabaseError else query verify_update_on.

Definition msg_complete : string := "UMAP PROCESSING COMPLETE".
Definition msg_no_embeddings : string := "No embeddings found in database".
Definition msg_error : string := "Error".

(** What may fail, for reasons outside the data, once [update_database]
    has committed: the query of [verify_update] and the file system. *)
Record environment : Type := mkEnvironment {
  verify_fails : bool;
  disk_fails : nat -> bool
}.

(** The environment in which neither fails. *)
Definition sound : environment := mkEnvironment false (fun _ => false).

(** The steps of [main] inside its [try], up to the export. *)
Definition steps (env : environment) : io (list point) :=
  add_umap_columns ;;;
  data <- fetch_embeddings ;;
  data <- lift (run_umap data) ;;
  update_database data ;;;
  verify_update (verify_fails env) ;;;
  ret data.

(** [main] in an environment: [sys.exit(1)] from [fetch_embeddings]
    passes the handler for [Exception]; every other exception reaches it
    and exits with 1 too.  What [update_database] committed stays, and so
    do the files [export_tsv] wrote before it raised. *)
Definition main_in (env : environment) (db : store) : process :=
  match steps env (connect db) with
  | (Ok data, conn) =>
      match export_tsv (disk_fails env) data with
      | (written, Ok _) =>
          mkProcess 0 (committed conn) [msg_complete] written
      | (written, Raise _) =>
          mkProcess 1 (committed conn) [msg_error] written
      end
  | (Raise (SystemExit code), conn) =>
      mkProcess code (committed conn) [msg_no_embeddings] []
  | (Raise _, conn) => mkProcess 1 (committed conn) [msg_error] []
  end.

(** [main] when the database and the disk stay available. *)
Definition main (db : store) : process := main_in sound db.

End Script.
End UmapReduce.

(* ------------------------------------------------------------------ *)
(** ** visualization-pipeline/01_extract_embeddings.py *)

Module Extract01.
Section Script.
Context {N : Numerics}.

(** A row of the query of [extract_embeddings]; the vector is cast to
    text. *)
Record fetched : Type := mkFetched {
  f_id : Z;
  f_value : string;
  f_value_hash : string;
  f_embedding_vector : string;
  f_source_table : string;
  f_source_column : string;
  f_usage_count : Z;
  f_created_at : string
}.

(** An element of [metadata_rows]. *)
Record metadata_row : Type := mkMeta {
  m_id : Z;
  m_label : string;
  m_value_hash : string;
  m_source_table : string;
  m_source_column : string;
  m_usage_count : Z;
  m_created_at : string
}.

Definition embedding_col (dimension : Z) : row -> option string :=
  if dimension =? 1536 then embedding_small else embedding_large.

(** [SELECT ... WHERE embedding_col IS NOT NULL ORDER BY id]. *)
Definition select_embeddings (dimension : Z) (s : store) : list fetched :=
  order_by (fun a b => f_id a <=? f_id b)
    (flat_map (fun r =>
                 match embedding_col dimension r with
                 | Some e => [mkFetched (id r) (value r) (value_hash r) e
                                (source_table r) (source_column r)
                                (usage_count r) (created_at r)]
                 | None => []
                 end) (rows s)).

(** The body of the parsing loop for the vector. *)
Definition parse_vector (vector_str : string) : result (list float) :=
  let vector_str_clean := strip ["["%char; "]"%char] vector_str in
  rmap (fun x => of_option ValueError (float_of_string x))
    (split "," vector_str_clean).

Definition metadata_of (r : fetched) : metadata_row :=
  mkMeta (f_id r) (f_value r) (f_value_hash r) (f_source_table r)
    (f_source_column r) (f_usage_count r) (f_created_at r).

(** [np.array(embeddings, dtype=np.float32)] on a list of vectors: rows of
    different lengths are refused. *)
Definition ndarray (vs : list (list float)) : result (list (list float)) :=
  match vs with
  | [] => Ok []
  | v :: _ =>
      if forallb (fun w => (List.length w =? List.length v)%nat) vs
      then Ok vs else Raise ValueError
  end.

Definition extract_embeddings (db : store) (dimension : Z)
  : result (list (list float) * list metadata_row) :=
  let rows := select_embeddings dimension db in
  match rows with
  | [] => Ok ([], [])
  | _ =>
      rbind (rmap (fun r => parse_vector (f_embedding_vector r)) rows)
        (fun embeddings =>
      let metadata_rows := map metadata_of rows in
      rbind (ndarray embeddings) (fun embeddings_array =>
      Ok (embeddings_array, metadata_rows)))
  end.

(** What a run of the script leaves: its exit status, the untouched
    table, and the two files it saved (if it got that far). *)
Record outcome : Type := mkOutcome {
  status : Z;
  table : store;
  saved : option (list (list float) * list metadata_row)
}.

Definition main (db : store) : outcome :=
  match extract_embeddings db 1536 with
  | Ok (embeddings, metadata) =>
      if (List.length embeddings =? 0)%nat
      then mkOutcome 1 db None           (* "No embeddings to save" *)
      else mkOutcome 0 db (Some (embeddings, metadata))
  | Raise _ => mkOutcome 1 db None
  end.

End Script.
End Extract01.

(* ------------------------------------------------------------------ *)
(** ** visualization-pipeline/03_update_database.py

    asyncpg runs every statement in a transaction of its own. *)

Module Update03.
Section Script.
Context {N : Numerics}.

(** [column_name LIKE 'umap_%']: the underscore matches any one
    character. *)
Definition like_umap (c : string) : bool :=
  String.prefix "umap" c && (5 <=? String.length c)%nat.

Definition columns_to_add : list (string * string) :=
  [("umap_x_2d", "REAL"); ("umap_y_2d", "REAL"); ("umap_x_3d", "REAL");
   ("umap_y_3d", "REAL"); ("umap_z_3d", "REAL")]%string.

(** The loop of [ensure_umap_columns] over [columns_to_add]. *)
Fixpoint ensure_loop (existing_column_names : list string)
    (cols : list (string * string)) (s : store) : result store :=
  match cols with
  | [] => Ok s
  | (col_name, _) :: rest =>
      if existsb (String.eqb col_name) existing_column_names
      then ensure_loop existing_column_names rest s
      else rbind (add_column col_name s)
             (ensure_loop existing_column_names rest)
  end.

Definition ensure_umap_columns (s : store) : result store :=
  let existing_column_names := filter like_umap (columns s) in
  ensure_loop existing_column_names columns_to_add s.

(** The counters and warnings of [update_umap_coordinates]. *)
Record tally : Type := mkTally {
  updated : nat;
  failed : nat;
  warned : list Z      (* the ids of the "Failed to update ID" lines *)
}.

(** What the [try] block of iteration [idx] does after reading the id;
    [fails] tells whether the server rejects the statement. *)
Definition try_update (fails : bool) (umap_2d umap_3d : list (list float))
    (idx : nat) (embedding_id : Z) (s : store) : result store :=
  rbind (at2 umap_2d idx 0) (fun x_2d =>
  rbind (at2 umap_2d idx 1) (fun y_2d =>
  rbind (at2 umap_3d idx 0) (fun x_3d =>
  rbind (at2 umap_3d idx 1) (fun y_3d =>
  rbind (at2 umap_3d idx 2) (fun z_3d =>
  if fails then Raise DatabaseError
  else update_where (fun r => id r =? embedding_id)
         x_2d y_2d x_3d y_3d z_3d s))))).

(** The loop over [range(total)]; [ids] is the id column of [metadata]
    from row [idx] on. *)
Fixpoint update_loop (fault : nat -> bool) (umap_2d umap_3d : list (list float))
    (idx : nat) (ids : list Z) (s : store) (t : tally) : store * tally :=
  match ids with
  | [] => (s, t)
  | embedding_id :: rest =>
      match try_update (fault idx) umap_2d umap_3d idx embedding_id s with
      | Ok s' =>
          update_loop fault umap_2d umap_3d (S idx) rest s'
            (mkTally (S (updated t)) (failed t) (warned t))
      | Raise _ =>
          update_loop fault umap_2d umap_3d (S idx) rest s
            (mkTally (updated t) (S (failed t)) (warned t ++ [embedding_id]))
      end
  end.

Definition update_umap_coordinates (fault : nat -> bool) (s : store)
    (metadata_ids : list Z) (umap_2d umap_3d : list (list float))
  : store * tally :=
  update_loop fault umap_2d umap_3d 0 metadata_ids s (mkTally 0 0 []).

(** [LIMIT n] after [WHERE umap_x_2d IS NOT NULL ORDER BY id]. *)
Definition samples (n : nat) (s : store) : list row :=
  firstn n (order_by (fun a b => id a <=? id b)
              (filter (fun r => not_null (umap_x_2d r)) (rows s))).

(** The [:.3f] formats of a sample need all five numbers. *)
Definition printable (r : row) : bool :=
  not_null (umap_x_2d r) && not_null (umap_y_2d r) && not_null (umap_x_3d r)
  && not_null (umap_y_3d r) && not_null (umap_z_3d r).

Definition verify_updates (s : store) : result (Z * Z * Z) :=
  if negb (has_column "umap_x_2d" s && has_column "umap_x_3d" s)
  then Raise DatabaseError
  else if negb (has_umap_columns s) then Raise DatabaseError
  else if forallb printable (samples 5 s)
  then Ok (count_all s, count_not_null umap_x_2d s,
           count_not_null umap_x_3d s)
  else Raise TypeError.

Record outcome : Type := mkOutcome {
  status : Z;
  table : store;
  report : option tally
}.

(** [main] once the three input files are loaded. *)
Definition main (fault : nat -> bool) (db : store) (metadata_ids : list Z)
    (umap_2d umap_3d : list (list float)) : outcome :=
  if negb ((List.length metadata_ids =? List.length umap_2d)%nat
           && (List.length umap_2d =? List.length umap_3d)%nat)
  then mkOutcome 1 db None               (* "Shape mismatch" *)
  else
    match ensure_umap_columns db with
    | Raise _ => mkOutcome 1 db None
    | Ok db1 =>
        let '(db2, t) :=
          update_umap_coordinates fault db1 metadata_ids umap_2d umap_3d in
        match verify_updates db2 with
        | Raise _ => mkOutcome 1 db2 (Some t)
        | Ok _ => mkOutcome 0 db2 (Some t)  (* "Database update complete!" *)
        end
    end.

End Script.
End Update03.

(* ------------------------------------------------------------------ *)
(** ** visualization-pipeline/check_db_final.py *)

Module CheckDbFinal.
Section Script.
Context {N : Numerics}.

Record coverage : Type := mkCoverage {
  total : Z;
  with_2d : Z;
  with_3d : Z;
  percent_2d : Q;
  percent_3d : Q;
  embed_count : Z;
  percent_embed : Q;
  nulls : Z
}.

Definition any_null (r : row) : bool :=
  is_null (umap_x_2d r) || is_null (umap_y_2d r) || is_null (umap_x_3d r)
  || is_null (umap_y_3d r) || is_null (umap_z_3d r).

(** The statements of the script up to the NULL report, in order. *)
Definition script (s : store) : result coverage :=
  let total := count_all s in
  if negb (has_column "umap_x_2d" s && has_column "umap_x_3d" s)
  then Raise DatabaseError else
  let row0 := count_all s in
  let row1 := count_not_null umap_x_2d s in
  let row2 := count_not_null umap_x_3d s in
  rbind (Populate.true_div (100 * row1) row0) (fun p2 =>
  rbind (Populate.true_div (100 * row2) row0) (fun p3 =>
  let embed_count := count_not_null embedding_small s in
  rbind (Populate.true_div (100 * embed_count) total) (fun pe =>
  if negb (has_umap_columns s) then Raise DatabaseError else
  let nulls := Z.of_nat (List.length (filter any_null (rows s))) in
  Ok (mkCoverage total row1 row2 p2 p3 embed_count pe nulls)))).

End Script.
End CheckDbFinal.

(* ------------------------------------------------------------------ *)
(** ** Vocabulary of the statements *)

Section Vocabulary.
Context {N : Numerics}.

(** One keyed five-column write. *)
Record write : Type := mkWrite {
  matches : row -> bool;
  w_x2 : float; w_y2 : float; w_x3 : float; w_y3 : float; w_z3 : float
}.

Definition apply_write (w : write) (r : row) : row :=
  if matches w r
  then set_coords (w_x2 w) (w_y2 w) (w_x3 w) (w_y3 w) (w_z3 w) r
  else r.

(** A row after a sequence of writes, the first write applied first. *)
Definition row_after (ws : list write) (r : row) : row :=
  fold_left (fun r w => apply_write w r) ws r.

Definition store_after (ws : list write) (s : store) : store :=
  {| columns := columns s; rows := map (row_after ws) (rows s) |}.

(** The [UPDATE] statement a write stands for. *)
Definition run_write (w : write) (s : store) : result store :=
  update_where (matches w) (w_x2 w) (w_y2 w) (w_x3 w) (w_y3 w) (w_z3 w) s.

(** The last write of a sequence that matches a row, if any. *)
Definition last_match (ws : list write) (r : row) (acc : option write)
  : option write :=
  fold_left (fun acc w => if matches w r then Some w else acc) ws acc.

Definition coords_of (acc : option write) (r : row) : row :=
  match acc with
  | None => r
  | Some w => set_coords (w_x2 w) (w_y2 w) (w_x3 w) (w_y3 w) (w_z3 w) r
  end.

(** The key of a write looks only at what [set_coords] keeps. *)
Definition key_stable (w : write) : Prop :=
  forall x2 y2 x3 y3 z3 r,
    matches w (set_coords x2 y2 x3 y3 z3 r) = matches w r.

Definition write_by_id (t : float * float * float * float * float * Z)
  : write :=
  let '(x2, y2, x3, y3, z3, k) := t in
  mkWrite (fun r => id r =? k) x2 y2 x3 y3 z3.

Definition write_of_point (p : UmapReduce.point) : result write :=
  rbind (UmapReduce.idx (UmapReduce.umap_2d p) 0) (fun x2 =>
  rbind (UmapReduce.idx (UmapReduce.umap_2d p) 1) (fun y2 =>
  rbind (UmapReduce.idx (UmapReduce.umap_3d p) 0) (fun x3 =>
  rbind (UmapReduce.idx (UmapReduce.umap_3d p) 1) (fun y3 =>
  rbind (UmapReduce.idx (UmapReduce.umap_3d p) 2) (fun z3 =>
  Ok (mkWrite
        (fun r => String.eqb (value_hash r)
                    (UmapReduce.d_value_hash (UmapReduce.d p)))
        x2 y2 x3 y3 z3)))))).

(** The indices of one batch of the writer of
    populate-umap-coordinates.py. *)
Definition chunk (n i : nat) : list nat :=
  seq i (Nat.min (i + Populate.BATCH_SIZE) n - i).

(** What iteration [idx] of the loop of 03_update_database.py sends, or
    the exception its [try] block ends with. *)
Definition attempt (fault : nat -> bool) (umap_2d umap_3d : list (list float))
    (idx : nat) (embedding_id : Z) : result write :=
  rbind (at2 umap_2d idx 0) (fun x_2d =>
  rbind (at2 umap_2d idx 1) (fun y_2d =>
  rbind (at2 umap_3d idx 0) (fun x_3d =>
  rbind (at2 umap_3d idx 1) (fun y_3d =>
  rbind (at2 umap_3d idx 2) (fun z_3d =>
  if fault idx then Raise DatabaseError
  else Ok (mkWrite (fun r => id r =? embedding_id)
             x_2d y_2d x_3d y_3d z_3d)))))).

(** The writes of that loop that go through, and the ids of those that do
    not. *)
Fixpoint written (fault : nat -> bool) (umap_2d umap_3d : list (list float))
    (idx : nat) (ids : list Z) : list write :=
  match ids with
  | [] => []
  | k :: rest =>
      match attempt fault umap_2d umap_3d idx k with
      | Ok w => w :: written fault umap_2d umap_3d (S idx) rest
      | Raise _ => written fault umap_2d umap_3d (S idx) rest
      end
  end.

Fixpoint rejected (fault : nat -> bool) (umap_2d umap_3d : list (list float))
    (idx : nat) (ids : list Z) : list Z :=
  match ids with
  | [] => []
  | k :: rest =>
      match attempt fault umap_2d umap_3d idx k with
      | Ok _ => rejected fault umap_2d umap_3d (S idx) rest
      | Raise _ => k :: rejected fault umap_2d umap_3d (S idx) rest
      end
  end.

(** The coordinates a row holds: all five, or not. *)
Definition complete (r : row) : bool :=
  not_null (umap_x_2d r) && not_null (umap_y_2d r) && not_null (umap_x_3d r)
  && not_null (umap_y_3d r) && not_null (umap_z_3d r).

Definition has_2d (r : row) : bool :=
  not_null (umap_x_2d r) && not_null (umap_y_2d r).

Definition has_3d (r : row) : bool :=
  not_null (umap_x_3d r) && not_null (umap_y_3d r) && not_null (umap_z_3d r).

(** Exactly one of the 2D pair and the 3D triple is present. *)
Definition partial (r : row) : bool := xorb (has_2d r) (has_3d r).

Definition holds (r : row) (x2 y2 x3 y3 z3 : float) : Prop :=
  umap_x_2d r = Some x2 /\ umap_y_2d r = Some y2 /\ umap_x_3d r = Some x3
  /\ umap_y_3d r = Some y3 /\ umap_z_3d r = Some z3.

(** What a row is apart from its coordinates. *)
Definition payload (r : row)
  : Z * string * string * option string * option string * string * string
    * Z * string :=
  (id r, value r, value_hash r, embedding_small r, embedding_large r,
   source_table r, source_column r, usage_count r, created_at r).

(** No coordinate cell of [r'] holds a number that [r] did not hold, and
    the rest of the row is the same. *)
Definition no_cell_written (r r' : row) : Prop :=
  payload r' = payload r
  /\ (forall x, umap_x_2d r' = Some x -> umap_x_2d r = Some x)
  /\ (forall x, umap_y_2d r' = Some x -> umap_y_2d r = Some x)
  /\ (forall x, umap_x_3d r' = Some x -> umap_x_3d r = Some x)
  /\ (forall x, umap_y_3d r' = Some x -> umap_y_3d r = Some x)
  /\ (forall x, umap_z_3d r' = Some x -> umap_z_3d r = Some x).

(** The exceptions [sys.exit] raises. *)
Definition is_exit (e : exn) : bool :=
  match e with SystemExit _ => true | _ => false end.

(** All vectors have the length of the first. *)
Definition uniform {A} (vs : list (list A)) : bool :=
  match vs with
  | [] => true
  | v :: _ => forallb (fun w => (List.length w =? List.length v)%nat) vs
  end.

(** A run of [ADD COLUMN IF NOT EXISTS] statements. *)
Definition ensure_with (cols : list string) (s : store) : store :=
  fold_left (fun s c => add_column_if_not_exists c s) cols s.

(** The text fields the metadata export is meant to keep on one line. *)
Definition line_breaking (a : ascii) : bool :=
  Ascii.eqb a TAB || Ascii.eqb a LF || Ascii.eqb a CR.

Fixpoint clean (s : string) : bool :=
  match s with
  | EmptyString => true
  | String a s' => negb (line_breaking a) && clean s'
  end.

Fixpoint blank_breaks (s : string) : string :=
  match s with
  | EmptyString => EmptyString
  | String a s' =>
      String (if line_breaking a then " "%char else a) (blank_breaks s')
  end.

End Vocabulary.

(* ------------------------------------------------------------------ *)
(** ** A concrete collaborator, for running the model

    Floats are played by integers: [float_of_string] reads an optionally
    signed run of decimal digits and refuses everything else, a stored
    vector is a bracketed, comma separated list of such numbers, and the
    projection sends a row to consecutive integers starting at its sum. *)

Module Fixture.

Definition digit_of (a : ascii) : option Z :=
  let n := nat_of_ascii a in
  if ((48 <=? n) && (n <=? 57))%nat then Some (Z.of_nat (n - 48)) else None.

Fixpoint parse_digits (acc : Z) (s : string) : option Z :=
  match s with
  | EmptyString => Some acc
  | String a s' =>
      match digit_of a with
      | Some d => parse_digits (10 * acc + d) s'
      | None => None
      end
  end.

Definition parse_int (s : string) : option Z :=
  match s with
  | EmptyString => None
  | String "-" EmptyString => None
  | String "-" s' => option_map Z.opp (parse_digits 0 s')
  | _ => parse_digits 0 s
  end.

Fixpoint all_some {A} (l : list (option A)) : option (list A) :=
  match l with
  | [] => Some []
  | None :: _ => None
  | Some a :: l' => option_map (cons a) (all_some l')
  end.

Definition parse_vector (s : string) : option (list Z) :=
  if startswith "[" s && endswith "]" s
  then all_some (map parse_int (split "," (strip ["["%char; "]"%char] s)))
  else None.

Definition cells (l : list (option string)) : option (list (list Z)) :=
  all_some (map (fun c => match c with
                          | Some s => parse_vector s
                          | None => None
                          end) l).

Definition project (p : umap_params) (m : list (list Z))
  : option (list (list Z)) :=
  Some (map (fun v => map (fun j => fold_right Z.add 0 v + Z.of_nat j)
                        (seq 0 (n_components p))) m).

Definition integers : Numerics :=
  {| float := Z;
     float_of_string := parse_int;
     json_loads := parse_vector;
     ndarray_of_cells := cells;
     fit_transform := project;
     format_6f := fun z => (str_int z ++ ".000000")%string;
     float_leb := Z.leb |}.

(** A row with a vector and no coordinates. *)
Definition fresh (k : Z) (vector : string) : row (N := integers) :=
  mkRow (N := integers) k "label" (str_int k) (Some vector) None
    "attribute" "attribute_label" 1 "2025-01-01" None None None None None.

(** A row left with its 2D pair but without its 3D triple. *)
Definition half_done (k : Z) : row (N := integers) :=
  mkRow (N := integers) k "label" (str_int k) (Some "[1,2]"%string) None
    "attribute" "attribute_label" 1 "2025-01-01"
    (Some 7) (Some 8) None None None.

Definition table (rs : list (row (N := integers))) : store (N := integers) :=
  mkStore (N := integers) umap_column_names rs.

(** [n] fresh rows with ids 1 to [n]. *)
Definition many (n : nat) : store (N := integers) :=
  table (map (fun k => fresh (Z.of_nat k) "[1,2]") (seq 1 n)).

End Fixture.

(* ------------------------------------------------------------------ *)
(** ** visualization-pipeline/verify_db.py *)

Module VerifyDb.
Section Script.
Context {N : Numerics}.

Definition both_2d (r : row) : bool :=
  not_null (umap_x_2d r) && not_null (umap_y_2d r).

Definition all_3d (r : row) : bool :=
  not_null (umap_x_3d r) && not_null (umap_y_3d r) && not_null (umap_z_3d r).

Record report : Type := mkReport {
  total : Z;
  with_2d : Z;
  with_3d : Z;
  sampled : list row
}.

(** The three counts of [verify]. *)
Definition counts (s : store) : Z * Z * Z :=
  (count_all s,
   Z.of_nat (List.length (filter both_2d (rows s))),
   Z.of_nat (List.length (filter all_3d (rows s)))).

(** [verify]: the sample is [LIMIT 5] without an order, taken here in
    physical order; each sampled row is printed with five [:.3f] formats. *)
Definition verify (s : store) : result report :=
  if negb (has_umap_columns s) then Raise DatabaseError else
  let '(total, with_2d, with_3d) := counts s in
  let rows := firstn 5 (rows s) in
  if forallb Update03.printable rows
  then Ok (mkReport total with_2d with_3d rows)
  else Raise TypeError.

End Script.
End VerifyDb.

(* ------------------------------------------------------------------ *)
(** ** visualization-pipeline/run_pipeline.py *)

Module RunPipeline.

(** [steps] of [main]: script name and description. *)
Definition steps : list (string * string) :=
  [("01_extract_embeddings.py", "Extract embeddings from database");
   ("02_reduce_with_umap.py", "Reduce dimensions with UMAP");
   ("03_update_database.py", "Update database with coordinates");
   ("04_export_tsv.py", "Export TSV files for TensorFlow Projector")]%string.

(** What a run leaves: the exit status, the scripts started, in order,
    the counter [successful_steps], and the step reported as failed. *)
Record outcome : Type := mkOutcome {
  status : Z;
  executed : list string;
  successful_steps : nat;
  failed_step : option (nat * string)
}.

(** The loop over [enumerate(steps, 1)]; [run_script] is [True] exactly
    when the subprocess ends with status 0. *)
Fixpoint run_steps (run_script : string -> bool) (idx : nat)
    (todo : list (string * string)) (executed : list string)
    (successful_steps : nat) : outcome :=
  match todo with
  | [] => mkOutcome 0 executed successful_steps None
  | (script_path, description) :: rest =>
      if run_script script_path
      then run_steps run_script (S idx) rest (executed ++ [script_path])
             (S successful_steps)
      else mkOutcome 1 (executed ++ [script_path]) successful_steps
             (Some (idx, description))
  end.

(** [main]: every script must exist before the first one is started. *)
Definition main (script_exists run_script : string -> bool) : outcome :=
  if forallb (fun st => script_exists (fst st)) steps
  then run_steps run_script 1 steps [] 0
  else mkOutcome 1 [] 0 None.

End RunPipeline.

(* ------------------------------------------------------------------ *)
(** ** visualization-pipeline/verify_setup.py *)

Module VerifySetup.

(** What the checks look at. *)
Record environment : Type := mkEnv {
  script_exists : string -> bool;
  env_file_exists : bool;
  DATABASE_URL : option string;    (* [os.getenv] once the file is loaded *)
  connects : nat -> bool;          (* the n-th [asyncpg.connect] succeeds *)
  table_exists : bool;
  embedding_count : result Z       (* the COUNT query, or what it raises *)
}.

(** How [main] ends. *)
Inductive ending : Type :=
| AllChecksPassed           (* summary printed, status 0 *)
| SomeChecksFailed          (* summary printed, [sys.exit(1)] *)
| UnboundLocalError.        (* [database_url] read before assignment *)

Definition required_scripts : list string :=
  ["01_extract_embeddings.py"; "02_reduce_with_umap.py";
   "03_update_database.py"; "04_export_tsv.py"; "run_pipeline.py"]%string.

(** Python truth of [os.getenv(...)]: [None] and the empty string are
    false. *)
Definition truthy (v : option string) : bool :=
  match v with
  | Some (String _ _) => true
  | _ => false
  end.

Definition check_database_connection (env : environment) (attempt : nat)
  : bool :=
  connects env attempt.

Definition check_embeddings_exist (env : environment) (attempt : nat)
  : bool :=
  if connects env attempt then
    if table_exists env then
      match embedding_count env with
      | Ok count => negb (count =? 0)
      | Raise _ => false
      end
    else false
  else false.

(** [main]; [database_url] is assigned only when the environment file
    exists. *)
Definition main (env : environment) : ending :=
  let all_checks_passed :=
    forallb (script_exists env) required_scripts in
  if negb (env_file_exists env) then UnboundLocalError
  else
    let database_url := DATABASE_URL env in
    let all_checks_passed := all_checks_passed && truthy database_url in
    let all_checks_passed :=
      if truthy database_url then
        let success := check_database_connection env 0 in
        if success
        then all_checks_passed && check_embeddings_exist env 1
        else false
      else all_checks_passed in
    if all_checks_passed then AllChecksPassed else SomeChecksFailed.

End VerifySetup.

(* ------------------------------------------------------------------ *)
(** ** visualization-pipeline/00_discover_database.py *)

Module Discover.
Section Script.
Context {N : Numerics}.

(** [GROUP BY key]: the groups in order of first appearance, each with
    its rows. *)
Fixpoint add_to_group {K : Type} (eqb : K -> K -> bool) (k : K) (r : row)
    (groups : list (K * list row)) : list (K * list row) :=
  match groups with
  | [] => [(k, [r])]
  | (k', rs) :: rest =>
      if eqb k k' then (k', rs ++ [r]) :: rest
      else (k', rs) :: add_to_group eqb k r rest
  end.

Definition group_by {K : Type} (eqb : K -> K -> bool) (key : row -> K)
    (l : list row) : list (K * list row) :=
  fold_left (fun groups r => add_to_group eqb (key r) r groups) l [].

Definition count_where (p : row -> bool) (l : list row) : Z :=
  Z.of_nat (List.length (filter p l)).

Definition source_eqb (a b : string * string) : bool :=
  String.eqb (fst a) (fst b) && String.eqb (snd a) (snd b).

Definition source_of (r : row) : string * string :=
  (source_table r, source_column r).

Definition embedded (r : row) : bool := not_null (embedding_small r).

(** The three WHERE clauses of the data type identification. *)
Definition is_attribute_label (r : row) : bool :=
  String.eqb (source_table r) "config_position"
  && String.eqb (source_column r) "attribute_label"
  && embedded r.

Definition is_description (r : row) : bool :=
  String.eqb (source_column r) "description" && embedded r.

Definition is_other (r : row) : bool :=
  embedded r
  && negb (String.eqb (source_table r) "config_position"
           && String.eqb (source_column r) "attribute_label")
  && negb (String.eqb (source_column r) "description").

(** A row of the breakdown by source. *)
Record breakdown : Type := mkBreakdown {
  b_source_table : string;
  b_source_column : string;
  b_count : Z;
  b_with_embedding : Z;
  b_with_umap : Z
}.

(** What [discover_database_state] prints. *)
Record discovery : Type := mkDiscovery {
  total_rows : Z;
  embeddings_small : Z;
  embeddings_large : Z;
  has_umap_2d : Z;
  has_umap_3d : Z;
  by_source : list breakdown;
  attr_count : Z;
  desc_rows : list (string * Z);
  total_desc : Z;
  other_rows : list (string * string * Z);
  attr_samples : list row;
  desc_samples : list row;
  total_to_process : Z;
  need_umap : Z
}.

(** Python's [sum] over the counts. *)
Definition sum (l : list Z) : Z := fold_right Z.add 0 l.

Definition discover_database_state (s : store) : result discovery :=
  if negb (has_column "umap_x_2d" s && has_column "umap_x_3d" s)
  then Raise DatabaseError else
  let by_source :=
    order_by (fun a b => b_count b <=? b_count a)
      (map (fun g =>
              mkBreakdown (fst (fst g)) (snd (fst g))
                (Z.of_nat (List.length (snd g)))
                (count_where embedded (snd g))
                (count_where (fun r => not_null (umap_x_2d r)) (snd g)))
         (group_by source_eqb source_of (rows s))) in
  let attr_count := count_where is_attribute_label (rows s) in
  let desc_rows :=
    order_by (fun a b => snd b <=? snd a)
      (map (fun g => (fst g, Z.of_nat (List.length (snd g))))
         (group_by String.eqb source_table
            (filter is_description (rows s)))) in
  let total_desc := sum (map snd desc_rows) in
  let other_rows :=
    order_by (fun a b => snd b <=? snd a)
      (map (fun g => (fst (fst g), snd (fst g),
                      Z.of_nat (List.length (snd g))))
         (group_by source_eqb source_of (filter is_other (rows s)))) in
  let attr_samples :=
    firstn 5 (order_by (fun a b => usage_count b <=? usage_count a)
                (filter is_attribute_label (rows s))) in
  let desc_samples :=
    firstn 5 (order_by (fun a b => usage_count b <=? usage_count a)
                (filter is_description (rows s))) in
  let total_to_process := count_where embedded (rows s) in
  let need_umap :=
    count_where (fun r => embedded r && is_null (umap_x_2d r)) (rows s) in
  Ok (mkDiscovery (count_all s) (count_not_null embedding_small s)
        (count_not_null embedding_large s) (count_not_null umap_x_2d s)
        (count_not_null umap_x_3d s) by_source attr_count desc_rows
        total_desc other_rows attr_samples desc_samples total_to_process
        need_umap).

End Script.
End Discover.

(* ================================================================== *)
(** * Properties *)

(** ** Results and loops *)

Lemma rmap_ok_inv :
  forall {A B} (f : A -> result B) l ys,
    rmap f l = Ok ys -> Forall2 (fun x y => f x = Ok y) l ys.
Proof.
  intros A B f; induction l as [|x l IH]; simpl; intros ys H.
  - inversion H; constructor.
  - destruct (f x) eqn:Hx; try discriminate.
    destruct (rmap f l) eqn:Hl; try discriminate.
    inversion H; subst; constructor; auto.
Qed.

Lemma rmap_all_ok :
  forall {A B} (f : A -> result B) l,
    (forall x, In x l -> is_ok (f x) = true) ->
    exists ys, rmap f l = Ok ys.
Proof.
  intros A B f; induction l as [|x l IH]; simpl; intros H.
  - eexists; reflexivity.
  - assert (Hx := H x (or_introl eq_refl)).
    destruct (f x) eqn:E; simpl in Hx; try discriminate.
    destruct IH as [ys Hys]; [intros; apply H; auto|].
    rewrite Hys; eexists; reflexivity.
Qed.

Lemma rmap_some_raise :
  forall {A B} (f : A -> result B) l x,
    In x l -> is_ok (f x) = false -> exists e, rmap f l = Raise e.
Proof.
  intros A B f; induction l as [|y l IH]; simpl; intros x Hin Hx.
  - contradiction.
  - destruct (f y) eqn:Ey.
    + destruct Hin as [->|Hin].
      * rewrite Ey in Hx; discriminate.
      * destruct (IH x Hin Hx) as [e He]; rewrite He; eauto.
    + eauto.
Qed.

Lemma rmap_length :
  forall {A B} (f : A -> result B) l ys,
    rmap f l = Ok ys -> List.length ys = List.length l.
Proof.
  intros A B f l ys H; apply rmap_ok_inv in H.
  symmetry; eapply Forall2_length; eauto.
Qed.

(** ** ORDER BY *)

Section OrderBy.
Variable A : Type.
Variable le : A -> A -> bool.

Lemma insert_by_perm : forall x l, Permutation (insert_by le x l) (x :: l).
Proof.
  intros x; induction l as [|y l IH]; simpl.
  - apply Permutation_refl.
  - destruct (le x y).
    + apply Permutation_refl.
    + eapply perm_trans; [apply perm_skip, IH | apply perm_swap].
Qed.

Lemma order_by_perm : forall l, Permutation (order_by le l) l.
Proof.
  induction l as [|x l IH]; simpl.
  - constructor.
  - eapply perm_trans; [apply insert_by_perm | apply perm_skip, IH].
Qed.

Lemma order_by_nil_iff : forall l, order_by le l = [] <-> l = [].
Proof.
  intros l; split; intros H.
  - apply Permutation_nil. rewrite <- H. apply order_by_perm.
  - subst; reflexivity.
Qed.

Hypothesis le_total : forall a b, le a b = true \/ le b a = true.

Let lt_rel (a b : A) : Prop := le a b = true.

Lemma insert_by_sorted :
  forall x l, Sorted lt_rel l -> Sorted lt_rel (insert_by le x l).
Proof.
  intros x; induction l as [|y l IH]; simpl; intros Hs.
  - repeat constructor.
  - destruct (le x y) eqn:E.
    + constructor; [assumption | constructor; exact E].
    + inversion Hs as [|? ? Hs' Hd]; subst.
      constructor; [apply IH; assumption|].
      destruct l as [|z l]; simpl.
      * constructor. destruct (le_total x y) as [H|H]; [congruence | exact H].
      * destruct (le x z).
        -- constructor. destruct (le_total x y) as [H|H]; [congruence | exact H].
        -- inversion Hd; subst; constructor; assumption.
Qed.

Lemma order_by_sorted : forall l, Sorted lt_rel (order_by le l).
Proof.
  induction l as [|x l IH]; simpl.
  - constructor.
  - apply insert_by_sorted; exact IH.
Qed.

End OrderBy.

Lemma sorted_keys_ascending :
  forall {A} (key : A -> Z) l,
    Sorted (fun a b => (key a <=? key b) = true) l ->
    StronglySorted Z.le (map key l).
Proof.
  intros A key l Hs.
  apply Sorted_StronglySorted in Hs.
  - induction Hs as [|a l Hs IH Hall]; simpl; constructor; auto.
    rewrite Forall_forall in *. intros k Hk.
    apply in_map_iff in Hk as (b & <- & Hb).
    apply Z.leb_le; auto.
  - intros a b c Hab Hbc. apply Z.leb_le in Hab, Hbc. apply Z.leb_le. lia.
Qed.

Lemma NoDup_map_injective_on :
  forall {A B} (f : A -> B) l a b,
    NoDup (map f l) -> In a l -> In b l -> f a = f b -> a = b.
Proof.
  intros A B f; induction l as [|x l IH]; simpl; intros a b Hnd Ha Hb Hf.
  - contradiction.
  - inversion Hnd as [|? ? Hnotin Hnd']; subst.
    destruct Ha as [->|Ha], Hb as [->|Hb]; auto.
    + exfalso; apply Hnotin. rewrite Hf. apply in_map; assumption.
    + exfalso; apply Hnotin. rewrite <- Hf. apply in_map; assumption.
Qed.

(* ------------------------------------------------------------------ *)
(** ** The pending-row query of populate-umap-coordinates.py *)

Section PendingQuery.
Context {N : Numerics}.

Let pending (r : row) : bool := is_null (umap_x_2d r).
Let key (t : Z * string * option string) : Z := fst (fst t).

Lemma select_pending_ok :
  forall s, has_column "umap_x_2d" s = true ->
    Populate.select_pending s =
    Ok (order_by (fun a b => key a <=? key b)
          (map (fun r => (id r, value r, embedding_small r))
               (filter pending (rows s)))).
Proof.
  intros s H; unfold Populate.select_pending; rewrite H; reflexivity.
Qed.

Lemma select_pending_ids :
  forall s rs, Populate.select_pending s = Ok rs ->
    Permutation (map key rs) (map id (filter pending (rows s)))
    /\ StronglySorted Z.le (map key rs).
Proof.
  intros s rs H; unfold Populate.select_pending in H.
  destruct (has_column "umap_x_2d" s); [|discriminate].
  inversion H; subst; clear H; split.
  - eapply perm_trans; [apply Permutation_map, order_by_perm|].
    rewrite map_map; simpl. apply Permutation_refl.
  - apply sorted_keys_ascending with (key := key).
    apply order_by_sorted. intros a b.
    destruct (Z.le_ge_cases (fst (fst a)) (fst (fst b)));
      [left | right]; apply Z.leb_le; assumption.
Qed.

End PendingQuery.

(** C2 (as the code has it).  [fetch_embeddings] of
    populate-umap-coordinates.py returns exactly the records whose
    [umap_x_2d] is NULL, in ascending order of [id]: a record whose 2D x
    coordinate is absent is returned whatever its 3D state, and a record
    whose 2D x coordinate is present is not returned even when its 3D
    coordinates are absent. *)
Theorem fetch_embeddings_returns_null_x_2d_rows :
  forall (N : Numerics) (conn : connection),
    has_column "umap_x_2d" (working conn) = true ->
    exists rs,
      Populate.select_pending (working conn) = Ok rs
      /\ StronglySorted Z.le (map (fun t => fst (fst t)) rs)
      /\ Permutation (map (fun t => fst (fst t)) rs)
           (map id (filter (fun r => is_null (umap_x_2d r))
                      (rows (working conn))))
      /\ (forall r, In r (rows (working conn)) -> umap_x_2d r = None ->
            In (id r) (map (fun t => fst (fst t)) rs))
      /\ (NoDup (map id (rows (working conn))) ->
          forall r, In r (rows (working conn)) -> umap_x_2d r <> None ->
            ~ In (id r) (map (fun t => fst (fst t)) rs))
      /\ (rs = [] -> Populate.fetch_embeddings conn = (Ok ([], [], []), conn))
      /\ (rs <> [] -> forall m, ndarray_of_cells (map snd rs) = Some m ->
            Populate.fetch_embeddings conn
            = (Ok (map (fun t => fst (fst t)) rs,
                   map (fun t => snd (fst t)) rs, m), conn)).
Proof.
  intros N conn Hcol.
  destruct (Populate.select_pending (working conn)) as [rs|e] eqn:Hsel.
  2:{ rewrite select_pending_ok in Hsel by assumption; discriminate. }
  exists rs. destruct (select_pending_ids _ Hsel) as [Hperm Hsort].
  split; [reflexivity|]. split; [exact Hsort|]. split; [exact Hperm|].
  split; [|split; [|split]].
  - intros r Hin Hnull.
    eapply Permutation_in; [apply Permutation_sym, Hperm|].
    apply in_map, filter_In; split; [assumption|]. rewrite Hnull; reflexivity.
  - intros Hnd r Hin Hpresent Hid.
    eapply Permutation_in in Hid; [|exact Hperm].
    apply in_map_iff in Hid as (r' & Hidr & Hr').
    apply filter_In in Hr' as [Hin' Hnull'].
    assert (r' = r) by (eapply NoDup_map_injective_on; eauto).
    subst r'. destruct (umap_x_2d r); [discriminate | congruence].
  - intros ->. unfold Populate.fetch_embeddings, bind, query.
    rewrite Hsel; reflexivity.
  - intros Hne m Hm. unfold Populate.fetch_embeddings, bind, query.
    rewrite Hsel. destruct rs as [|t rs']; [congruence|].
    unfold lift, of_option. rewrite Hm. reflexivity.
Qed.

(** The hypothesis of the statement above holds on a table with one
    half-done row and one fresh row, and the query then returns the fresh
    one. *)
Lemma fetch_embeddings_returns_null_x_2d_rows_witness :
  let conn := connect (Fixture.table [Fixture.half_done 1;
                                      Fixture.fresh 2 "[3,4]"]) in
  has_column "umap_x_2d" (working conn) = true
  /\ exists rs, Populate.select_pending (working conn) = Ok rs.
Proof.
  intros conn; split; [reflexivity|].
  destruct (fetch_embeddings_returns_null_x_2d_rows conn eq_refl)
    as (rs & Hrs & _).
  exists rs; exact Hrs.
Defined.

(** C2 as written fails: a record with its 2D pair present and its 3D
    triple absent is in a partial coordinate state, yet the pending-row
    query does not return it. *)
Lemma partial_record_is_not_fetched :
  let r := Fixture.half_done 1 in
  let conn := connect (Fixture.table [r; Fixture.fresh 2 "[3,4]"]) in
  In r (rows (working conn))
  /\ partial r = true
  /\ Populate.fetch_embeddings conn
     = (Ok ([2], ["label"%string], [[3; 4]]), conn)
  /\ ~ In (id r) [2].
Proof.
  intros r conn. split; [left; reflexivity|]. split; [reflexivity|].
  split; [reflexivity|].
  intros [H|[]]; discriminate H.
Qed.

(* ------------------------------------------------------------------ *)
(** ** Verification statistics *)

Lemma count_all_zero :
  forall {N : Numerics} (s : store), count_all s = 0 <-> rows s = [].
Proof.
  intros N s; unfold count_all; split; intros H.
  - destruct (rows s); [reflexivity | simpl in H; lia].
  - rewrite H; reflexivity.
Qed.

Lemma true_div_raises :
  forall a b e, Populate.true_div a b = Raise e ->
    e = ZeroDivisionError /\ b = 0.
Proof.
  unfold Populate.true_div; intros a b e H.
  destruct (Z.eqb_spec b 0); [inversion H; auto | discriminate].
Qed.

Lemma fmt_ranges_never_divide :
  forall {N : Numerics} (f : (row -> option float) -> result (float * float))
         cols,
    (forall c, f c <> Raise ZeroDivisionError) ->
    rmap f cols <> Raise ZeroDivisionError.
Proof.
  intros N f; induction cols as [|c cols IH]; simpl; intros Hf.
  - discriminate.
  - assert (Hc := Hf c). destruct (f c); [|congruence].
    specialize (IH Hf). destruct (rmap f cols); [discriminate | congruence].
Qed.

(** C10.  The statistics of [verify_population] and of check_db_final.py
    divide by the total row count: on a table with the coordinate columns
    they raise ZeroDivisionError exactly when the table has no rows. *)
Theorem verification_divides_by_total :
  forall (N : Numerics) (s : store),
    has_umap_columns s = true ->
    (Populate.verify_population_on s = Raise ZeroDivisionError
     <-> count_all s = 0)
    /\ (CheckDbFinal.script s = Raise ZeroDivisionError <-> count_all s = 0).
Proof.
  intros N s Hcols.
  assert (H2 : has_column "umap_x_2d" s && has_column "umap_x_3d" s = true).
  { unfold has_umap_columns in Hcols; simpl in Hcols.
    repeat (apply andb_prop in Hcols as [? Hcols]).
    apply andb_true_intro; split; assumption. }
  split; split.
  - unfold Populate.verify_population_on. rewrite Hcols. cbn [negb].
    unfold Populate.true_div.
    destruct (Z.eqb_spec (count_all s) 0) as [E|E]; [auto|]. cbn [rbind].
    intros H; exfalso.
    match type of H with rbind (rmap ?f ?l) _ = _ =>
      pose proof (@fmt_ranges_never_divide N f l) as Hr;
      destruct (rmap f l) eqn:Hm end.
    + discriminate H.
    + cbn [rbind] in H. inversion H; subst. apply Hr; [|reflexivity].
      intros c. unfold Populate.fmt_range.
      destruct (Populate.sql_min c s), (Populate.sql_max c s); discriminate.
  - intros E. unfold Populate.verify_population_on. rewrite Hcols.
    cbn [negb]. unfold Populate.true_div. rewrite E; reflexivity.
  - unfold CheckDbFinal.script. rewrite H2. cbn [negb].
    unfold Populate.true_div.
    destruct (Z.eqb_spec (count_all s) 0) as [E|E]; [auto|]. cbn [rbind].
    rewrite Hcols. cbn [negb]. discriminate.
  - intros E. unfold CheckDbFinal.script. rewrite H2. cbn [negb].
    unfold Populate.true_div. rewrite E; reflexivity.
Qed.

(** On the empty table both computations stop at the division. *)
Lemma verification_divides_by_total_witness :
  Populate.verify_population_on (Fixture.table []) = Raise ZeroDivisionError
  /\ CheckDbFinal.script (Fixture.table []) = Raise ZeroDivisionError.
Proof.
  destruct (@verification_divides_by_total Fixture.integers
              (Fixture.table []) eq_refl) as [[_ H1] [_ H2]].
  split; [apply H1 | apply H2]; reflexivity.
Defined.

(* ------------------------------------------------------------------ *)
(** ** Sanitizing the metadata export *)

Lemma replace_chain_char :
  forall a : ascii,
    (let b := if Ascii.eqb a TAB then " "%char else a in
     let c := if Ascii.eqb b LF then " "%char else b in
     if Ascii.eqb c CR then " "%char else c)
    = if line_breaking a then " "%char else a.
Proof.
  intros a; unfold line_breaking; cbv zeta.
  destruct (Ascii.eqb_spec a TAB) as [->|Ht]; [reflexivity|].
  destruct (Ascii.eqb_spec a LF) as [->|Hl]; [reflexivity|].
  destruct (Ascii.eqb_spec a CR) as [->|Hc]; reflexivity.
Qed.

Lemma replace_chain :
  forall v, replace CR " " (replace LF " " (replace TAB " " v))
            = blank_breaks v.
Proof.
  induction v as [|a v IH]; simpl; [reflexivity|].
  rewrite IH. f_equal. apply replace_chain_char.
Qed.

Lemma blank_breaks_clean : forall v, clean (blank_breaks v) = true.
Proof.
  induction v as [|a v IH]; simpl; [reflexivity|].
  rewrite IH, andb_true_r.
  destruct (line_breaking a) eqn:E; [reflexivity | rewrite E; reflexivity].
Qed.

Lemma blank_breaks_length :
  forall v, String.length (blank_breaks v) = String.length v.
Proof. induction v; simpl; congruence. Qed.

Lemma blank_breaks_get :
  forall v n,
    String.get n (blank_breaks v)
    = option_map (fun a => if line_breaking a then " "%char else a)
        (String.get n v).
Proof.
  induction v as [|a v IH]; simpl; intros n; [reflexivity|].
  destruct n; [reflexivity | apply IH].
Qed.

Lemma occurrences_app :
  forall c s1 s2,
    occurrences c (s1 ++ s2)%string
    = (occurrences c s1 + occurrences c s2)%nat.
Proof.
  intros c; induction s1 as [|a s1 IH]; simpl; intros s2; [reflexivity|].
  rewrite IH; lia.
Qed.

Lemma clean_occurrences :
  forall c s, line_breaking c = true -> clean s = true -> occurrences c s = 0%nat.
Proof.
  intros c s Hc; induction s as [|a s IH]; simpl; intros H; [reflexivity|].
  apply andb_prop in H as [Ha Hs]. rewrite (IH Hs).
  destruct (Ascii.eqb_spec a c) as [->|]; [|reflexivity].
  rewrite Hc in Ha; discriminate.
Qed.

Lemma string_of_uint_clean :
  forall d, clean (NilEmpty.string_of_uint d) = true.
Proof. induction d; simpl; auto. Qed.

Lemma str_int_clean : forall n, clean (str_int n) = true.
Proof.
  intros n; unfold str_int, NilZero.string_of_int, NilZero.string_of_uint.
  destruct (Z.to_int n) as [d|d]; destruct d; simpl;
    try reflexivity; apply string_of_uint_clean.
Qed.

Lemma append_nonempty :
  forall s t : string, t <> EmptyString -> (s ++ t)%string <> EmptyString.
Proof. intros [|a s] t H; simpl; [exact H | discriminate]. Qed.

Lemma endswith_cons :
  forall c a t, t <> EmptyString -> endswith c (String a t) = endswith c t.
Proof. intros c a [|b t] H; [congruence | reflexivity]. Qed.

Lemma endswith_app :
  forall c s t, t <> EmptyString -> endswith c (s ++ t)%string = endswith c t.
Proof.
  intros c; induction s as [|a s IH]; intros t H; [reflexivity|].
  change (String a s ++ t)%string with (String a (s ++ t)).
  rewrite endswith_cons by (apply append_nonempty; exact H). apply IH, H.
Qed.

(** C9 (as the code has it).  In [metadata.tsv] only [value] is
    sanitized: every tab, newline and carriage return in it becomes one
    space; [source_table] and [source_column] are written as they are.  A
    record whose [source_table] and [source_column] hold no tab, newline
    or carriage return occupies exactly one line of four fields. *)
Theorem metadata_line_sanitizes_value_only :
  forall (N : Numerics) (x : UmapReduce.datum),
    UmapReduce.metadata_line x
    = (blank_breaks (UmapReduce.d_value x) ++ String TAB
         (UmapReduce.d_source_table x ++ String TAB
            (UmapReduce.d_source_column x ++ String TAB
               (str_int (UmapReduce.d_usage_count x) ++ String LF ""))))%string
    /\ clean (blank_breaks (UmapReduce.d_value x)) = true
    /\ (forall n,
          String.get n (blank_breaks (UmapReduce.d_value x))
          = option_map (fun a => if line_breaking a then " "%char else a)
              (String.get n (UmapReduce.d_value x)))
    /\ (clean (UmapReduce.d_source_table x) = true ->
        clean (UmapReduce.d_source_column x) = true ->
        occurrences LF (UmapReduce.metadata_line x) = 1%nat
        /\ occurrences CR (UmapReduce.metadata_line x) = 0%nat
        /\ occurrences TAB (UmapReduce.metadata_line x) = 3%nat
        /\ endswith LF (UmapReduce.metadata_line x) = true).
Proof.
  intros N x.
  assert (E : UmapReduce.metadata_line x
    = (blank_breaks (UmapReduce.d_value x) ++ String TAB
         (UmapReduce.d_source_table x ++ String TAB
            (UmapReduce.d_source_column x ++ String TAB
               (str_int (UmapReduce.d_usage_count x) ++ String LF ""))))%string).
  { unfold UmapReduce.metadata_line. rewrite replace_chain. reflexivity. }
  split; [exact E|]. split; [apply blank_breaks_clean|].
  split; [apply blank_breaks_get|].
  intros Ht Hc. rewrite E.
  assert (Hv := blank_breaks_clean (UmapReduce.d_value x)).
  assert (Hu := str_int_clean (UmapReduce.d_usage_count x)).
  assert (Hocc : forall c, line_breaking c = true ->
            occurrences c (blank_breaks (UmapReduce.d_value x)) = 0%nat
            /\ occurrences c (UmapReduce.d_source_table x) = 0%nat
            /\ occurrences c (UmapReduce.d_source_column x) = 0%nat
            /\ occurrences c (str_int (UmapReduce.d_usage_count x)) = 0%nat).
  { intros c Hbr; repeat split; apply clean_occurrences; assumption. }
  repeat split.
  - destruct (Hocc LF eq_refl) as (H1 & H2 & H3 & H4).
    repeat (rewrite occurrences_app; simpl). rewrite H1, H2, H3, H4.
    reflexivity.
  - destruct (Hocc CR eq_refl) as (H1 & H2 & H3 & H4).
    repeat (rewrite occurrences_app; simpl). rewrite H1, H2, H3, H4.
    reflexivity.
  - destruct (Hocc TAB eq_refl) as (H1 & H2 & H3 & H4).
    repeat (rewrite occurrences_app; simpl). rewrite H1, H2, H3, H4.
    reflexivity.
  - repeat (rewrite endswith_app by discriminate;
            rewrite endswith_cons by (apply append_nonempty; discriminate)).
    rewrite endswith_app by discriminate. reflexivity.
Qed.

(** A record whose value holds a tab and whose provenance tags are plain
    occupies one line. *)
Lemma metadata_line_sanitizes_value_only_witness :
  let x := UmapReduce.mkDatum (N := Fixture.integers) "h"
             (String "a" (String TAB "b")) [] "attribute" "label" 3 in
  clean (UmapReduce.d_source_table x) = true
  /\ clean (UmapReduce.d_source_column x) = true
  /\ occurrences LF (UmapReduce.metadata_line x) = 1%nat.
Proof.
  intros x. split; [reflexivity|]. split; [reflexivity|].
  destruct (@metadata_line_sanitizes_value_only Fixture.integers x)
    as (_ & _ & _ & H).
  destruct (H eq_refl eq_refl) as [H1 _]. exact H1.
Defined.

(** C9 as written fails: a newline inside [source_table] is exported as
    it is, and the record then spans two lines of the metadata file. *)
Lemma source_table_line_break_is_kept :
  let x := UmapReduce.mkDatum (N := Fixture.integers) "h" "v" []
             (String "t" (String LF "u")) "label" 3 in
  UmapReduce.metadata_line x
  = String "v" (String TAB (String "t" (String LF (String "u" (String TAB
      ("label" ++ String TAB (String "3" (String LF ""))))))))%string
  /\ occurrences LF (UmapReduce.metadata_line x) = 2%nat.
Proof. intros x; split; reflexivity. Qed.

(* ------------------------------------------------------------------ *)
(** ** Ensuring the coordinate columns *)

Lemma Forall2_map_right :
  forall {A B} (P : A -> B -> Prop) (g : A -> B) l,
    (forall a, In a l -> P a (g a)) -> Forall2 P l (map g l).
Proof.
  intros A B P g; induction l as [|a l IH]; intros H; simpl; constructor.
  - apply H; left; reflexivity.
  - apply IH. intros b Hb. apply H; right; exact Hb.
Qed.

Section Schema.
Context {N : Numerics}.

Lemma alter_all_spec :
  forall cols c,
    UmapReduce.alter_all cols c
    = (Ok tt, {| committed := committed c;
                 working := ensure_with cols (working c) |}).
Proof.
  induction cols as [|col cols IH]; intros [cm wk]; simpl.
  - reflexivity.
  - unfold bind, exec; simpl. rewrite IH; reflexivity.
Qed.

Lemma add_umap_columns_spec :
  forall c,
    UmapReduce.add_umap_columns c
    = (Ok tt,
       match UmapReduce.columns_to_add
               (filter (fun n => has_column n (working c)) umap_column_names)
       with
       | [] => c
       | cols => commit {| committed := committed c;
                           working := ensure_with cols (working c) |}
       end).
Proof.
  intros c. unfold UmapReduce.add_umap_columns, bind, query.
  unfold UmapReduce.existing_umap_columns.
  destruct (UmapReduce.columns_to_add _) as [|col cols]; [reflexivity|].
  rewrite alter_all_spec. reflexivity.
Qed.

Lemma payload_null_column :
  forall c r, payload (null_column c r) = payload r.
Proof. reflexivity. Qed.

Lemma payload_set_coords :
  forall x2 y2 x3 y3 z3 r, payload (set_coords x2 y2 x3 y3 z3 r) = payload r.
Proof. reflexivity. Qed.

Lemma payload_ensure_with :
  forall cols s,
    map payload (rows (ensure_with cols s)) = map payload (rows s).
Proof.
  induction cols as [|c cols IH]; intros s; simpl; [reflexivity|].
  unfold ensure_with in *; simpl. rewrite IH.
  unfold add_column_if_not_exists. destruct (has_column c s); [reflexivity|].
  simpl. rewrite map_map. apply map_ext; intros r; apply payload_null_column.
Qed.

(** The rows after [add_umap_columns] differ from those before at most
    in their coordinate cells. *)
Lemma payload_add_umap_columns :
  forall c,
    map payload (rows (working (snd (UmapReduce.add_umap_columns c))))
    = map payload (rows (working c))
    /\ committed (snd (UmapReduce.add_umap_columns c))
       = match UmapReduce.columns_to_add
                 (filter (fun n => has_column n (working c)) umap_column_names)
         with
         | [] => committed c
         | _ => working (snd (UmapReduce.add_umap_columns c))
         end.
Proof.
  intros c. rewrite add_umap_columns_spec; simpl.
  destruct (UmapReduce.columns_to_add _) as [|col cols]; [split; reflexivity|].
  simpl. split; [|reflexivity].
  apply (payload_ensure_with (col :: cols)).
Qed.

Lemma null_column_writes_nothing :
  forall c r, no_cell_written r (null_column c r).
Proof.
  intros c r. unfold no_cell_written. split; [reflexivity|]. simpl.
  repeat split; intros x; destruct (String.eqb c _); congruence.
Qed.

Lemma ensure_with_cells :
  forall cols s,
    exists g,
      rows (ensure_with cols s) = map g (rows s)
      /\ forall r, no_cell_written r (g r).
Proof.
  induction cols as [|c cols IH]; intros s.
  - exists (fun r => r). split; [symmetry; apply map_id|].
    intros r. unfold no_cell_written. repeat split; auto.
  - change (ensure_with (c :: cols) s)
      with (ensure_with cols (add_column_if_not_exists c s)).
    destruct (IH (add_column_if_not_exists c s)) as (g & Hg & Hw).
    unfold add_column_if_not_exists in Hg |- *.
    destruct (has_column c s).
    + exists g. split; [exact Hg | exact Hw].
    + exists (fun r => g (null_column c r)). split.
      * rewrite Hg. simpl. apply map_map.
      * intros r. pose proof (null_column_writes_nothing c r) as H1.
        pose proof (Hw (null_column c r)) as H2.
        unfold no_cell_written in *.
        destruct H1 as (P1 & A1 & B1 & C1 & D1 & E1).
        destruct H2 as (P2 & A2 & B2 & C2 & D2 & E2).
        split; [congruence|]. repeat split; auto.
Qed.

(** [add_umap_columns] writes no coordinate. *)
Lemma add_umap_columns_writes_nothing :
  forall s,
    Forall2 no_cell_written (rows s)
      (rows (committed (snd (UmapReduce.add_umap_columns (connect s))))).
Proof.
  intros s. rewrite add_umap_columns_spec. cbn [snd].
  destruct (UmapReduce.columns_to_add _) as [|col cols].
  - simpl. rewrite <- (map_id (rows s)) at 2. apply Forall2_map_right.
    intros r _. unfold no_cell_written. repeat split; auto.
  - cbn [commit committed working connect].
    destruct (ensure_with_cells (col :: cols) s) as (g & -> & Hw).
    apply Forall2_map_right. intros r _. apply Hw.
Qed.

Lemma like_umap_filter :
  forall c l, Update03.like_umap c = true ->
    existsb (String.eqb c) (filter Update03.like_umap l)
    = existsb (String.eqb c) l.
Proof.
  intros c l Hc; induction l as [|a l IH]; simpl; [reflexivity|].
  destruct (Update03.like_umap a) eqn:Ea; simpl; rewrite IH; [reflexivity|].
  destruct (String.eqb_spec c a) as [->|]; [congruence | reflexivity].
Qed.

Lemma has_column_add :
  forall c c' s s', add_column c s = Ok s' ->
    columns s' = columns s ++ [c]
    /\ has_column c' s' = has_column c' s || String.eqb c' c.
Proof.
  unfold add_column; intros c c' s s' H.
  destruct (has_column c s); [discriminate|]. inversion H; subst; simpl.
  split; [reflexivity|]. unfold has_column; simpl.
  rewrite existsb_app; simpl. rewrite orb_false_r; reflexivity.
Qed.

Lemma ensure_loop_spec :
  forall existing cols s,
    NoDup (map fst cols) ->
    (forall c, In c (map fst cols) ->
       existsb (String.eqb c) existing = has_column c s) ->
    exists s',
      Update03.ensure_loop existing cols s = Ok s'
      /\ columns s'
         = columns s ++ filter (fun c => negb (has_column c s)) (map fst cols).
Proof.
  intros existing; induction cols as [|[c ty] cols IH]; simpl; intros s Hnd Hex.
  - exists s; rewrite app_nil_r; auto.
  - inversion Hnd as [|? ? Hnotin Hnd']; subst.
    rewrite (Hex c (or_introl eq_refl)).
    destruct (has_column c s) eqn:Hc; simpl.
    + apply IH; auto.
    + unfold add_column at 1; rewrite Hc; simpl.
      set (s1 := {| columns := columns s ++ [c];
                    rows := map (null_column c) (rows s) |}).
      assert (Hs1 : add_column c s = Ok s1)
        by (unfold add_column; rewrite Hc; reflexivity).
      assert (Hsame : forall c', In c' (map fst cols) ->
                has_column c' s1 = has_column c' s).
      { intros c' Hin. destruct (@has_column_add c c' s s1 Hs1) as [_ ->].
        destruct (String.eqb_spec c' c) as [->|]; [contradiction|].
        apply orb_false_r. }
      destruct (IH s1 Hnd') as (s' & Hloop & Hcols).
      { intros c' Hin. rewrite Hsame by assumption. apply Hex; auto. }
      exists s'; split; [exact Hloop|]. rewrite Hcols. simpl.
      rewrite <- app_assoc; simpl. do 2 f_equal.
      apply filter_ext_in; intros c' Hin. rewrite Hsame by assumption.
      reflexivity.
Qed.

Lemma ensure_loop_noop :
  forall existing cols s,
    (forall c, In c (map fst cols) -> existsb (String.eqb c) existing = true) ->
    Update03.ensure_loop existing cols s = Ok s.
Proof.
  intros existing; induction cols as [|[c ty] cols IH]; simpl; intros s H.
  - reflexivity.
  - rewrite (H c (or_introl eq_refl)). apply IH; auto.
Qed.

(** The sibling in 03_update_database.py tests each of the five names: from
    any schema without duplicate columns it leaves each coordinate column
    exactly once, and run again it changes nothing and raises nothing. *)
Lemma ensure_umap_columns_idempotent :
  forall s, NoDup (columns s) ->
    exists s',
      Update03.ensure_umap_columns s = Ok s'
      /\ (forall c, In c umap_column_names ->
            count_occ string_dec (columns s') c = 1%nat)
      /\ NoDup (columns s')
      /\ Update03.ensure_umap_columns s' = Ok s'.
Proof.
  intros s Hnd. unfold Update03.ensure_umap_columns.
  assert (Hnames : map fst Update03.columns_to_add = umap_column_names)
    by reflexivity.
  assert (Hlike : forall c, In c umap_column_names ->
            Update03.like_umap c = true).
  { intros c Hin; simpl in Hin.
    repeat (destruct Hin as [<-|Hin]; [reflexivity|]). contradiction. }
  assert (Hndn : NoDup umap_column_names).
  { unfold umap_column_names.
    repeat (apply NoDup_cons; [simpl; intuition discriminate|]).
    apply NoDup_nil. }
  destruct (@ensure_loop_spec (filter Update03.like_umap (columns s))
              Update03.columns_to_add s) as (s' & Hrun & Hcols).
  { rewrite Hnames; exact Hndn. }
  { intros c Hin. rewrite Hnames in Hin.
    rewrite like_umap_filter by auto. reflexivity. }
  rewrite Hnames in Hcols.
  assert (Hin' : forall c, In c umap_column_names -> has_column c s' = true).
  { intros c Hin. unfold has_column. rewrite Hcols, existsb_app.
    destruct (existsb (String.eqb c) (columns s)) eqn:E; [reflexivity|].
    rewrite orb_false_l.
    apply existsb_exists. exists c; split; [|apply String.eqb_refl].
    apply filter_In; split; [assumption|]. unfold has_column; rewrite E.
    reflexivity. }
  assert (Hnd' : NoDup (columns s')).
  { rewrite Hcols. apply NoDup_app; [assumption| |].
    - apply NoDup_filter, Hndn.
    - intros c Hc Hf. apply filter_In in Hf as [_ Hf].
      unfold has_column in Hf.
      assert (existsb (String.eqb c) (columns s) = true).
      { apply existsb_exists; exists c; split; [assumption|].
        apply String.eqb_refl. }
      rewrite H in Hf; discriminate. }
  exists s'; split; [exact Hrun|]. split; [|split; [exact Hnd'|]].
  - intros c Hin.
    assert (Hle := proj1 (NoDup_count_occ string_dec (columns s')) Hnd' c).
    assert (Hpos : (count_occ string_dec (columns s') c > 0)%nat).
    { apply count_occ_In. specialize (Hin' c Hin). unfold has_column in Hin'.
      apply existsb_exists in Hin' as (x & Hx & Heq).
      apply String.eqb_eq in Heq; subst; assumption. }
    lia.
  - apply ensure_loop_noop. rewrite Hnames. intros c Hin.
    rewrite like_umap_filter by auto. apply Hin', Hin.
Qed.

End Schema.

(** C5 (the code at the failing input).  From a table that has
    [umap_x_2d] but not [umap_y_2d], [add_umap_columns] of umap-reduce.py
    run twice raises nothing and never creates [umap_y_2d]: it tests one
    name of each group only. *)
Theorem add_umap_columns_never_adds_umap_y_2d :
  forall (N : Numerics) (rs : list row),
    let s := {| columns := ["umap_x_2d"%string]; rows := rs |} in
    let first := UmapReduce.add_umap_columns (connect s) in
    let second := UmapReduce.add_umap_columns (snd first) in
    fst first = Ok tt
    /\ fst second = Ok tt
    /\ columns (committed (snd second))
       = ["umap_x_2d"; "umap_x_3d"; "umap_y_3d"; "umap_z_3d"]%string
    /\ count_occ string_dec (columns (committed (snd second)))
         "umap_y_2d"%string = 0%nat.
Proof.
  intros N rs s first second.
  repeat split; reflexivity.
Qed.

(* ------------------------------------------------------------------ *)
(** ** Extraction: empty and malformed inputs *)

Lemma rmap_raise_inv :
  forall {A B} (f : A -> result B) l e,
    rmap f l = Raise e -> exists x, In x l /\ f x = Raise e.
Proof.
  intros A B f; induction l as [|x l IH]; simpl; intros e H.
  - discriminate.
  - destruct (f x) eqn:Hx.
    + destruct (rmap f l) eqn:Hl; [discriminate|].
      inversion H; subst. destruct (IH e eq_refl) as (y & Hy & Hfy).
      exists y; auto.
    + inversion H; subst. exists x; auto.
Qed.

Lemma filter_none :
  forall {A} (f : A -> bool) l,
    (forall x, In x l -> f x = false) -> filter f l = [].
Proof.
  intros A f; induction l as [|x l IH]; simpl; intros H; [reflexivity|].
  rewrite (H x (or_introl eq_refl)). apply IH; auto.
Qed.

Lemma flat_map_through :
  forall {A B C} (p : A -> B) (g : B -> list C) l1 l2,
    map p l1 = map p l2 ->
    flat_map (fun a => g (p a)) l1 = flat_map (fun a => g (p a)) l2.
Proof.
  intros A B C p g; induction l1 as [|a l1 IH]; intros [|b l2] H;
    simpl in *; try discriminate; [reflexivity|].
  inversion H as [[Hab Hrest]]. rewrite Hab, (IH l2 Hrest). reflexivity.
Qed.

Section Extraction.
Context {N : Numerics}.

(** What the query of umap-reduce.py selects depends on the payload of
    the rows only. *)
Lemma select_embeddings_payload :
  forall s1 s2,
    map payload (rows s1) = map payload (rows s2) ->
    UmapReduce.select_embeddings s1 = UmapReduce.select_embeddings s2.
Proof.
  intros s1 s2 H. unfold UmapReduce.select_embeddings. do 2 f_equal.
  apply (flat_map_through payload
           (fun p => let '(_, v, h, e, _, st, sc, u, _) := p in
                     match e with
                     | Some e => [(h, v, e, st, sc, u)]
                     | None => []
                     end) _ _ H).
Qed.

Lemma select_embeddings_none :
  forall s, (forall r, In r (rows s) -> embedding_small r = None) ->
    UmapReduce.select_embeddings s = Ok []
    /\ Extract01.select_embeddings 1536 s = [].
Proof.
  intros s H.
  unfold UmapReduce.select_embeddings, Extract01.select_embeddings.
  assert (E : forall {C} (g : row -> string -> C),
             flat_map (fun r => match embedding_small r with
                                | Some e => [g r e]
                                | None => []
                                end) (rows s) = []).
  { intros C g. induction (rows s) as [|r l IH]; simpl; [reflexivity|].
    rewrite (H r (or_introl eq_refl)). apply IH. intros; apply H; right; auto. }
  split.
  - rewrite (E _ (fun r e => (value_hash r, value r, e, source_table r,
                              source_column r, usage_count r))).
    reflexivity.
  - change (Extract01.embedding_col 1536) with (embedding_small (N := N)).
    rewrite (E _ (fun r e => Extract01.mkFetched (id r) (value r)
                               (value_hash r) e (source_table r)
                               (source_column r) (usage_count r)
                               (created_at r))).
    reflexivity.
Qed.

Lemma parse_vector_raises :
  forall v e, Extract01.parse_vector v = Raise e -> e = ValueError.
Proof.
  unfold Extract01.parse_vector; intros v e H.
  apply rmap_raise_inv in H as (x & _ & Hx).
  destruct (float_of_string x); simpl in Hx; congruence.
Qed.

Lemma parse_row_raises :
  forall t e, UmapReduce.parse_row t = Raise e -> e = ValueError.
Proof.
  intros [[[[[h v] emb] st] sc] u] e; unfold UmapReduce.parse_row.
  unfold UmapReduce.parse_embedding.
  destruct (startswith "[" emb && endswith "]" emb).
  - destruct (json_loads emb); simpl; congruence.
  - destruct (rmap _ _) eqn:Hr; simpl; [congruence|].
    intros H; inversion H; subst.
    apply rmap_raise_inv in Hr as (x & _ & Hx).
    destruct (float_of_string x); simpl in Hx; congruence.
Qed.

(** The run of umap-reduce.py up to and including [fetch_embeddings]. *)
Lemma steps_until_fetch :
  forall env s e c,
    UmapReduce.fetch_embeddings (snd (UmapReduce.add_umap_columns (connect s)))
    = (Raise e, c) ->
    UmapReduce.steps env (connect s) = (Raise e, c).
Proof.
  intros env s e c H. unfold UmapReduce.steps, bind at 1.
  pose proof (add_umap_columns_spec (connect s)) as Hspec.
  destruct (UmapReduce.add_umap_columns (connect s)) as [r c1].
  injection Hspec as Hr _; subst r. cbn [snd] in H.
  unfold bind at 1. rewrite H. reflexivity.
Qed.

Lemma fetch_embeddings_after_columns :
  forall s,
    UmapReduce.fetch_embeddings (snd (UmapReduce.add_umap_columns (connect s)))
    = (match UmapReduce.select_embeddings s with
       | Ok [] => Raise (SystemExit 1)
       | Ok rows => rmap UmapReduce.parse_row rows
       | Raise e => Raise e
       end, snd (UmapReduce.add_umap_columns (connect s))).
Proof.
  intros s. unfold UmapReduce.fetch_embeddings, bind, query.
  rewrite (@select_embeddings_payload
             (working (snd (UmapReduce.add_umap_columns (connect s)))) s)
    by apply payload_add_umap_columns.
  destruct (UmapReduce.select_embeddings s) as [[|t ts]|e]; reflexivity.
Qed.

(** The run of umap-reduce.py up to and including [run_umap]. *)
Lemma steps_until_run_umap :
  forall env s data e c,
    UmapReduce.fetch_embeddings (snd (UmapReduce.add_umap_columns (connect s)))
    = (Ok data, c) ->
    UmapReduce.run_umap data = Raise e ->
    UmapReduce.steps env (connect s) = (Raise e, c).
Proof.
  intros env s data e c H Hrun. unfold UmapReduce.steps, bind at 1.
  pose proof (add_umap_columns_spec (connect s)) as Hspec.
  destruct (UmapReduce.add_umap_columns (connect s)) as [r c1].
  injection Hspec as Hr _; subst r. cbn [snd] in H.
  unfold bind at 1. rewrite H.
  unfold bind at 1, lift at 1. rewrite Hrun. reflexivity.
Qed.

(** [np.vstack] refuses rows of different lengths and passes on rows of
    one length. *)
Lemma vstack_uniform :
  forall vs : list (list float),
    (uniform vs = false -> UmapReduce.vstack vs = Raise ValueError)
    /\ (vs <> [] -> uniform vs = true -> UmapReduce.vstack vs = Ok vs).
Proof.
  intros [|v vs]; unfold uniform, UmapReduce.vstack.
  - split; [discriminate | congruence].
  - destruct (forallb _ (v :: vs)); split; congruence.
Qed.

End Extraction.

(** C8 (as the code has it).  When no record is pending,
    populate-umap-coordinates.py ends normally: exit status 0, the
    "already have UMAP coordinates" message, the table untouched.  When no
    record has a vector, umap-reduce.py and 01_extract_embeddings.py end as
    failures with exit status 1; the rows are untouched (umap-reduce.py has
    by then created the coordinate columns it found missing). *)
Theorem nothing_to_do_outcomes :
  forall (N : Numerics) (s : store),
    (forall fault,
        has_column "umap_x_2d" s = true ->
        (forall r, In r (rows s) -> umap_x_2d r <> None) ->
        Populate.main fault s
        = mkProcess 0 s [Populate.msg_nothing_to_do] [])
    /\ ((forall r, In r (rows s) -> embedding_small r = None) ->
        UmapReduce.main s
        = mkProcess 1
            (committed (snd (UmapReduce.add_umap_columns (connect s))))
            [UmapReduce.msg_no_embeddings] []
        /\ (has_umap_columns s = true -> database (UmapReduce.main s) = s)
        /\ Extract01.main s = Extract01.mkOutcome 1 s None).
Proof.
  intros N s; split.
  - intros fault Hcol Hdone.
    unfold Populate.main, Populate.steps, bind at 1.
    unfold Populate.fetch_embeddings, bind at 1, query.
    simpl working. rewrite select_pending_ok by assumption.
    rewrite filter_none.
    2:{ intros r Hin. specialize (Hdone r Hin).
        destruct (umap_x_2d r); [reflexivity | congruence]. }
    reflexivity.
  - intros Hnone. destruct (select_embeddings_none s Hnone) as [Hsel Hsel1].
    assert (Hmain : UmapReduce.main s
        = mkProcess 1
            (committed (snd (UmapReduce.add_umap_columns (connect s))))
            [UmapReduce.msg_no_embeddings] []).
    { unfold UmapReduce.main, UmapReduce.main_in.
      rewrite (@steps_until_fetch N UmapReduce.sound s (SystemExit 1)
                 (snd (UmapReduce.add_umap_columns (connect s)))).
      - reflexivity.
      - rewrite fetch_embeddings_after_columns, Hsel. reflexivity. }
    split; [exact Hmain|]. split.
    + intros Hcols. rewrite Hmain. simpl database.
      rewrite add_umap_columns_spec. simpl working.
      unfold has_umap_columns in Hcols. simpl in Hcols.
      repeat (apply andb_prop in Hcols as [? Hcols]).
      unfold umap_column_names; simpl filter.
      repeat match goal with H : has_column _ s = true |- _ =>
               rewrite H; clear H end.
      reflexivity.
    + unfold Extract01.main, Extract01.extract_embeddings.
      rewrite Hsel1. reflexivity.
Qed.

(** On the empty table with its coordinate columns all three hypotheses
    hold. *)
Lemma nothing_to_do_outcomes_witness :
  Populate.main (fun _ => false) (Fixture.table [])
  = mkProcess 0 (Fixture.table []) [Populate.msg_nothing_to_do] []
  /\ database (UmapReduce.main (Fixture.table [])) = Fixture.table [].
Proof.
  destruct (@nothing_to_do_outcomes Fixture.integers (Fixture.table []))
    as [Hp Hu].
  split.
  - apply Hp; [reflexivity | intros r []].
  - destruct Hu as (_ & H & _); [intros r [] | apply H; reflexivity].
Defined.

(** C8 as written fails on two of its three scripts: without any vector
    to process they exit with status 1, not with success. *)
Lemma no_embeddings_exits_with_failure :
  exit_status (UmapReduce.main (Fixture.table [])) = 1
  /\ stdout (UmapReduce.main (Fixture.table []))
     = [UmapReduce.msg_no_embeddings]
  /\ Extract01.status (Extract01.main (Fixture.table [])) = 1.
Proof. repeat split; reflexivity. Qed.

(** C4 (as the code has it).  Extraction has no per-row recovery, in
    01_extract_embeddings.py and in umap-reduce.py alike.  A stored vector
    that does not parse, or vectors of unequal lengths, raise ValueError:
    01_extract_embeddings.py saves nothing and exits with status 1;
    umap-reduce.py exits with status 1 with no file exported and no
    coordinate written (no cell of the table holds a number it did not
    hold before the run).  When every vector parses, the decoded rows
    are one per selected record, in the order of the query, and when
    their lengths agree they are the output: the saved array of
    01_extract_embeddings.py, the matrix [run_umap] stacks in
    umap-reduce.py. *)
Theorem malformed_vector_aborts_extraction :
  forall (N : Numerics) (s : store),
    let selected := Extract01.select_embeddings 1536 s in
    (forall r, In r selected ->
       is_ok (Extract01.parse_vector (Extract01.f_embedding_vector r)) = false ->
       Extract01.extract_embeddings s 1536 = Raise ValueError
       /\ Extract01.main s = Extract01.mkOutcome 1 s None)
    /\ (forall vs,
          rmap (fun r => Extract01.parse_vector
                           (Extract01.f_embedding_vector r)) selected = Ok vs ->
          selected <> [] ->
          (uniform vs = true ->
             Extract01.main s
             = Extract01.mkOutcome 0 s
                 (Some (vs, map Extract01.metadata_of selected))
             /\ List.length vs = List.length selected)
          /\ (uniform vs = false ->
                Extract01.extract_embeddings s 1536 = Raise ValueError
                /\ Extract01.main s = Extract01.mkOutcome 1 s None))
    /\ (forall ts t,
          UmapReduce.select_embeddings s = Ok ts -> In t ts ->
          is_ok (UmapReduce.parse_row t) = false ->
          fst (UmapReduce.fetch_embeddings
                 (snd (UmapReduce.add_umap_columns (connect s))))
          = Raise ValueError
          /\ UmapReduce.main s
          = mkProcess 1
              (committed (snd (UmapReduce.add_umap_columns (connect s))))
              [UmapReduce.msg_error] []
          /\ Forall2 no_cell_written (rows s)
               (rows (database (UmapReduce.main s))))
    /\ (forall ts data,
          UmapReduce.select_embeddings s = Ok ts -> ts <> [] ->
          rmap UmapReduce.parse_row ts = Ok data ->
          UmapReduce.fetch_embeddings
            (snd (UmapReduce.add_umap_columns (connect s)))
          = (Ok data, snd (UmapReduce.add_umap_columns (connect s)))
          /\ Forall2 (fun t x => UmapReduce.parse_row t = Ok x) ts data
          /\ List.length data = List.length ts
          /\ (uniform (map UmapReduce.d_embedding data) = true ->
              UmapReduce.vstack (map UmapReduce.d_embedding data)
              = Ok (map UmapReduce.d_embedding data))
          /\ (uniform (map UmapReduce.d_embedding data) = false ->
              UmapReduce.run_umap data = Raise ValueError
              /\ UmapReduce.main s
                 = mkProcess 1
                     (committed
                        (snd (UmapReduce.add_umap_columns (connect s))))
                     [UmapReduce.msg_error] []
              /\ Forall2 no_cell_written (rows s)
                   (rows (database (UmapReduce.main s))))).
Proof.
  intros N s selected. split; [|split; [|split]].
  - intros r Hin Hbad.
    assert (E : Extract01.extract_embeddings s 1536 = Raise ValueError).
    { unfold Extract01.extract_embeddings. fold selected.
      destruct selected as [|r0 rest] eqn:Hsel; [contradiction|].
      rewrite <- Hsel in *.
      destruct (rmap_some_raise
                  (fun r => Extract01.parse_vector
                              (Extract01.f_embedding_vector r))
                  selected r Hin Hbad) as [e He].
      rewrite He. cbn [rbind].
      apply rmap_raise_inv in He as (x & _ & Hx).
      apply parse_vector_raises in Hx. congruence. }
    split; [exact E|]. unfold Extract01.main. rewrite E. reflexivity.
  - intros vs Hvs Hne.
    assert (E : Extract01.extract_embeddings s 1536
                = if uniform vs
                  then Ok (vs, map Extract01.metadata_of selected)
                  else Raise ValueError).
    { unfold Extract01.extract_embeddings. fold selected.
      destruct selected as [|r0 rest] eqn:Hsel; [congruence|].
      rewrite <- Hsel in *. rewrite Hvs. cbn [rbind].
      unfold Extract01.ndarray, uniform.
      destruct vs as [|v vs']; [reflexivity|].
      destruct (forallb _ (v :: vs')); reflexivity. }
    assert (Hlen := rmap_length _ _ Hvs).
    split; intros Hu; rewrite Hu in E.
    + split; [|exact Hlen]. unfold Extract01.main. rewrite E.
      destruct vs as [|v vs']; [|reflexivity].
      destruct selected; [congruence | discriminate].
    + split; [exact E|]. unfold Extract01.main. rewrite E. reflexivity.
  - intros ts t Hsel Hin Hbad.
    assert (Hfetch : UmapReduce.fetch_embeddings
                       (snd (UmapReduce.add_umap_columns (connect s)))
                     = (Raise ValueError,
                        snd (UmapReduce.add_umap_columns (connect s)))).
    { destruct (rmap_some_raise UmapReduce.parse_row ts t Hin Hbad) as [e He].
      assert (Hv : e = ValueError).
      { apply rmap_raise_inv in He as (x & _ & Hx).
        eapply parse_row_raises; eauto. }
      subst e. rewrite fetch_embeddings_after_columns, Hsel.
      destruct ts as [|t0 ts']; [contradiction|]. rewrite He.
      reflexivity. }
    split; [rewrite Hfetch; reflexivity|].
    assert (Hmain : UmapReduce.main s
                    = mkProcess 1
                        (committed
                           (snd (UmapReduce.add_umap_columns (connect s))))
                        [UmapReduce.msg_error] []).
    { unfold UmapReduce.main, UmapReduce.main_in.
      rewrite (@steps_until_fetch N UmapReduce.sound s ValueError
                 (snd (UmapReduce.add_umap_columns (connect s))) Hfetch).
      reflexivity. }
    split; [exact Hmain|]. rewrite Hmain. cbn [database].
    apply add_umap_columns_writes_nothing.
  - intros ts data Hsel Hne Hdata.
    assert (Hfetch : UmapReduce.fetch_embeddings
                       (snd (UmapReduce.add_umap_columns (connect s)))
                     = (Ok data,
                        snd (UmapReduce.add_umap_columns (connect s)))).
    { rewrite fetch_embeddings_after_columns, Hsel.
      destruct ts as [|t0 ts']; [congruence|]. rewrite Hdata. reflexivity. }
    split; [exact Hfetch|]. split; [apply rmap_ok_inv; exact Hdata|].
    split; [apply (rmap_length _ _ Hdata)|].
    assert (Hdne : map UmapReduce.d_embedding data <> []).
    { apply rmap_length in Hdata. destruct data; [|discriminate].
      destruct ts; [congruence | discriminate]. }
    destruct (vstack_uniform (map UmapReduce.d_embedding data))
      as [Hragged Hsame].
    split; [intros Hu; apply Hsame; assumption|].
    intros Hu.
    assert (Hrun : UmapReduce.run_umap data = Raise ValueError).
    { unfold UmapReduce.run_umap. rewrite (Hragged Hu). reflexivity. }
    split; [exact Hrun|].
    assert (Hmain : UmapReduce.main s
                    = mkProcess 1
                        (committed
                           (snd (UmapReduce.add_umap_columns (connect s))))
                        [UmapReduce.msg_error] []).
    { unfold UmapReduce.main, UmapReduce.main_in.
      rewrite (@steps_until_run_umap N UmapReduce.sound s data ValueError
                 (snd (UmapReduce.add_umap_columns (connect s))) Hfetch Hrun).
      reflexivity. }
    split; [exact Hmain|]. rewrite Hmain. cbn [database].
    apply add_umap_columns_writes_nothing.
Qed.

(** The four parts on three tables: one with a truncated vector, one with
    two vectors of one length, one with vectors of two lengths. *)
Lemma malformed_vector_aborts_extraction_witness :
  let truncated :=
    Fixture.table [Fixture.fresh 1 "[1,2]"; Fixture.fresh 2 "[3,oops"] in
  let even :=
    Fixture.table [Fixture.fresh 1 "[1,2]"; Fixture.fresh 2 "[3,4]"] in
  let ragged :=
    Fixture.table [Fixture.fresh 1 "[1,2]"; Fixture.fresh 2 "[3]"] in
  (Extract01.extract_embeddings truncated 1536 = Raise ValueError
   /\ exit_status (UmapReduce.main truncated) = 1)
  /\ (Extract01.main even
      = Extract01.mkOutcome 0 even
          (Some ([[1; 2]; [3; 4]],
                 map Extract01.metadata_of
                   (Extract01.select_embeddings 1536 even)))
      /\ UmapReduce.vstack (N := Fixture.integers) [[1; 2]; [3; 4]]
         = Ok [[1; 2]; [3; 4]])
  /\ (Extract01.status (Extract01.main ragged) = 1
      /\ UmapReduce.main ragged
         = mkProcess 1 ragged [UmapReduce.msg_error] []).
Proof.
  intros truncated even ragged.
  destruct (@malformed_vector_aborts_extraction Fixture.integers truncated)
    as (T1 & _ & T3 & _).
  destruct (@malformed_vector_aborts_extraction Fixture.integers even)
    as (_ & E2 & _ & E4).
  destruct (@malformed_vector_aborts_extraction Fixture.integers ragged)
    as (_ & R2 & _ & R4).
  split; [|split].
  - split.
    + refine (proj1 (T1 (Extract01.mkFetched 2 "label" "2" "[3,oops"
                           "attribute" "attribute_label" 1 "2025-01-01")
                        _ _)).
      * right; left; reflexivity.
      * reflexivity.
    + rewrite (proj1 (proj2
                 (T3 [("1", "label", "[1,2]", "attribute", "attribute_label",
                       1);
                      ("2", "label", "[3,oops", "attribute",
                       "attribute_label", 1)]%string
                    ("2", "label", "[3,oops", "attribute", "attribute_label",
                     1)%string
                    eq_refl (or_intror (or_introl eq_refl)) eq_refl))).
      reflexivity.
  - split.
    + destruct (E2 [[1; 2]; [3; 4]] eq_refl ltac:(discriminate)) as [Hyes _].
      exact (proj1 (Hyes eq_refl)).
    + destruct (E4 [("1", "label", "[1,2]", "attribute", "attribute_label", 1);
                    ("2", "label", "[3,4]", "attribute", "attribute_label",
                     1)]%string
                  [UmapReduce.mkDatum (N := Fixture.integers) "1" "label" [1; 2] "attribute"
                     "attribute_label" 1;
                   UmapReduce.mkDatum (N := Fixture.integers) "2" "label" [3; 4] "attribute"
                     "attribute_label" 1]%string
                  eq_refl ltac:(discriminate) eq_refl)
        as (_ & _ & _ & Hyes & _).
      exact (Hyes eq_refl).
  - split.
    + destruct (R2 [[1; 2]; [3]] eq_refl ltac:(discriminate)) as [_ Hno].
      rewrite (proj2 (Hno eq_refl)). reflexivity.
    + destruct (R4 [("1", "label", "[1,2]", "attribute", "attribute_label", 1);
                    ("2", "label", "[3]", "attribute", "attribute_label",
                     1)]%string
                  [UmapReduce.mkDatum (N := Fixture.integers) "1" "label" [1; 2] "attribute"
                     "attribute_label" 1;
                   UmapReduce.mkDatum (N := Fixture.integers) "2" "label" [3] "attribute"
                     "attribute_label" 1]%string
                  eq_refl ltac:(discriminate) eq_refl)
        as (_ & _ & _ & _ & Hno).
      rewrite (proj1 (proj2 (Hno eq_refl))). reflexivity.
Defined.

(** C4 as written fails: with one truncated vector among well-formed
    ones, nothing is extracted at all, where the claim promises the
    well-formed rows and a skip count of one. *)
Lemma one_malformed_vector_loses_the_batch :
  let s := Fixture.table [Fixture.fresh 1 "[1,2]"; Fixture.fresh 2 "[3,oops"] in
  Extract01.parse_vector (N := Fixture.integers) "[1,2]" = Ok [1; 2]
  /\ Extract01.extract_embeddings s 1536 = Raise ValueError
  /\ Extract01.saved (Extract01.main s) = None
  /\ Extract01.status (Extract01.main s) = 1
  /\ exit_status (UmapReduce.main s) = 1
  /\ files (UmapReduce.main s) = [].
Proof. intros s; repeat split; reflexivity. Qed.

(* ------------------------------------------------------------------ *)
(** ** Keyed writes *)

Section Writes.
Context {N : Numerics}.

Lemma row_after_app :
  forall ws1 ws2 r, row_after (ws1 ++ ws2) r = row_after ws2 (row_after ws1 r).
Proof. intros; unfold row_after; apply fold_left_app. Qed.

Lemma store_after_nil : forall s, store_after [] s = s.
Proof.
  intros [cols rs]; unfold store_after; simpl. f_equal. apply map_id.
Qed.

Lemma store_after_app :
  forall ws1 ws2 s,
    store_after ws2 (store_after ws1 s) = store_after (ws1 ++ ws2) s.
Proof.
  intros ws1 ws2 s; unfold store_after; simpl. f_equal.
  rewrite map_map. apply map_ext; intros r. symmetry; apply row_after_app.
Qed.

Lemma store_after_columns :
  forall ws s, has_umap_columns (store_after ws s) = has_umap_columns s.
Proof. reflexivity. Qed.

Lemma run_write_spec :
  forall w s,
    run_write w s
    = if has_umap_columns s then Ok (store_after [w] s)
      else Raise DatabaseError.
Proof.
  intros w s; unfold run_write, update_where.
  destruct (has_umap_columns s); reflexivity.
Qed.

(** A loop of statements, each a prepared keyed write. *)
Section ExecEach.
Variable X : Type.
Variable prep : X -> result write.
Variable stmt : X -> store -> result store.
Hypothesis stmt_prep :
  forall x s, stmt x s = rbind (prep x) (fun w => run_write w s).

Lemma exec_each_ok :
  forall xs ws c,
    rmap prep xs = Ok ws ->
    has_umap_columns (working c) = true ->
    exec_each stmt xs c
    = (Ok tt, {| committed := committed c;
                 working := store_after ws (working c) |}).
Proof.
  induction xs as [|x xs IH]; simpl; intros ws [cm wk] Hws Hcols.
  - inversion Hws; subst. unfold ret. rewrite store_after_nil. reflexivity.
  - destruct (prep x) as [w|] eqn:Hx; [|discriminate].
    destruct (rmap prep xs) as [ws'|] eqn:Hxs; [|discriminate].
    inversion Hws; subst. simpl in Hcols.
    unfold bind, exec; simpl. rewrite stmt_prep, Hx; cbn [rbind].
    rewrite run_write_spec, Hcols.
    rewrite (IH ws') by (auto using store_after_columns).
    simpl. rewrite store_after_app. reflexivity.
Qed.

Lemma exec_each_inv :
  forall xs c c',
    exec_each stmt xs c = (Ok tt, c') ->
    exists ws,
      rmap prep xs = Ok ws
      /\ c' = {| committed := committed c;
                 working := store_after ws (working c) |}
      /\ (xs <> [] -> has_umap_columns (working c) = true).
Proof.
  induction xs as [|x xs IH]; simpl; intros [cm wk] c' H.
  - exists []. unfold ret in H. inversion H; subst.
    rewrite store_after_nil. repeat split. congruence.
  - unfold bind, exec in H; simpl in H.
    rewrite stmt_prep in H.
    destruct (prep x) as [w|] eqn:Hx; cbn [rbind] in H; [|discriminate].
    rewrite run_write_spec in H.
    destruct (has_umap_columns wk) eqn:Hcols; [|discriminate].
    apply IH in H as (ws & Hws & Hc' & _). simpl in Hc'.
    exists (w :: ws). rewrite Hws. split; [reflexivity|].
    split; [|intros _; exact Hcols].
    rewrite Hc', store_after_app. reflexivity.
Qed.

Lemma exec_each_committed :
  forall xs c, committed (snd (exec_each stmt xs c)) = committed c.
Proof.
  induction xs as [|x xs IH]; simpl; intros [cm wk]; [reflexivity|].
  unfold bind, exec; simpl.
  destruct (stmt x wk); [rewrite IH|]; reflexivity.
Qed.

End ExecEach.

Lemma update_query_prep :
  forall t s,
    Populate.update_query t s
    = rbind (Ok (write_by_id t)) (fun w => run_write w s).
Proof. intros [[[[[x2 y2] x3] y3] z3] k] s; reflexivity. Qed.

Lemma update_one_prep :
  forall p s,
    UmapReduce.update_one p s
    = rbind (write_of_point p) (fun w => run_write w s).
Proof.
  intros p s; unfold UmapReduce.update_one, write_of_point.
  repeat match goal with
         | |- context [UmapReduce.idx ?v ?k] =>
             destruct (UmapReduce.idx v k); cbn [rbind]; [|reflexivity]
         end.
  reflexivity.
Qed.

Lemma rmap_pure :
  forall {A B} (f : A -> B) l, rmap (fun x => Ok (f x)) l = Ok (map f l).
Proof.
  intros A B f; induction l as [|x l IH]; simpl; [|rewrite IH]; reflexivity.
Qed.

Lemma rmap_app :
  forall {A B} (f : A -> result B) l1 l2,
    rmap f (l1 ++ l2)
    = rbind (rmap f l1) (fun ys1 =>
      rbind (rmap f l2) (fun ys2 => Ok (ys1 ++ ys2))).
Proof.
  intros A B f; induction l1 as [|x l1 IH]; intros l2; simpl.
  - destruct (rmap f l2); reflexivity.
  - destruct (f x); [|reflexivity]. rewrite IH.
    destruct (rmap f l1); simpl; [|reflexivity].
    destruct (rmap f l2); reflexivity.
Qed.

End Writes.

(* ------------------------------------------------------------------ *)
(** ** The batch loop of populate-umap-coordinates.py *)

Lemma chunks_cover_from :
  forall n q k0,
    flat_map (chunk n) (map (fun k => (k * 100)%nat) (seq k0 q))
    = seq (k0 * 100) (Nat.min ((k0 + q) * 100) n - k0 * 100).
Proof.
  intros n; induction q as [|q IH]; intros k0.
  - cbn [seq map flat_map].
    replace (Nat.min ((k0 + 0) * 100) n - k0 * 100)%nat with 0%nat by lia.
    reflexivity.
  - cbn [seq map flat_map]. rewrite IH. unfold chunk.
    change Populate.BATCH_SIZE with 100%nat.
    destruct (Nat.le_gt_cases ((k0 + 1) * 100) n) as [Hle|Hgt].
    + replace (Nat.min (k0 * 100 + 100) n - k0 * 100)%nat with 100%nat by lia.
      replace (Nat.min ((k0 + S q) * 100) n - k0 * 100)%nat
        with (100 + (Nat.min ((S k0 + q) * 100) n - S k0 * 100))%nat by lia.
      rewrite seq_app. do 2 f_equal. lia.
    + replace (Nat.min ((S k0 + q) * 100) n - S k0 * 100)%nat with 0%nat by lia.
      cbn [seq]. rewrite app_nil_r. f_equal. lia.
Qed.

Lemma range_step_batches :
  forall n,
    range_step n Populate.BATCH_SIZE
    = map (fun k => (k * 100)%nat) (seq 0 ((n + 99) / 100)).
Proof.
  intros n. unfold range_step. change Populate.BATCH_SIZE with 100%nat.
  replace (n + 100 - 1)%nat with (n + 99)%nat by lia. reflexivity.
Qed.

Lemma batches_enough : forall n, (n <= (n + 99) / 100 * 100)%nat.
Proof.
  intros n. pose proof (Nat.div_mod_eq (n + 99) 100) as H.
  pose proof (Nat.mod_upper_bound (n + 99) 100) as Hm. lia.
Qed.

Lemma chunks_cover :
  forall n, flat_map (chunk n) (range_step n Populate.BATCH_SIZE) = seq 0 n.
Proof.
  intros n. rewrite range_step_batches, chunks_cover_from.
  pose proof (batches_enough n). f_equal; lia.
Qed.

Lemma firstn_seq :
  forall j a q, firstn j (seq a q) = seq a (Nat.min j q).
Proof.
  induction j as [|j IH]; intros a [|q]; simpl; try reflexivity.
  rewrite IH; reflexivity.
Qed.

Lemma chunks_cover_firstn :
  forall n j,
    flat_map (chunk n) (firstn j (range_step n Populate.BATCH_SIZE))
    = seq 0 (Nat.min (j * 100) n).
Proof.
  intros n j. rewrite range_step_batches, firstn_map, firstn_seq.
  rewrite chunks_cover_from. pose proof (batches_enough n).
  change (0 * 100)%nat with 0%nat. f_equal.
  destruct (Nat.min_spec j ((n + 99) / 100)) as [[_ ->]|[Hle ->]]; [lia|].
  assert (((n + 99) / 100) * 100 <= j * 100)%nat by nia. lia.
Qed.

Lemma range_step_length :
  forall n,
    List.length (range_step n Populate.BATCH_SIZE) = ((n + 99) / 100)%nat.
Proof.
  intros n. rewrite range_step_batches. rewrite length_map, length_seq.
  reflexivity.
Qed.

Section BatchLoop.
Context {N : Numerics}.
Variable fault : nat -> bool.
Variable ids : list Z.
Variables coords_2d coords_3d : list (list float).

Let bt := Populate.batch_tuple ids coords_2d coords_3d.
Let after (ts : list (float * float * float * float * float * Z)) (s : store)
  := store_after (map write_by_id ts) s.

Lemma update_batch_spec :
  forall fails i c ts,
    rmap bt (chunk (List.length ids) i) = Ok ts ->
    has_umap_columns (working c) = true ->
    Populate.update_batch fails ids coords_2d coords_3d i c
    = if fails
      then (Raise DatabaseError,
            {| committed := committed c; working := after ts (working c) |})
      else (Ok (List.length ts),
            {| committed := after ts (working c);
               working := after ts (working c) |}).
Proof.
  intros fails i c ts Hts Hcols.
  unfold Populate.update_batch, bind at 1, lift.
  unfold chunk, bt in Hts. rewrite Hts.
  unfold bind at 1, Populate.executemany.
  rewrite (exec_each_ok (fun t => Ok (write_by_id t)) Populate.update_query
             update_query_prep ts (ws := map write_by_id ts))
    by (auto using rmap_pure).
  unfold bind, do_commit, ret, commit. destruct fails; reflexivity.
Qed.

Lemma update_batch_inv :
  forall fails i c n c',
    Populate.update_batch fails ids coords_2d coords_3d i c = (Ok n, c') ->
    exists ts,
      rmap bt (chunk (List.length ids) i) = Ok ts
      /\ n = List.length ts
      /\ c' = {| committed := after ts (working c);
                 working := after ts (working c) |}
      /\ (ts <> [] -> has_umap_columns (working c) = true).
Proof.
  intros fails i c n c' H.
  unfold Populate.update_batch, bind at 1, lift in H.
  fold (chunk (List.length ids) i) in H. fold bt in H.
  destruct (rmap bt (chunk (List.length ids) i)) as [ts|] eqn:Hts;
    [|discriminate].
  exists ts. split; [reflexivity|].
  unfold bind at 1, Populate.executemany in H.
  destruct (exec_each Populate.update_query ts c) as [[[]|e] c1] eqn:Hex;
    [|discriminate].
  apply (exec_each_inv (fun t => Ok (write_by_id t)) Populate.update_query
           update_query_prep) in Hex as (ws & Hws & Hc1 & Hcols).
  rewrite rmap_pure in Hws. inversion Hws; subst ws.
  unfold bind, do_commit, ret, commit in H.
  destruct fails; [discriminate|]. inversion H; subst. simpl.
  repeat split. exact Hcols.
Qed.

Lemma update_loop_inv :
  forall starts k total c n c',
    Populate.update_loop fault ids coords_2d coords_3d starts k total c
    = (Ok n, c') ->
    exists ts,
      rmap bt (flat_map (chunk (List.length ids)) starts) = Ok ts
      /\ n = (total + List.length ts)%nat
      /\ working c' = after ts (working c)
      /\ (starts <> [] -> committed c' = working c')
      /\ (starts = [] -> c' = c)
      /\ (ts <> [] -> has_umap_columns (working c) = true).
Proof.
  induction starts as [|i rest IH]; intros k total c n c' H.
  - simpl in H. unfold ret in H. inversion H; subst.
    exists []. unfold after; simpl. rewrite store_after_nil.
    repeat split; try congruence. lia.
  - cbn [Populate.update_loop] in H. unfold bind at 1 in H.
    destruct (Populate.update_batch (fault k) ids coords_2d coords_3d i c)
      as [[m|e] c1] eqn:Hb; [|discriminate].
    apply update_batch_inv in Hb as (ts1 & Hts1 & -> & -> & Hcols1).
    apply IH in H as (ts2 & Hts2 & -> & Hw & Hcw & Hnil & Hcols2).
    exists (ts1 ++ ts2). cbn [flat_map]. rewrite rmap_app, Hts1, Hts2.
    cbn [rbind]. split; [reflexivity|]. rewrite length_app.
    split; [lia|]. simpl in Hw. split.
    { rewrite Hw. unfold after. rewrite store_after_app, map_app.
      reflexivity. }
    split.
    { intros _. destruct rest as [|i' rest'].
      - rewrite (Hnil eq_refl). reflexivity.
      - apply Hcw. discriminate. }
    split; [discriminate|].
    intros Hne. destruct ts1 as [|t ts1'].
    + simpl in Hne. apply Hcols2 in Hne. exact Hne.
    + apply Hcols1. discriminate.
Qed.

Lemma update_loop_fault :
  forall starts k total c ts j,
    has_umap_columns (working c) = true ->
    committed c = working c ->
    rmap bt (flat_map (chunk (List.length ids)) starts) = Ok ts ->
    (j < List.length starts)%nat ->
    fault (k + j)%nat = true ->
    (forall j', (j' < j)%nat -> fault (k + j')%nat = false) ->
    exists c' tsj,
      Populate.update_loop fault ids coords_2d coords_3d starts k total c
      = (Raise DatabaseError, c')
      /\ rmap bt (flat_map (chunk (List.length ids)) (firstn j starts))
         = Ok tsj
      /\ committed c' = after tsj (working c).
Proof.
  induction starts as [|i rest IH];
    intros k total c ts j Hcols Hcw Hts Hj Hfault Hbefore.
  - simpl in Hj; lia.
  - cbn [flat_map] in Hts. rewrite rmap_app in Hts.
    destruct (rmap bt (chunk (List.length ids) i)) as [ts1|] eqn:Hts1;
      [|discriminate].
    destruct (rmap bt (flat_map (chunk (List.length ids)) rest))
      as [ts2|] eqn:Hts2; [|discriminate].
    cbn [Populate.update_loop]. unfold bind at 1.
    rewrite (update_batch_spec _ _ _ Hts1 Hcols).
    destruct j as [|j].
    + rewrite Nat.add_0_r in Hfault. rewrite Hfault.
      eexists; exists []. split; [reflexivity|]. split; [reflexivity|].
      simpl. unfold after; simpl. rewrite store_after_nil. exact Hcw.
    + assert (Hk : fault k = false).
      { rewrite <- (Hbefore 0%nat) by lia. f_equal; lia. }
      rewrite Hk.
      destruct (IH (S k) (total + List.length ts1)%nat
                  {| committed := after ts1 (working c);
                     working := after ts1 (working c) |} ts2 j)
        as (c' & tsj & Hrun & Htsj & Hcom); simpl; auto.
      * simpl in Hj; lia.
      * rewrite <- Hfault. f_equal; lia.
      * intros j' Hj'. rewrite <- (Hbefore (S j')) by lia. f_equal; lia.
      * exists c', (ts1 ++ tsj). split; [exact Hrun|].
        cbn [firstn flat_map]. rewrite rmap_app, Hts1, Htsj. cbn [rbind].
        split; [reflexivity|]. rewrite Hcom. simpl. unfold after.
        rewrite store_after_app, map_app. reflexivity.
Qed.

End BatchLoop.

(* ------------------------------------------------------------------ *)
(** ** What a sequence of writes does to one row *)

Section RowFacts.
Context {N : Numerics}.

Lemma apply_write_payload : forall w r, payload (apply_write w r) = payload r.
Proof. intros w r; unfold apply_write; destruct (matches w r); reflexivity. Qed.

Lemma row_after_payload : forall ws r, payload (row_after ws r) = payload r.
Proof.
  induction ws as [|w ws IH]; intros r; [reflexivity|].
  change (row_after (w :: ws) r) with (row_after ws (apply_write w r)).
  rewrite IH. apply apply_write_payload.
Qed.

Lemma row_after_no_match :
  forall ws r, (forall w, In w ws -> matches w r = false) -> row_after ws r = r.
Proof.
  induction ws as [|w ws IH]; intros r H; [reflexivity|].
  change (row_after (w :: ws) r) with (row_after ws (apply_write w r)).
  unfold apply_write. rewrite (H w (or_introl eq_refl)).
  apply IH. intros w' Hw'. apply H; right; exact Hw'.
Qed.

Lemma row_after_complete :
  forall ws r, complete r = true -> complete (row_after ws r) = true.
Proof.
  induction ws as [|w ws IH]; intros r H; [exact H|].
  change (row_after (w :: ws) r) with (row_after ws (apply_write w r)).
  apply IH. unfold apply_write. destruct (matches w r); [reflexivity | exact H].
Qed.

Lemma row_after_some_match :
  forall ws w r,
    In w ws -> matches w r = true -> complete (row_after ws r) = true.
Proof.
  induction ws as [|w0 ws IH]; intros w r Hin Hm; [contradiction|].
  change (row_after (w0 :: ws) r) with (row_after ws (apply_write w0 r)).
  unfold apply_write. destruct (matches w0 r) eqn:E.
  - apply row_after_complete. reflexivity.
  - destruct Hin as [->|Hin]; [congruence|]. eapply IH; eauto.
Qed.

Lemma row_after_cases :
  forall ws r, row_after ws r = r \/ complete (row_after ws r) = true.
Proof.
  induction ws as [|w ws IH]; intros r; [left; reflexivity|].
  change (row_after (w :: ws) r) with (row_after ws (apply_write w r)).
  unfold apply_write. destruct (matches w r).
  - right. apply row_after_complete. reflexivity.
  - apply IH.
Qed.

Lemma row_after_keeps_x_2d :
  forall ws r, umap_x_2d r <> None -> umap_x_2d (row_after ws r) <> None.
Proof.
  intros ws r H. destruct (row_after_cases ws r) as [->|Hc]; [exact H|].
  unfold complete in Hc. destruct (umap_x_2d (row_after ws r));
    [discriminate | discriminate Hc].
Qed.

Lemma row_after_unique_match :
  forall ws j w r,
    Forall key_stable ws ->
    nth_error ws j = Some w ->
    matches w r = true ->
    (forall j' w', nth_error ws j' = Some w' -> j' <> j ->
       matches w' r = false) ->
    row_after ws r = set_coords (w_x2 w) (w_y2 w) (w_x3 w) (w_y3 w) (w_z3 w) r.
Proof.
  induction ws as [|w0 ws IH]; intros j w r Hst Hnth Hm Hothers.
  - destruct j; discriminate.
  - inversion Hst as [|? ? Hst0 Hst']; subst.
    change (row_after (w0 :: ws) r) with (row_after ws (apply_write w0 r)).
    destruct j as [|j]; simpl in Hnth.
    + inversion Hnth; subst w0. unfold apply_write. rewrite Hm.
      apply row_after_no_match. intros w' Hw'.
      apply In_nth_error in Hw' as [j' Hj'].
      rewrite Forall_forall in Hst'.
      rewrite (Hst' w' (nth_error_In _ _ Hj')).
      apply (Hothers (S j') w'); [exact Hj' | discriminate].
    + unfold apply_write.
      rewrite (Hothers 0%nat w0 eq_refl) by discriminate.
      apply (IH j); auto.
      intros j' w' Hj' Hne. apply (Hothers (S j') w'); [exact Hj' | congruence].
Qed.

Lemma row_after_last_match :
  forall ws r acc,
    Forall key_stable ws ->
    row_after ws (coords_of acc r) = coords_of (last_match ws r acc) r.
Proof.
  induction ws as [|w ws IH]; intros r acc Hst; [reflexivity|].
  inversion Hst as [|? ? Hw Hst']; subst.
  change (row_after (w :: ws) (coords_of acc r))
    with (row_after ws (apply_write w (coords_of acc r))).
  change (last_match (w :: ws) r acc)
    with (last_match ws r (if matches w r then Some w else acc)).
  rewrite <- (IH r _ Hst'). f_equal.
  unfold apply_write.
  assert (E : matches w (coords_of acc r) = matches w r).
  { destruct acc; simpl; [apply Hw | reflexivity]. }
  rewrite E. destruct (matches w r); [|reflexivity].
  destruct acc; reflexivity.
Qed.

Lemma last_match_acc :
  forall ws r acc,
    last_match ws r acc
    = match last_match ws r None with
      | Some w => Some w
      | None => acc
      end.
Proof.
  induction ws as [|w ws IH]; intros r acc; [reflexivity|].
  change (last_match (w :: ws) r acc)
    with (last_match ws r (if matches w r then Some w else acc)).
  change (last_match (w :: ws) r None)
    with (last_match ws r (if matches w r then Some w else None)).
  rewrite (IH r (if matches w r then Some w else acc)).
  rewrite (IH r (if matches w r then Some w else None)).
  destruct (last_match ws r None); [reflexivity|].
  destruct (matches w r); reflexivity.
Qed.

(** Sending the same keyed writes a second time changes nothing. *)
Lemma row_after_idempotent :
  forall ws r,
    Forall key_stable ws -> row_after ws (row_after ws r) = row_after ws r.
Proof.
  intros ws r Hst.
  assert (E := row_after_last_match r None Hst). simpl in E.
  rewrite E. rewrite (row_after_last_match r _ Hst).
  rewrite last_match_acc. destruct (last_match ws r None); reflexivity.
Qed.

Lemma store_after_idempotent :
  forall ws s,
    Forall key_stable ws -> store_after ws (store_after ws s) = store_after ws s.
Proof.
  intros ws s Hst. unfold store_after; simpl. f_equal.
  rewrite map_map. apply map_ext. intros r.
  apply row_after_idempotent, Hst.
Qed.

Lemma key_stable_by_id : forall t, key_stable (write_by_id t).
Proof. intros [[[[[x2 y2] x3] y3] z3] k]; intros ? ? ? ? ? r; reflexivity. Qed.

Lemma write_of_point_inv :
  forall p w,
    write_of_point p = Ok w ->
    key_stable w
    /\ matches w
       = (fun r => String.eqb (value_hash r)
                     (UmapReduce.d_value_hash (UmapReduce.d p))).
Proof.
  intros p w; unfold write_of_point.
  repeat match goal with
         | |- context [UmapReduce.idx ?v ?k] =>
             destruct (UmapReduce.idx v k); cbn [rbind]; [|discriminate]
         end.
  intros H; inversion H; subst; split; [|reflexivity].
  intros ? ? ? ? ? r; reflexivity.
Qed.

Lemma attempt_inv :
  forall fault c2 c3 idx k w,
    attempt fault c2 c3 idx k = Ok w ->
    fault idx = false
    /\ key_stable w
    /\ matches w = (fun r => id r =? k)
    /\ at2 c2 idx 0 = Ok (w_x2 w) /\ at2 c2 idx 1 = Ok (w_y2 w)
    /\ at2 c3 idx 0 = Ok (w_x3 w) /\ at2 c3 idx 1 = Ok (w_y3 w)
    /\ at2 c3 idx 2 = Ok (w_z3 w).
Proof.
  intros fault c2 c3 idx k w; unfold attempt.
  repeat match goal with
         | |- context [at2 ?m ?j ?c] =>
             destruct (at2 m j c); cbn [rbind]; [|discriminate]
         end.
  destruct (fault idx); [discriminate|].
  intros H; inversion H; subst; simpl. repeat split.
Qed.

Lemma batch_tuple_inv :
  forall ids c2 c3 j t,
    Populate.batch_tuple ids c2 c3 j = Ok t ->
    exists x2 y2 x3 y3 z3 k,
      t = (x2, y2, x3, y3, z3, k)
      /\ at2 c2 j 0 = Ok x2 /\ at2 c2 j 1 = Ok y2
      /\ at2 c3 j 0 = Ok x3 /\ at2 c3 j 1 = Ok y3 /\ at2 c3 j 2 = Ok z3
      /\ nth_error ids j = Some k.
Proof.
  intros ids c2 c3 j t; unfold Populate.batch_tuple.
  repeat match goal with
         | |- context [at2 ?m ?i ?c] =>
             destruct (at2 m i c); cbn [rbind]; [|discriminate]
         end.
  destruct (nth_error ids j); simpl; [|discriminate].
  intros H; inversion H; subst. repeat eexists.
Qed.

Lemma rmap_seq_nth :
  forall {B} (f : nat -> result B) m a ts j,
    rmap f (seq a m) = Ok ts -> (j < m)%nat ->
    exists t, nth_error ts j = Some t /\ f (a + j)%nat = Ok t.
Proof.
  intros B f; induction m as [|m IH]; intros a ts j H Hj; [lia|].
  simpl in H. destruct (f a) as [t0|] eqn:Ha; [|discriminate].
  destruct (rmap f (seq (S a) m)) as [ts'|] eqn:Hr; [|discriminate].
  inversion H; subst. destruct j as [|j].
  - exists t0; rewrite Nat.add_0_r; auto.
  - destruct (IH (S a) ts' j Hr) as (t & Ht & Hf); [lia|].
    exists t; split; [exact Ht|]. rewrite <- Hf. f_equal; lia.
Qed.

Lemma rmap_nth_inv :
  forall {A B} (f : A -> result B) l ts j t,
    rmap f l = Ok ts -> nth_error ts j = Some t ->
    exists x, nth_error l j = Some x /\ f x = Ok t.
Proof.
  intros A B f; induction l as [|x l IH]; intros ts j t H Hj; simpl in H.
  - inversion H; subst. destruct j; discriminate.
  - destruct (f x) as [y|] eqn:Hx; [|discriminate].
    destruct (rmap f l) as [ys|] eqn:Hl; [|discriminate].
    inversion H; subst. destruct j as [|j]; simpl in Hj.
    + inversion Hj; subst. exists x; auto.
    + destruct (IH ys j t eq_refl Hj) as (x' & Hx' & Hf). exists x'; auto.
Qed.

Lemma rmap_firstn :
  forall {A B} (f : A -> result B) l ts m,
    rmap f l = Ok ts -> rmap f (firstn m l) = Ok (firstn m ts).
Proof.
  intros A B f; induction l as [|x l IH]; intros ts m H; simpl in H.
  - inversion H; subst. destruct m; reflexivity.
  - destruct (f x) as [y|] eqn:Hx; [|discriminate].
    destruct (rmap f l) as [ys|] eqn:Hl; [|discriminate].
    inversion H; subst. destruct m as [|m]; simpl; [reflexivity|].
    rewrite Hx, (IH ys m eq_refl). reflexivity.
Qed.

End RowFacts.

(* ------------------------------------------------------------------ *)
(** ** The writers as sequences of keyed writes *)

Lemma Forall2_in_right :
  forall {A B} (R : A -> B -> Prop) l1 l2 b,
    Forall2 R l1 l2 -> In b l2 -> exists a, In a l1 /\ R a b.
Proof.
  intros A B R l1 l2 b HF; induction HF as [|x y l1 l2 Hxy HF IH];
    intros Hin; [contradiction|].
  destruct Hin as [<-|Hin].
  - exists x; split; [left; reflexivity | exact Hxy].
  - destruct (IH Hin) as (a & Ha & HR). exists a; split; [right|]; auto.
Qed.

Section Writers.
Context {N : Numerics}.
Variable fault : nat -> bool.
Variables coords_2d coords_3d : list (list float).

Lemma update_umap_coordinates_inv :
  forall ids c n c',
    Populate.update_umap_coordinates fault ids coords_2d coords_3d c
    = (Ok n, c') ->
    exists ts,
      rmap (Populate.batch_tuple ids coords_2d coords_3d)
        (seq 0 (List.length ids)) = Ok ts
      /\ n = List.length ids
      /\ working c' = store_after (map write_by_id ts) (working c)
      /\ (ids <> [] ->
          committed c' = working c' /\ has_umap_columns (working c) = true)
      /\ (ids = [] -> c' = c).
Proof.
  intros ids c n c' H. unfold Populate.update_umap_coordinates in H.
  apply update_loop_inv in H as (ts & Hts & Hn & Hw & Hcw & Hnil & Hcols).
  rewrite chunks_cover in Hts. exists ts.
  assert (Hlen : List.length ts = List.length ids).
  { rewrite (rmap_length _ _ Hts). apply length_seq. }
  split; [exact Hts|]. split; [lia|]. split; [exact Hw|]. split.
  - intros Hne.
    assert (Hpos : (0 < List.length ids)%nat).
    { destruct ids; [congruence | simpl; lia]. }
    split.
    + apply Hcw. intros Hs.
      pose proof (range_step_length (List.length ids)) as Hl.
      rewrite Hs in Hl. cbn [List.length] in Hl.
      pose proof (batches_enough (List.length ids)) as Hb.
      rewrite <- Hl in Hb. lia.
    + apply Hcols. destruct ts; [simpl in Hlen; lia | discriminate].
  - intros ->. apply Hnil. reflexivity.
Qed.

Lemma update_umap_coordinates_fault :
  forall ids s ts k,
    has_umap_columns s = true ->
    rmap (Populate.batch_tuple ids coords_2d coords_3d)
      (seq 0 (List.length ids)) = Ok ts ->
    (k < (List.length ids + 99) / 100)%nat ->
    fault k = true ->
    (forall j, (j < k)%nat -> fault j = false) ->
    exists c',
      Populate.update_umap_coordinates fault ids coords_2d coords_3d (connect s)
      = (Raise DatabaseError, c')
      /\ committed c'
         = store_after (map write_by_id (firstn (k * 100) ts)) s.
Proof.
  intros ids s ts k Hcols Hts Hk Hfault Hbefore.
  unfold Populate.update_umap_coordinates.
  destruct (@update_loop_fault N fault ids coords_2d coords_3d
              (range_step (List.length ids) Populate.BATCH_SIZE) 0 0
              (connect s) ts k) as (c' & tsj & Hrun & Htsj & Hcom); auto.
  - rewrite chunks_cover. exact Hts.
  - rewrite range_step_length. exact Hk.
  - exists c'. split; [exact Hrun|]. rewrite Hcom. simpl.
    rewrite chunks_cover_firstn in Htsj.
    rewrite <- firstn_seq in Htsj.
    rewrite (rmap_firstn _ _ (k * 100) Hts) in Htsj.
    inversion Htsj; subst. reflexivity.
Qed.

Lemma tuple_keys_from :
  forall ids m a ts,
    rmap (Populate.batch_tuple ids coords_2d coords_3d) (seq a m) = Ok ts ->
    (a + m = List.length ids)%nat ->
    Forall2 (fun k w => key_stable w /\ matches w = (fun r => id r =? k))
      (skipn a ids) (map write_by_id ts).
Proof.
  intros ids; induction m as [|m IH]; intros a ts H Ha; simpl in H.
  - inversion H; subst. rewrite skipn_all2 by lia. constructor.
  - destruct (Populate.batch_tuple ids coords_2d coords_3d a) as [t|] eqn:Ht;
      [|discriminate].
    destruct (rmap _ (seq (S a) m)) as [ts'|] eqn:Hr; [|discriminate].
    inversion H; subst.
    apply batch_tuple_inv in Ht
      as (x2 & y2 & x3 & y3 & z3 & k & -> & _ & _ & _ & _ & _ & Hk).
    assert (Hskip : skipn a ids = k :: skipn (S a) ids).
    { clear - Hk. revert a Hk. induction ids as [|k0 ids IH]; intros [|a] Hk;
        simpl in *; try discriminate.
      - inversion Hk; reflexivity.
      - apply IH, Hk. }
    rewrite Hskip. cbn [map]. constructor.
    + split; [|reflexivity]. intros ? ? ? ? ? r; reflexivity.
    + apply IH; [exact Hr | lia].
Qed.

Lemma keyed_rows :
  forall keys ws,
    Forall2 (fun k w => key_stable w /\ matches w = (fun r => id r =? k))
      keys ws ->
    NoDup keys ->
    forall k w r0,
      In (k, w) (combine keys ws) -> id r0 = k ->
      row_after ws r0
      = set_coords (w_x2 w) (w_y2 w) (w_x3 w) (w_y3 w) (w_z3 w) r0.
Proof.
  intros keys ws HF; induction HF as [|k0 w0 keys ws [Hst Hm] HF IH];
    intros Hnd k w r0 Hin Hid; [contradiction|].
  inversion Hnd as [|? ? Hnotin Hnd']; subst.
  change (row_after (w0 :: ws) r0) with (row_after ws (apply_write w0 r0)).
  unfold apply_write. rewrite Hm. simpl in Hin. destruct Hin as [Heq|Hin].
  - inversion Heq; subst. rewrite Z.eqb_refl.
    apply row_after_no_match. intros w' Hw'.
    destruct (@Forall2_in_right _ _ _ _ _ w' HF Hw')
      as (k' & Hk' & _ & Hm').
    rewrite Hm'. simpl. apply Z.eqb_neq. intros E. apply Hnotin.
    rewrite E. exact Hk'.
  - assert (id r0 <> k0).
    { intros E. apply Hnotin. rewrite <- E. eapply in_combine_l; eauto. }
    replace (id r0 =? k0) with false
      by (symmetry; apply Z.eqb_neq; congruence).
    eapply IH; eauto.
Qed.

Lemma try_update_attempt :
  forall idx k s,
    Update03.try_update (fault idx) coords_2d coords_3d idx k s
    = rbind (attempt fault coords_2d coords_3d idx k)
        (fun w => run_write w s).
Proof.
  intros idx k s. unfold Update03.try_update, attempt.
  repeat match goal with
         | |- context [at2 ?m ?j ?c] =>
             destruct (at2 m j c); cbn [rbind]; [|reflexivity]
         end.
  destruct (fault idx); reflexivity.
Qed.

Lemma update03_loop_spec :
  forall ids idx s t,
    has_umap_columns s = true ->
    Update03.update_loop fault coords_2d coords_3d idx ids s t
    = (store_after (written fault coords_2d coords_3d idx ids) s,
       Update03.mkTally
         (Update03.updated t
          + List.length (written fault coords_2d coords_3d idx ids))
         (Update03.failed t
          + List.length (rejected fault coords_2d coords_3d idx ids))
         (Update03.warned t ++ rejected fault coords_2d coords_3d idx ids)).
Proof.
  induction ids as [|k ids IH]; intros idx s [u f wn] Hcols.
  - simpl. rewrite store_after_nil, app_nil_r, !Nat.add_0_r. reflexivity.
  - cbn [Update03.update_loop written rejected].
    rewrite try_update_attempt.
    destruct (attempt fault coords_2d coords_3d idx k) as [w|e]; cbn [rbind].
    + rewrite run_write_spec, Hcols.
      rewrite IH by (rewrite store_after_columns; exact Hcols).
      rewrite store_after_app. simpl. do 2 f_equal. lia.
    + rewrite IH by exact Hcols. simpl. rewrite <- app_assoc. simpl.
      do 2 f_equal. lia.
Qed.

Lemma written_keys :
  forall ids idx w,
    In w (written fault coords_2d coords_3d idx ids) ->
    exists k, In k ids /\ key_stable w /\ matches w = (fun r => id r =? k).
Proof.
  induction ids as [|k0 ids IH]; intros idx w Hin; [contradiction|].
  cbn [written] in Hin.
  destruct (attempt fault coords_2d coords_3d idx k0) as [w0|e] eqn:Ha.
  - destruct Hin as [<-|Hin].
    + apply attempt_inv in Ha as (_ & Hst & Hm & _).
      exists k0; split; [left; reflexivity | auto].
    + destruct (IH _ _ Hin) as (k & Hk & H). exists k; split; [right|]; auto.
  - destruct (IH _ _ Hin) as (k & Hk & H). exists k; split; [right|]; auto.
Qed.

Lemma written_row :
  forall ids idx i k w r0,
    NoDup ids ->
    nth_error ids i = Some k ->
    attempt fault coords_2d coords_3d (idx + i) k = Ok w ->
    id r0 = k ->
    row_after (written fault coords_2d coords_3d idx ids) r0
    = set_coords (w_x2 w) (w_y2 w) (w_x3 w) (w_y3 w) (w_z3 w) r0.
Proof.
  induction ids as [|k0 ids IH]; intros idx i k w r0 Hnd Hnth Ha Hid.
  - destruct i; discriminate.
  - apply NoDup_cons_iff in Hnd as [Hnotin Hnd']. cbn [written].
    destruct i as [|i]; simpl in Hnth.
    + inversion Hnth; subst k0. rewrite Nat.add_0_r in Ha. rewrite Ha.
      change (row_after (w :: ?ws) r0) with (row_after ws (apply_write w r0)).
      apply attempt_inv in Ha as (_ & Hst & Hm & _).
      unfold apply_write. rewrite Hm. cbn beta. rewrite Hid, Z.eqb_refl.
      apply row_after_no_match. intros w' Hw'.
      apply written_keys in Hw' as (k' & Hk' & _ & Hm').
      rewrite Hm'. simpl. apply Z.eqb_neq. intros E. apply Hnotin.
      rewrite <- Hid, E. exact Hk'.
    + assert (Hne : id r0 <> k0).
      { intros E. apply Hnotin. rewrite <- E, Hid.
        eapply nth_error_In; eauto. }
      replace (idx + S i)%nat with (S idx + i)%nat in Ha by lia.
      destruct (attempt fault coords_2d coords_3d idx k0) as [w0|e] eqn:Ha0.
      * change (row_after (w0 :: ?ws) r0)
          with (row_after ws (apply_write w0 r0)).
        apply attempt_inv in Ha0 as (_ & _ & Hm0 & _).
        unfold apply_write. rewrite Hm0.
        replace (id r0 =? k0) with false
          by (symmetry; apply Z.eqb_neq; exact Hne).
        eapply IH; eauto.
      * eapply IH; eauto.
Qed.

Lemma written_rejected_length :
  forall ids idx,
    (List.length (written fault coords_2d coords_3d idx ids)
     + List.length (rejected fault coords_2d coords_3d idx ids)
     = List.length ids)%nat.
Proof.
  induction ids as [|k ids IH]; intros idx; [reflexivity|].
  cbn [written rejected].
  destruct (attempt fault coords_2d coords_3d idx k); simpl;
    specialize (IH (S idx)); lia.
Qed.

Lemma attach_spec :
  forall data i ps,
    UmapReduce.attach i coords_2d coords_3d data = Ok ps ->
    List.length ps = List.length data
    /\ map UmapReduce.d ps = data
    /\ forall j x, nth_error data j = Some x ->
         exists r2 r3,
           nth_error coords_2d (i + j) = Some r2
           /\ nth_error coords_3d (i + j) = Some r3
           /\ nth_error ps j = Some (UmapReduce.mkPoint x r2 r3).
Proof.
  induction data as [|x data IH]; intros i ps H; simpl in H.
  - inversion H; subst. repeat split. intros [|j] y Hy; discriminate.
  - destruct (nth_error coords_2d i) as [r2|] eqn:H2; [|discriminate].
    destruct (nth_error coords_3d i) as [r3|] eqn:H3; [|discriminate].
    simpl in H.
    destruct (UmapReduce.attach (S i) coords_2d coords_3d data)
      as [ps'|] eqn:Hrest; [|discriminate].
    simpl in H. inversion H; subst.
    destruct (IH _ _ Hrest) as (Hlen & Hd & Hnth).
    split; [simpl; congruence|]. split; [simpl; congruence|].
    intros [|j] y Hy; simpl in Hy.
    + inversion Hy; subst. exists r2, r3. rewrite Nat.add_0_r. auto.
    + destruct (Hnth j y Hy) as (q2 & q3 & Hq2 & Hq3 & Hp).
      exists q2, q3. replace (i + S j)%nat with (S i + j)%nat by lia. auto.
Qed.

End Writers.

(* ------------------------------------------------------------------ *)
(** ** Alignment of ids and coordinate rows *)

Lemma nth_error_combine_in :
  forall {A B} (l1 : list A) (l2 : list B) i a b,
    nth_error l1 i = Some a -> nth_error l2 i = Some b ->
    In (a, b) (combine l1 l2).
Proof.
  intros A B; induction l1 as [|x l1 IH]; intros l2 i a b H1 H2.
  - destruct i; discriminate.
  - destruct l2 as [|y l2]; [destruct i; discriminate|].
    destruct i as [|i]; simpl in *.
    + inversion H1; inversion H2; subst. left; reflexivity.
    + right. eapply IH; eauto.
Qed.

Lemma row_after_id :
  forall {N : Numerics} ws (r : row), id (row_after ws r) = id r.
Proof.
  intros N ws r. pose proof (row_after_payload ws r) as P.
  unfold payload in P. congruence.
Qed.

Lemma store_after_ids :
  forall {N : Numerics} ws (s : store),
    map id (rows (store_after ws s)) = map id (rows s).
Proof.
  intros N ws s. simpl. rewrite map_map. apply map_ext. intros r.
  apply row_after_id.
Qed.

Lemma vstack_ok :
  forall {N : Numerics} vs e, UmapReduce.vstack vs = Ok e -> e = vs /\ vs <> [].
Proof.
  intros N [|v vs] e H; simpl in H; [discriminate|].
  destruct (_ && _) in H; inversion H; subst. split; [reflexivity|discriminate].
Qed.

Section AlignmentForward.
Context {N : Numerics}.
Variable ids : list Z.
Variables coords_2d coords_3d : list (list float).

(** Row [i] of both matrices exists and is long enough, for every index
    of the id list. *)
Let rows_present : Prop :=
  forall i, (i < List.length ids)%nat ->
    exists r2 r3,
      nth_error coords_2d i = Some r2 /\ nth_error coords_3d i = Some r3
      /\ (2 <= List.length r2)%nat /\ (3 <= List.length r3)%nat.

Lemma batch_tuples_ok :
  rows_present ->
  exists ts,
    rmap (Populate.batch_tuple ids coords_2d coords_3d)
      (seq 0 (List.length ids)) = Ok ts.
Proof.
  intros Hrows. apply rmap_all_ok. intros i Hi. apply in_seq in Hi.
  destruct (Hrows i) as (r2 & r3 & H2 & H3 & L2 & L3); [lia|].
  unfold Populate.batch_tuple, at2. rewrite H2, H3.
  destruct r2 as [|a2 [|b2 r2]]; simpl in L2; try lia.
  destruct r3 as [|a3 [|b3 [|c3 r3]]]; simpl in L3; try lia.
  cbn [nth_error of_option rbind].
  destruct (nth_error ids i) eqn:E; [reflexivity|].
  apply nth_error_None in E. lia.
Qed.

Lemma update_loop_ok :
  forall fault starts k total c ts,
    has_umap_columns (working c) = true ->
    rmap (Populate.batch_tuple ids coords_2d coords_3d)
      (flat_map (chunk (List.length ids)) starts) = Ok ts ->
    (forall j, (j < List.length starts)%nat -> fault (k + j)%nat = false) ->
    exists n c',
      Populate.update_loop fault ids coords_2d coords_3d starts k total c
      = (Ok n, c').
Proof.
  intros fault; induction starts as [|i rest IH];
    intros k total c ts Hcols Hts Hfault.
  - simpl. unfold ret. eauto.
  - cbn [flat_map] in Hts. rewrite rmap_app in Hts.
    destruct (rmap (Populate.batch_tuple ids coords_2d coords_3d)
                (chunk (List.length ids) i)) as [ts1|] eqn:Hts1;
      [|discriminate].
    destruct (rmap (Populate.batch_tuple ids coords_2d coords_3d)
                (flat_map (chunk (List.length ids)) rest))
      as [ts2|] eqn:Hts2; [|discriminate].
    cbn [Populate.update_loop]. unfold bind at 1.
    rewrite (update_batch_spec _ _ _ _ _ _ Hts1 Hcols).
    assert (Hk : fault k = false).
    { rewrite <- (Hfault 0%nat) by (simpl; lia). f_equal; lia. }
    rewrite Hk.
    eapply (IH (S k)); [|reflexivity|].
    + cbn [working]. rewrite store_after_columns. exact Hcols.
    + intros j Hj. rewrite <- (Hfault (S j)) by (simpl; lia). f_equal; lia.
Qed.

(** With its rows present and no commit refused, the writer returns. *)
Lemma update_umap_coordinates_ok :
  forall fault s,
    has_umap_columns s = true ->
    rows_present ->
    (forall b, (b < (List.length ids + 99) / 100)%nat -> fault b = false) ->
    exists c',
      Populate.update_umap_coordinates fault ids coords_2d coords_3d
        (connect s)
      = (Ok (List.length ids), c').
Proof.
  intros fault s Hcols Hrows Hfault.
  destruct (batch_tuples_ok Hrows) as [ts Hts].
  destruct (@update_loop_ok fault
              (range_step (List.length ids) Populate.BATCH_SIZE) 0 0
              (connect s) ts) as (n & c' & Hrun).
  - exact Hcols.
  - rewrite chunks_cover. exact Hts.
  - rewrite range_step_length. intros j Hj. apply Hfault. exact Hj.
  - exists c'. pose proof Hrun as Hinv.
    apply update_umap_coordinates_inv in Hinv as (_ & _ & -> & _).
    exact Hrun.
Qed.

End AlignmentForward.

Lemma Forall2_firstn_both :
  forall {A B} (P : A -> B -> Prop) m l1 l2,
    Forall2 P l1 l2 -> Forall2 P (firstn m l1) (firstn m l2).
Proof.
  intros A B P; induction m as [|m IH]; intros l1 l2 H; [constructor|].
  destruct H; simpl; constructor; auto.
Qed.

Section Alignment.
Context {N : Numerics}.

(** What the writer of populate-umap-coordinates.py has stored when it
    returns. *)
Lemma writer_alignment :
  forall fault ids c2 c3 c n c',
    Populate.update_umap_coordinates fault ids c2 c3 c = (Ok n, c') ->
    NoDup ids ->
    forall i k, nth_error ids i = Some k ->
      exists x2 y2 x3 y3 z3,
        at2 c2 i 0 = Ok x2 /\ at2 c2 i 1 = Ok y2
        /\ at2 c3 i 0 = Ok x3 /\ at2 c3 i 1 = Ok y3
        /\ at2 c3 i 2 = Ok z3
        /\ forall r, In r (rows (committed c')) -> id r = k ->
             holds r x2 y2 x3 y3 z3.
Proof.
  intros fault ids c2 c3 c n c' H Hnd i k Hi.
  apply update_umap_coordinates_inv in H
    as (ts & Hts & _ & Hw & Hne & _).
  destruct Hne as [Hcw _]; [intros ->; destruct i; discriminate|].
  assert (Hlt : (i < List.length ids)%nat)
    by (apply nth_error_Some; congruence).
  destruct (rmap_seq_nth _ _ Hts Hlt) as (t & Ht & Hbt).
  simpl in Hbt. apply batch_tuple_inv in Hbt
    as (x2 & y2 & x3 & y3 & z3 & k' & -> & H1 & H2 & H3 & H4 & H5 & Hk').
  assert (k' = k) by congruence. subst k'.
  exists x2, y2, x3, y3, z3. repeat (split; [assumption|]).
  intros r Hr Hid. rewrite Hcw, Hw in Hr. simpl in Hr.
  apply in_map_iff in Hr as (r0 & <- & _).
  rewrite row_after_id in Hid.
  rewrite (@keyed_rows N ids (map write_by_id ts)
             (tuple_keys_from c2 c3 ids (List.length ids) 0 Hts eq_refl)
             Hnd k (write_by_id (x2, y2, x3, y3, z3, k)) r0).
  + repeat split.
  + eapply nth_error_combine_in; [exact Hi|].
    rewrite nth_error_map, Ht. reflexivity.
  + exact Hid.
Qed.

(** What is durable when the commit of batch [b] is the first refused:
    the rows of the batches before it. *)
Lemma writer_alignment_until_fault :
  forall fault ids c2 c3 s ts b,
    has_umap_columns s = true ->
    NoDup ids ->
    rmap (Populate.batch_tuple ids c2 c3) (seq 0 (List.length ids)) = Ok ts ->
    (b < (List.length ids + 99) / 100)%nat ->
    fault b = true ->
    (forall j, (j < b)%nat -> fault j = false) ->
    exists c',
      Populate.update_umap_coordinates fault ids c2 c3 (connect s)
      = (Raise DatabaseError, c')
      /\ map id (rows (committed c')) = map id (rows s)
      /\ forall i k, (i < b * 100)%nat -> nth_error ids i = Some k ->
           exists x2 y2 x3 y3 z3,
             at2 c2 i 0 = Ok x2 /\ at2 c2 i 1 = Ok y2
             /\ at2 c3 i 0 = Ok x3 /\ at2 c3 i 1 = Ok y3
             /\ at2 c3 i 2 = Ok z3
             /\ forall r, In r (rows (committed c')) -> id r = k ->
                  holds r x2 y2 x3 y3 z3.
Proof.
  intros fault ids c2 c3 s ts b Hcols Hnd Hts Hb Hfault Hbefore.
  destruct (@update_umap_coordinates_fault N fault c2 c3 ids s ts b
              Hcols Hts Hb Hfault Hbefore) as (c' & Hrun & Hcom).
  exists c'. split; [exact Hrun|].
  split; [rewrite Hcom; apply store_after_ids|]. intros i k Him Hi.
  assert (Hlt : (i < List.length ids)%nat)
    by (apply nth_error_Some; congruence).
  destruct (rmap_seq_nth _ _ Hts Hlt) as (t & Ht & Hbt).
  simpl in Hbt. apply batch_tuple_inv in Hbt
    as (x2 & y2 & x3 & y3 & z3 & k' & -> & H1 & H2 & H3 & H4 & H5 & Hk').
  assert (k' = k) by congruence. subst k'.
  exists x2, y2, x3, y3, z3. repeat (split; [assumption|]).
  intros r Hr Hid. rewrite Hcom in Hr. simpl in Hr.
  apply in_map_iff in Hr as (r0 & <- & _).
  rewrite row_after_id in Hid.
  assert (Him' : (i <? b * 100)%nat = true) by (apply Nat.ltb_lt; exact Him).
  rewrite (@keyed_rows N (firstn (b * 100) ids)
             (map write_by_id (firstn (b * 100) ts))) with
    (k := k) (w := write_by_id (x2, y2, x3, y3, z3, k)).
  - repeat split.
  - rewrite <- firstn_map. apply Forall2_firstn_both.
    exact (tuple_keys_from c2 c3 ids (List.length ids) 0 Hts eq_refl).
  - rewrite <- (firstn_skipn (b * 100) ids) in Hnd.
    apply NoDup_app_remove_r in Hnd. exact Hnd.
  - eapply nth_error_combine_in.
    + rewrite nth_error_firstn, Him'. exact Hi.
    + rewrite nth_error_map, nth_error_firstn, Him', Ht. reflexivity.
  - exact Hid.
Qed.

Lemma attach_ok :
  forall c2 c3 (data : list UmapReduce.datum) i,
    (i + List.length data <= List.length c2)%nat ->
    (i + List.length data <= List.length c3)%nat ->
    exists ps, UmapReduce.attach i c2 c3 data = Ok ps.
Proof.
  intros c2 c3; induction data as [|x rest IH]; intros i H2 H3; simpl in *.
  - eauto.
  - destruct (nth_error c2 i) as [r2|] eqn:E2.
    2:{ apply nth_error_None in E2. lia. }
    destruct (nth_error c3 i) as [r3|] eqn:E3.
    2:{ apply nth_error_None in E3. lia. }
    destruct (IH (S i)) as [ps Hps]; [lia | lia |].
    cbn [of_option rbind]. rewrite Hps. cbn [rbind]. eauto.
Qed.

(** What [run_umap] returns. *)
Lemma run_umap_alignment :
  forall data ps,
    UmapReduce.run_umap data = Ok ps ->
    exists coords_2d coords_3d,
      fit_transform (UmapReduce.UMAP_PARAMS 2)
        (map UmapReduce.d_embedding data) = Some coords_2d
      /\ fit_transform (UmapReduce.UMAP_PARAMS 3)
           (map UmapReduce.d_embedding data) = Some coords_3d
      /\ List.length ps = List.length data
      /\ forall i x, nth_error data i = Some x ->
           exists r2 r3,
             nth_error coords_2d i = Some r2
             /\ nth_error coords_3d i = Some r3
             /\ nth_error ps i = Some (UmapReduce.mkPoint x r2 r3).
Proof.
  intros data ps H. unfold UmapReduce.run_umap in H.
  destruct (UmapReduce.vstack _) as [e|] eqn:Hv; [|discriminate].
  apply vstack_ok in Hv as [-> _]. cbn [rbind] in H.
  destruct (fit_transform (UmapReduce.UMAP_PARAMS 2) _) as [c2|];
    [|discriminate].
  destruct (fit_transform (UmapReduce.UMAP_PARAMS 3) _) as [c3|];
    [|discriminate].
  simpl in H. apply attach_spec in H as (Hlen & _ & Hnth).
  exists c2, c3. repeat split; auto.
Qed.

End Alignment.

(** C6.  The id at position [i] of the id list is the key under which row
    [i] of the 2D matrix and row [i] of the 3D matrix are written.

    populate-umap-coordinates.py: on a table with the coordinate columns,
    with a row of each matrix for every id and no commit refused, the
    writer returns [len(ids)], everything is committed, the table keeps
    its records' ids, and every record with id [ids[i]] holds exactly the
    five numbers of rows [i] (ids being unique); when the commit of batch
    [b] is the first refused, the writer raises and this holds of the
    durable table for every [i] below [100 b]; and whenever the writer
    returns, it holds of every [i].

    03_update_database.py: for every row whose statement went through,
    every record with id [ids[i]] holds the five numbers of rows [i].

    umap-reduce.py: when the vectors have one length and the two
    projections return a row per element, [run_umap] returns one element
    per element of its input, element [i] with rows [i] of both matrices;
    and whenever it returns, this is what it returns. *)
Theorem row_to_id_alignment :
  forall (N : Numerics),
    (forall fault ids coords_2d coords_3d (s : store),
        has_umap_columns s = true ->
        NoDup ids ->
        (forall i, (i < List.length ids)%nat ->
           exists r2 r3,
             nth_error coords_2d i = Some r2
             /\ nth_error coords_3d i = Some r3
             /\ (2 <= List.length r2)%nat /\ (3 <= List.length r3)%nat) ->
        (forall b, fault b = false) ->
        exists c',
          Populate.update_umap_coordinates fault ids coords_2d coords_3d
            (connect s)
          = (Ok (List.length ids), c')
          /\ committed c' = working c'
          /\ map id (rows (committed c')) = map id (rows s)
          /\ forall i k, nth_error ids i = Some k ->
               exists x2 y2 x3 y3 z3,
                 at2 coords_2d i 0 = Ok x2 /\ at2 coords_2d i 1 = Ok y2
                 /\ at2 coords_3d i 0 = Ok x3 /\ at2 coords_3d i 1 = Ok y3
                 /\ at2 coords_3d i 2 = Ok z3
                 /\ forall r, In r (rows (committed c')) -> id r = k ->
                      holds r x2 y2 x3 y3 z3)
    /\ (forall fault ids coords_2d coords_3d (s : store) b,
          has_umap_columns s = true ->
          NoDup ids ->
          (forall i, (i < List.length ids)%nat ->
             exists r2 r3,
               nth_error coords_2d i = Some r2
               /\ nth_error coords_3d i = Some r3
               /\ (2 <= List.length r2)%nat /\ (3 <= List.length r3)%nat) ->
          (b < (List.length ids + 99) / 100)%nat ->
          fault b = true ->
          (forall j, (j < b)%nat -> fault j = false) ->
          exists c',
            Populate.update_umap_coordinates fault ids coords_2d coords_3d
              (connect s)
            = (Raise DatabaseError, c')
            /\ map id (rows (committed c')) = map id (rows s)
            /\ forall i k, (i < b * 100)%nat -> nth_error ids i = Some k ->
                 exists x2 y2 x3 y3 z3,
                   at2 coords_2d i 0 = Ok x2 /\ at2 coords_2d i 1 = Ok y2
                   /\ at2 coords_3d i 0 = Ok x3 /\ at2 coords_3d i 1 = Ok y3
                   /\ at2 coords_3d i 2 = Ok z3
                   /\ forall r, In r (rows (committed c')) -> id r = k ->
                        holds r x2 y2 x3 y3 z3)
    /\ (forall fault ids coords_2d coords_3d c n c',
        Populate.update_umap_coordinates fault ids coords_2d coords_3d c
        = (Ok n, c') ->
        NoDup ids ->
        forall i k, nth_error ids i = Some k ->
          exists x2 y2 x3 y3 z3,
            at2 coords_2d i 0 = Ok x2 /\ at2 coords_2d i 1 = Ok y2
            /\ at2 coords_3d i 0 = Ok x3 /\ at2 coords_3d i 1 = Ok y3
            /\ at2 coords_3d i 2 = Ok z3
            /\ forall r, In r (rows (committed c')) -> id r = k ->
                 holds r x2 y2 x3 y3 z3)
    /\ (forall fault s ids umap_2d umap_3d,
          has_umap_columns s = true ->
          NoDup ids ->
          forall i k x2 y2 x3 y3 z3,
            nth_error ids i = Some k ->
            fault i = false ->
            at2 umap_2d i 0 = Ok x2 -> at2 umap_2d i 1 = Ok y2 ->
            at2 umap_3d i 0 = Ok x3 -> at2 umap_3d i 1 = Ok y3 ->
            at2 umap_3d i 2 = Ok z3 ->
            forall r,
              In r (rows (fst (Update03.update_umap_coordinates fault s ids
                                 umap_2d umap_3d))) ->
              id r = k -> holds r x2 y2 x3 y3 z3)
    /\ (forall data coords_2d coords_3d,
          data <> [] ->
          uniform (map UmapReduce.d_embedding data) = true ->
          fit_transform (UmapReduce.UMAP_PARAMS 2)
            (map UmapReduce.d_embedding data) = Some coords_2d ->
          fit_transform (UmapReduce.UMAP_PARAMS 3)
            (map UmapReduce.d_embedding data) = Some coords_3d ->
          (List.length data <= List.length coords_2d)%nat ->
          (List.length data <= List.length coords_3d)%nat ->
          exists ps,
            UmapReduce.run_umap data = Ok ps
            /\ List.length ps = List.length data
            /\ forall i x, nth_error data i = Some x ->
                 exists r2 r3,
                   nth_error coords_2d i = Some r2
                   /\ nth_error coords_3d i = Some r3
                   /\ nth_error ps i = Some (UmapReduce.mkPoint x r2 r3))
    /\ (forall data ps,
          UmapReduce.run_umap data = Ok ps ->
          exists coords_2d coords_3d,
            fit_transform (UmapReduce.UMAP_PARAMS 2)
              (map UmapReduce.d_embedding data) = Some coords_2d
            /\ fit_transform (UmapReduce.UMAP_PARAMS 3)
                 (map UmapReduce.d_embedding data) = Some coords_3d
            /\ List.length ps = List.length data
            /\ forall i x, nth_error data i = Some x ->
                 exists r2 r3,
                   nth_error coords_2d i = Some r2
                   /\ nth_error coords_3d i = Some r3
                   /\ nth_error ps i = Some (UmapReduce.mkPoint x r2 r3)).
Proof.
  intros N. split; [|split; [|split; [|split; [|split]]]].
  - intros fault ids c2 c3 s Hcols Hnd Hrows Hfault.
    destruct (@update_umap_coordinates_ok N ids c2 c3 fault s Hcols Hrows)
      as [c' Hrun]; [intros b _; apply Hfault|].
    exists c'. split; [exact Hrun|].
    assert (Hcw : committed c' = working c').
    { pose proof Hrun as Hinv.
      apply update_umap_coordinates_inv in Hinv as (_ & _ & _ & _ & Hne & Hnil).
      destruct ids as [|k0 ids'].
      - rewrite (Hnil eq_refl). reflexivity.
      - apply Hne. discriminate. }
    split; [exact Hcw|]. split.
    + pose proof Hrun as Hinv.
      apply update_umap_coordinates_inv in Hinv as (ts & _ & _ & Hw & _).
      rewrite Hcw, Hw. apply store_after_ids.
    + intros i k Hi. eapply writer_alignment; eassumption.
  - intros fault ids c2 c3 s b Hcols Hnd Hrows Hb Hfault Hbefore.
    destruct (@batch_tuples_ok N ids c2 c3 Hrows) as [ts Hts].
    eapply writer_alignment_until_fault; eassumption.
  - intros fault ids c2 c3 c n c' H Hnd i k Hi.
    eapply writer_alignment; eassumption.
  - intros fault s ids c2 c3 Hcols Hnd i k x2 y2 x3 y3 z3 Hi Hf
           H1 H2 H3 H4 H5 r Hr Hid.
    unfold Update03.update_umap_coordinates in Hr.
    rewrite update03_loop_spec in Hr by exact Hcols. simpl in Hr.
    apply in_map_iff in Hr as (r0 & <- & _).
    rewrite row_after_id in Hid.
    rewrite (@written_row N fault c2 c3 ids 0 i k
               (mkWrite (fun r => id r =? k) x2 y2 x3 y3 z3) r0 Hnd Hi).
    + repeat split.
    + unfold attempt. simpl. rewrite H1, H2, H3, H4, H5. cbn [rbind].
      rewrite Hf. reflexivity.
    + exact Hid.
  - intros data c2 c3 Hne Huni H2 H3 L2 L3.
    destruct (@attach_ok N c2 c3 data 0) as [ps Hps]; [simpl; lia..|].
    assert (Hrun : UmapReduce.run_umap data = Ok ps).
    { unfold UmapReduce.run_umap.
      rewrite (proj2 (vstack_uniform (map UmapReduce.d_embedding data))).
      - cbn [rbind]. rewrite H2. cbn [of_option rbind]. rewrite H3.
        cbn [of_option rbind]. exact Hps.
      - destruct data; [congruence | discriminate].
      - exact Huni. }
    exists ps. split; [exact Hrun|].
    apply attach_spec in Hps as (Hlen & _ & Hnth).
    split; [exact Hlen|]. exact Hnth.
  - exact run_umap_alignment.
Qed.

(** The parts on concrete inputs.  Two pending rows written by the
    writer of populate-umap-coordinates.py: it returns 2 and the record
    with the second id holds the second rows.  150 pending rows with the
    second commit refused: the writer raises and the record with the
    first id holds the first rows in the durable table.
    The writer of 03_update_database.py on two rows.  [run_umap] on two
    elements. *)
Lemma row_to_id_alignment_witness :
  let s := Fixture.table [Fixture.fresh 1 "[1,2]"; Fixture.fresh 2 "[3,4]"] in
  let s' := fst (Update03.update_umap_coordinates (N := Fixture.integers)
                   (fun _ => false) s [1; 2]
                   [[10; 11]; [20; 21]] [[1; 2; 3]; [4; 5; 6]]) in
  let data :=
    [UmapReduce.mkDatum (N := Fixture.integers) "1" "label" [1; 2]
       "attribute" "attribute_label" 1;
     UmapReduce.mkDatum (N := Fixture.integers) "2" "label" [3; 4]
       "attribute" "attribute_label" 1]%string in
  (exists c',
      Populate.update_umap_coordinates (N := Fixture.integers)
        (fun _ => false) [1; 2] [[10; 11]; [20; 21]] [[1; 2; 3]; [4; 5; 6]]
        (connect s)
      = (Ok 2%nat, c')
      /\ exists r, In r (rows (committed c')) /\ id r = 2
           /\ holds r 20 21 4 5 6)
  /\ (exists c',
        Populate.update_umap_coordinates (N := Fixture.integers)
          (fun b => Nat.eqb b 1) (map Z.of_nat (seq 1 150))
          (repeat [10; 11] 150) (repeat [1; 2; 3] 150)
          (connect (Fixture.many 150))
        = (Raise DatabaseError, c')
        /\ exists r, In r (rows (committed c')) /\ id r = 1
             /\ holds r 10 11 1 2 3)
  /\ (has_umap_columns s = true /\ NoDup [1; 2]
      /\ holds (nth 1 (rows s') (Fixture.fresh 0 "")) 20 21 4 5 6)
  /\ (exists ps,
        UmapReduce.run_umap data = Ok ps
        /\ nth_error ps 1
           = Some (UmapReduce.mkPoint (nth 1 data (nth 0 data (nth 0 data
                     (UmapReduce.mkDatum "" "" [] "" "" 0))))
                     [7; 8] [7; 8; 9])).
Proof.
  intros s s' data.
  assert (Hnd : NoDup [1; 2]).
  { repeat constructor; simpl; intuition discriminate. }
  destruct (row_to_id_alignment Fixture.integers)
    as (Hreturns & Hfault & _ & H03 & Hrun & _).
  split; [|split; [|split]].
  - destruct (Hreturns (fun _ => false) [1; 2] [[10; 11]; [20; 21]]
                [[1; 2; 3]; [4; 5; 6]] s eq_refl Hnd)
      as (c' & Hc' & _ & Hids & Halign).
    + intros [|[|i]] Hi; simpl in Hi; [| |lia]; do 2 eexists;
        (split; [reflexivity|]); (split; [reflexivity|]); simpl; lia.
    + reflexivity.
    + exists c'. split; [exact Hc'|].
      destruct (Halign 1%nat 2 eq_refl)
        as (x2 & y2 & x3 & y3 & z3 & E1 & E2 & E3 & E4 & E5 & Hholds).
      inversion E1; inversion E2; inversion E3; inversion E4; inversion E5;
        subst.
      assert (Hin : In 2 (map id (rows (committed c')))).
      { rewrite Hids. right; left; reflexivity. }
      apply in_map_iff in Hin as (r & Hid & Hin).
      exists r. split; [exact Hin|]. split; [exact Hid|].
      exact (Hholds r Hin Hid).
  - destruct (Hfault (fun b => Nat.eqb b 1) (map Z.of_nat (seq 1 150))
                (repeat [10; 11] 150) (repeat [1; 2; 3] 150)
                (Fixture.many 150) 1%nat eq_refl)
      as (c' & Hc' & Hids & Halign).
    + apply (NoDup_map_inv (fun z => Z.to_nat z)). rewrite map_map.
      rewrite (map_ext _ (fun n => n)) by (intros n; apply Nat2Z.id).
      rewrite map_id. apply seq_NoDup.
    + intros i Hi. rewrite length_map, length_seq in Hi.
      exists [10; 11], [1; 2; 3].
      split; [apply nth_error_repeat; exact Hi|].
      split; [apply nth_error_repeat; exact Hi|]. simpl; lia.
    + rewrite length_map, length_seq. apply Nat.ltb_lt. reflexivity.
    + reflexivity.
    + intros [|j] Hj; [reflexivity | lia].
    + exists c'. split; [exact Hc'|].
      destruct (Halign 0%nat 1 ltac:(lia) eq_refl)
        as (x2 & y2 & x3 & y3 & z3 & E1 & E2 & E3 & E4 & E5 & Hholds).
      inversion E1; inversion E2; inversion E3; inversion E4; inversion E5;
        subst.
      assert (Hin : In 1 (map id (rows (committed c')))).
      { rewrite Hids. left; reflexivity. }
      apply in_map_iff in Hin as (r & Hid & Hin).
      exists r. split; [exact Hin|]. split; [exact Hid|].
      exact (Hholds r Hin Hid).
  - split; [reflexivity|]. split; [exact Hnd|].
    apply (H03 (fun _ => false) s [1; 2] [[10; 11]; [20; 21]]
             [[1; 2; 3]; [4; 5; 6]] eq_refl Hnd 1%nat 2 20 21 4 5 6);
      try reflexivity.
    right; left; reflexivity.
  - destruct (Hrun data [[3; 4]; [7; 8]] [[3; 4; 5]; [7; 8; 9]])
      as (ps & Hps & _ & Hnth);
      [discriminate | reflexivity | reflexivity | reflexivity
      | simpl; lia | simpl; lia |].
    exists ps. split; [exact Hps|].
    destruct (Hnth 1%nat _ eq_refl) as (r2 & r3 & E2 & E3 & E).
    inversion E2; inversion E3; subst. exact E.
Defined.

(* ------------------------------------------------------------------ *)
(** ** A write that fails *)

Lemma in_firstn :
  forall {A} n (l : list A) x, In x (firstn n l) -> In x l.
Proof.
  intros A n l x H. rewrite <- (firstn_skipn n l). apply in_or_app; left.
  exact H.
Qed.

Section FailedWrites.
Context {N : Numerics}.

Lemma ensure_umap_columns_present :
  forall s, has_umap_columns s = true -> Update03.ensure_umap_columns s = Ok s.
Proof.
  intros s H. unfold Update03.ensure_umap_columns.
  apply ensure_loop_noop. intros c Hc.
  change (map fst Update03.columns_to_add) with umap_column_names in Hc.
  unfold has_umap_columns in H. rewrite forallb_forall in H.
  rewrite like_umap_filter; [exact (H c Hc)|].
  simpl in Hc. repeat (destruct Hc as [<-|Hc]; [reflexivity|]). contradiction.
Qed.

Lemma has_x_columns :
  forall s, has_umap_columns s = true ->
    has_column "umap_x_2d" s = true /\ has_column "umap_x_3d" s = true.
Proof.
  intros s H. unfold has_umap_columns in H. rewrite forallb_forall in H.
  split; apply H; simpl; auto.
Qed.

Lemma samples_printable :
  forall ws s n,
    (forall r, In r (rows s) -> umap_x_2d r <> None -> complete r = true) ->
    forallb Update03.printable (Update03.samples n (store_after ws s)) = true.
Proof.
  intros ws s n H. apply forallb_forall. intros r Hr.
  unfold Update03.samples in Hr. apply in_firstn in Hr.
  eapply Permutation_in in Hr; [|apply order_by_perm].
  apply filter_In in Hr as [Hin Hx]. simpl in Hin.
  apply in_map_iff in Hin as (r0 & <- & Hin0).
  change (Update03.printable (row_after ws r0))
    with (complete (row_after ws r0)).
  destruct (row_after_cases ws r0) as [E|Hc]; [|exact Hc].
  rewrite E in *. apply H; [exact Hin0|].
  destruct (umap_x_2d r0); [discriminate | discriminate Hx].
Qed.

Lemma written_in :
  forall fault c2 c3 ids idx i k w,
    nth_error ids i = Some k ->
    attempt fault c2 c3 (idx + i) k = Ok w ->
    In w (written fault c2 c3 idx ids).
Proof.
  intros fault c2 c3; induction ids as [|k0 ids IH]; intros idx i k w Hi Ha.
  - destruct i; discriminate.
  - cbn [written]. destruct i as [|i]; simpl in Hi.
    + inversion Hi; subst. rewrite Nat.add_0_r in Ha. rewrite Ha.
      left; reflexivity.
    + replace (idx + S i)%nat with (S idx + i)%nat in Ha by lia.
      destruct (attempt fault c2 c3 idx k0); [right|]; eapply IH; eauto.
Qed.

Lemma rejected_in :
  forall fault c2 c3 ids idx i k e,
    nth_error ids i = Some k ->
    attempt fault c2 c3 (idx + i) k = Raise e ->
    In k (rejected fault c2 c3 idx ids).
Proof.
  intros fault c2 c3; induction ids as [|k0 ids IH]; intros idx i k e Hi Ha.
  - destruct i; discriminate.
  - cbn [rejected]. destruct i as [|i]; simpl in Hi.
    + inversion Hi; subst. rewrite Nat.add_0_r in Ha. rewrite Ha.
      left; reflexivity.
    + replace (idx + S i)%nat with (S idx + i)%nat in Ha by lia.
      destruct (attempt fault c2 c3 idx k0); [|right]; eapply IH; eauto.
Qed.

End FailedWrites.

(** C3 (as the code has it).  The writer of 03_update_database.py sends
    one statement per row, each its own transaction: a statement that
    fails is counted and its id logged, every other row, before or after
    it, is written, and the script ends with status 0.  The writer of
    populate-umap-coordinates.py commits batches of 100: when the commit
    of batch [k] is the first to fail, the batches before it stay
    committed, and the run ends there with a database error and status 1;
    batch [k] and the batches after it are not written. *)
Theorem failed_write_outcomes :
  forall (N : Numerics),
    (forall fault db ids umap_2d umap_3d,
        has_umap_columns db = true ->
        List.length ids = List.length umap_2d ->
        List.length umap_2d = List.length umap_3d ->
        (forall r, In r (rows db) -> umap_x_2d r <> None ->
                   complete r = true) ->
        let ws := written fault umap_2d umap_3d 0 ids in
        let bad := rejected fault umap_2d umap_3d 0 ids in
        Update03.main fault db ids umap_2d umap_3d
        = Update03.mkOutcome 0 (store_after ws db)
            (Some (Update03.mkTally (List.length ws) (List.length bad) bad))
        /\ (List.length ws + List.length bad = List.length ids)%nat
        /\ (forall i k w, nth_error ids i = Some k ->
              attempt fault umap_2d umap_3d i k = Ok w -> In w ws)
        /\ (forall i k e, nth_error ids i = Some k ->
              attempt fault umap_2d umap_3d i k = Raise e -> In k bad))
    /\ (forall fault s ids labels embeddings coords_2d coords_3d ts k,
          has_umap_columns s = true ->
          Populate.fetch_embeddings (connect s)
          = (Ok (ids, labels, embeddings), connect s) ->
          ids <> [] ->
          Populate.compute_umap_projections embeddings
          = Ok (coords_2d, coords_3d) ->
          rmap (Populate.batch_tuple ids coords_2d coords_3d)
            (seq 0 (List.length ids)) = Ok ts ->
          (k < (List.length ids + 99) / 100)%nat ->
          fault k = true ->
          (forall j, (j < k)%nat -> fault j = false) ->
          Populate.main fault s
          = mkProcess 1
              (store_after (map write_by_id (firstn (k * 100) ts)) s)
              [Populate.msg_database_error] []).
Proof.
  intros N; split.
  - intros fault db ids c2 c3 Hcols Hl1 Hl2 Hdb ws bad.
    split; [|split; [apply written_rejected_length|split]].
    + unfold Update03.main.
      rewrite Hl1, Hl2, !Nat.eqb_refl. cbn [andb negb].
      rewrite ensure_umap_columns_present by exact Hcols.
      unfold Update03.update_umap_coordinates.
      rewrite update03_loop_spec by exact Hcols.
      fold ws; fold bad. cbn [Update03.updated Update03.failed
                               Update03.warned Nat.add app].
      unfold Update03.verify_updates.
      rewrite store_after_columns, Hcols.
      destruct (has_x_columns _ Hcols) as [H2 H3].
      change (has_column "umap_x_2d" (store_after ws db))
        with (has_column "umap_x_2d" db).
      change (has_column "umap_x_3d" (store_after ws db))
        with (has_column "umap_x_3d" db).
      rewrite H2, H3. cbn [andb negb].
      rewrite samples_printable by exact Hdb. reflexivity.
    + intros i k w Hi Ha. eapply written_in; eauto.
    + intros i k e Hi Ha. eapply rejected_in; eauto.
  - intros fault s ids labels emb c2 c3 ts k Hcols Hfetch Hne Hproj Hts Hk
           Hfault Hbefore.
    destruct (@update_umap_coordinates_fault N fault c2 c3 ids s ts k
                Hcols Hts Hk Hfault Hbefore) as (c' & Hrun & Hcom).
    unfold Populate.main, Populate.steps. unfold bind at 1. rewrite Hfetch.
    destruct ids as [|k0 ids']; [congruence|].
    cbn [List.length Nat.eqb]. unfold bind at 1, lift. rewrite Hproj.
    unfold bind at 1. rewrite Hrun. rewrite Hcom. reflexivity.
Qed.

(** Two fresh rows: the per-row writer whose first statement fails still
    ends with status 0, the batch writer whose only commit fails ends with
    status 1. *)
Lemma failed_write_outcomes_witness :
  let s := Fixture.table [Fixture.fresh 1 "[1,2]"; Fixture.fresh 2 "[3,4]"] in
  Update03.status
    (Update03.main (N := Fixture.integers) (fun i => Nat.eqb i 0) s [1; 2]
       [[10; 11]; [20; 21]] [[1; 2; 3]; [4; 5; 6]]) = 0
  /\ exit_status (Populate.main (fun _ => true) s) = 1.
Proof.
  intros s.
  destruct (failed_write_outcomes Fixture.integers) as [HA HB].
  split.
  - assert (Hrows : forall r, In r (rows s) -> umap_x_2d r <> None ->
                      complete r = true).
    { intros r [<-|[<-|[]]] H; exfalso; apply H; reflexivity. }
    destruct (HA (fun i => Nat.eqb i 0) s [1; 2]
                [[10; 11]; [20; 21]] [[1; 2; 3]; [4; 5; 6]]
                eq_refl eq_refl eq_refl Hrows) as [E _].
    rewrite E. reflexivity.
  - rewrite (HB (fun _ => true) s [1; 2] ["label"; "label"]%string
               [[1; 2]; [3; 4]] [[3; 4]; [7; 8]] [[3; 4; 5]; [7; 8; 9]]
               [(3, 4, 3, 4, 5, 1); (7, 8, 7, 8, 9, 2)] 0%nat);
      try reflexivity.
    + discriminate.
    + apply Nat.ltb_lt; reflexivity.
    + intros j Hj; inversion Hj.
Defined.

(** C3 as written fails for the batch writer: with 250 pending rows and
    the commit of the second batch rejected, the run ends with a database
    error and status 1, and the 50 rows of the third batch are never
    written. *)
Lemma failed_commit_stops_the_writer :
  let run := Populate.main (fun k => Nat.eqb k 1) (Fixture.many 250) in
  exit_status run = 1
  /\ stdout run = [Populate.msg_database_error]
  /\ map (fun r => not_null (umap_x_2d r)) (rows (database run))
     = repeat true 100 ++ repeat false 150.
Proof.
  intros run; repeat split; vm_compute; reflexivity.
Qed.

(* ------------------------------------------------------------------ *)
(** ** Successful runs *)

Lemma Forall2_in_left :
  forall {A B} (R : A -> B -> Prop) l1 l2 a,
    Forall2 R l1 l2 -> In a l1 -> exists b, In b l2 /\ R a b.
Proof.
  intros A B R l1 l2 a HF; induction HF as [|x y l1 l2 Hxy HF IH];
    intros Hin; [contradiction|].
  destruct Hin as [<-|Hin].
  - exists y; split; [left; reflexivity | exact Hxy].
  - destruct (IH Hin) as (b & Hb & HR). exists b; split; [right|]; auto.
Qed.

Section Runs.
Context {N : Numerics}.

Lemma fetch_embeddings_inv :
  forall c ids labels embeddings c',
    Populate.fetch_embeddings c = (Ok (ids, labels, embeddings), c') ->
    c' = c
    /\ has_column "umap_x_2d" (working c) = true
    /\ Permutation ids
         (map id (filter (fun r => is_null (umap_x_2d r)) (rows (working c)))).
Proof.
  intros c ids labels emb c' H.
  unfold Populate.fetch_embeddings, bind, query in H.
  destruct (Populate.select_pending (working c)) as [rs|e] eqn:Hsel;
    [|discriminate].
  destruct (select_pending_ids _ Hsel) as [Hperm _].
  assert (Hcol : has_column "umap_x_2d" (working c) = true).
  { unfold Populate.select_pending in Hsel.
    destruct (has_column "umap_x_2d" (working c)); [reflexivity|discriminate]. }
  destruct rs as [|t rs].
  - unfold ret in H. inversion H; subst. auto.
  - unfold lift in H.
    destruct (of_option ValueError _) as [m|] in H; [|discriminate].
    unfold ret in H. inversion H; subst. auto.
Qed.

(** A run of populate-umap-coordinates.py that exits with 0 leaves the
    table as some sequence of writes makes it, and every row that was
    pending is the target of one of them. *)
Lemma populate_main_success :
  forall fault s,
    exit_status (Populate.main fault s) = 0 ->
    has_column "umap_x_2d" s = true
    /\ exists ws,
         database (Populate.main fault s) = store_after ws s
         /\ (forall r, In r (rows s) -> umap_x_2d r = None ->
               exists w, In w ws /\ matches w r = true).
Proof.
  intros fault s H. unfold Populate.main in *.
  destruct (Populate.steps fault (connect s)) as [[msg|e] conn] eqn:Hs.
  2:{ destruct e; simpl in H; discriminate. }
  clear H. simpl database.
  unfold Populate.steps in Hs. unfold bind at 1 in Hs.
  destruct (Populate.fetch_embeddings (connect s))
    as [[[[ids labels] emb]|e] c0] eqn:Hf; [|discriminate].
  apply fetch_embeddings_inv in Hf as (-> & Hcol & Hperm).
  simpl in Hcol, Hperm. split; [exact Hcol|].
  destruct ids as [|k0 ids'].
  - simpl in Hs. unfold ret in Hs. inversion Hs; subst. simpl.
    exists []. rewrite store_after_nil. split; [reflexivity|].
    intros r Hin Hnull. exfalso.
    apply Permutation_nil in Hperm.
    assert (Hin' : In (id r) (map id (filter (fun r => is_null (umap_x_2d r))
                                        (rows s)))).
    { apply in_map, filter_In. split; [exact Hin|]. rewrite Hnull.
      reflexivity. }
    rewrite Hperm in Hin'. exact Hin'.
  - cbn [List.length Nat.eqb] in Hs. unfold bind at 1, lift in Hs.
    destruct (Populate.compute_umap_projections emb) as [[c2 c3]|e];
      [|discriminate].
    unfold bind at 1 in Hs.
    destruct (Populate.update_umap_coordinates fault (k0 :: ids') c2 c3
                (connect s)) as [[n|e] c1] eqn:Hu; [|discriminate].
    apply update_umap_coordinates_inv in Hu
      as (ts & Hts & _ & Hw & Hne & _).
    destruct Hne as [Hcw _]; [discriminate|].
    unfold bind, Populate.verify_population, query, ret in Hs.
    destruct (Populate.verify_population_on (working c1)); [|discriminate].
    inversion Hs; subst. exists (map write_by_id ts).
    split; [rewrite Hcw, Hw; reflexivity|].
    intros r Hin Hnull.
    assert (Hid : In (id r) (k0 :: ids')).
    { eapply Permutation_in; [apply Permutation_sym, Hperm|].
      apply in_map, filter_In. split; [exact Hin|]. rewrite Hnull.
      reflexivity. }
    destruct (@Forall2_in_left _ _ _ _ _ (id r)
                (tuple_keys_from c2 c3 (k0 :: ids')
                   (List.length (k0 :: ids')) 0 Hts eq_refl) Hid)
      as (w & Hw' & _ & Hm).
    exists w. split; [exact Hw'|]. rewrite Hm. apply Z.eqb_refl.
Qed.

Lemma populate_main_no_pending :
  forall fault s,
    has_column "umap_x_2d" s = true ->
    (forall r, In r (rows s) -> umap_x_2d r <> None) ->
    Populate.main fault s = mkProcess 0 s [Populate.msg_nothing_to_do] [].
Proof.
  intros fault s Hcol Hdone.
  unfold Populate.main, Populate.steps, bind at 1.
  unfold Populate.fetch_embeddings, bind at 1, query.
  simpl working. rewrite select_pending_ok by assumption.
  rewrite filter_none.
  2:{ intros r Hin. specialize (Hdone r Hin).
      destruct (umap_x_2d r); [reflexivity | congruence]. }
  reflexivity.
Qed.

End Runs.

(** *** Which exceptions the steps of umap-reduce.py can raise *)

Section Raises.
Context {N : Numerics}.

Lemma of_option_raises :
  forall {A} e0 (o : option A) e, of_option e0 o = Raise e -> e = e0.
Proof. intros A e0 [a|] e H; simpl in H; congruence. Qed.

Lemma rmap_raises :
  forall {A B} (f : A -> result B) l e,
    (forall x e', f x = Raise e' -> is_exit e' = false) ->
    rmap f l = Raise e -> is_exit e = false.
Proof.
  intros A B f l e Hf H. apply rmap_raise_inv in H as (x & _ & Hx). eauto.
Qed.

Lemma idx_raises :
  forall {A} (v : list A) k e,
    UmapReduce.idx v k = Raise e -> is_exit e = false.
Proof.
  intros A v k e H. apply of_option_raises in H. subst; reflexivity.
Qed.

Lemma write_of_point_raises :
  forall p e, write_of_point p = Raise e -> is_exit e = false.
Proof.
  intros p e; unfold write_of_point.
  repeat match goal with
         | |- context [UmapReduce.idx ?v ?k] =>
             destruct (UmapReduce.idx v k) eqn:?; cbn [rbind];
             [|intros H; inversion H; subst; eapply idx_raises; eauto]
         end.
  discriminate.
Qed.

Lemma run_write_raises :
  forall w s e, run_write w s = Raise e -> is_exit e = false.
Proof.
  intros w s e. rewrite run_write_spec.
  destruct (has_umap_columns s); intros H; inversion H; reflexivity.
Qed.

Lemma exec_each_update_one_raises :
  forall ps c e c',
    exec_each UmapReduce.update_one ps c = (Raise e, c') ->
    is_exit e = false.
Proof.
  induction ps as [|p ps IH]; intros c e c' H; simpl in H.
  - discriminate.
  - unfold bind, exec in H. rewrite update_one_prep in H.
    destruct (write_of_point p) as [w|e0] eqn:Hw; cbn [rbind] in H.
    + destruct (run_write w (working c)) as [s1|e1] eqn:Hr.
      * eapply IH; eauto.
      * inversion H; subst. eapply run_write_raises; eauto.
    + inversion H; subst. eapply write_of_point_raises; eauto.
Qed.

Lemma attach_raises :
  forall data i c2 c3 e,
    UmapReduce.attach i c2 c3 data = Raise e -> is_exit e = false.
Proof.
  induction data as [|x data IH]; intros i c2 c3 e H; simpl in H.
  - discriminate.
  - destruct (nth_error c2 i); simpl in H;
      [|inversion H; reflexivity].
    destruct (nth_error c3 i); simpl in H;
      [|inversion H; reflexivity].
    destruct (UmapReduce.attach (S i) c2 c3 data) eqn:Ha; simpl in H;
      [discriminate|].
    inversion H; subst. eapply IH; eauto.
Qed.

Lemma run_umap_raises :
  forall data e, UmapReduce.run_umap data = Raise e -> is_exit e = false.
Proof.
  intros data e H. unfold UmapReduce.run_umap in H.
  destruct (UmapReduce.vstack _) as [m|e0] eqn:Hv; cbn [rbind] in H.
  - destruct (fit_transform (UmapReduce.UMAP_PARAMS 2) m); simpl in H;
      [|inversion H; reflexivity].
    destruct (fit_transform (UmapReduce.UMAP_PARAMS 3) m); simpl in H;
      [|inversion H; reflexivity].
    eapply attach_raises; eauto.
  - inversion H; subst. unfold UmapReduce.vstack in Hv.
    destruct (map UmapReduce.d_embedding data); [inversion Hv; reflexivity|].
    destruct (forallb _ _); inversion Hv; reflexivity.
Qed.

Lemma write_lines_raises :
  forall (line : UmapReduce.point -> result string) data written text e,
    (forall p e', line p = Raise e' -> is_exit e' = false) ->
    UmapReduce.write_lines line data written = (text, Raise e) ->
    is_exit e = false.
Proof.
  intros line; induction data as [|p rest IH]; intros written text e Hl H;
    simpl in H; [discriminate|].
  destruct (line p) as [l|e0] eqn:Hp.
  - eapply IH; eauto.
  - inversion H; subst. eapply Hl; eauto.
Qed.

Lemma line_2d_raises :
  forall p e, UmapReduce.line_2d p = Raise e -> is_exit e = false.
Proof.
  intros p e. unfold UmapReduce.line_2d.
  repeat match goal with
         | |- context [UmapReduce.idx ?v ?k] =>
             destruct (UmapReduce.idx v k) eqn:?; cbn [rbind];
             [|intros H'; inversion H'; subst; eapply idx_raises; eauto]
         end.
  discriminate.
Qed.

Lemma line_3d_raises :
  forall p e, UmapReduce.line_3d p = Raise e -> is_exit e = false.
Proof.
  intros p e. unfold UmapReduce.line_3d.
  repeat match goal with
         | |- context [UmapReduce.idx ?v ?k] =>
             destruct (UmapReduce.idx v k) eqn:?; cbn [rbind];
             [|intros H'; inversion H'; subst; eapply idx_raises; eauto]
         end.
  discriminate.
Qed.

Lemma export_tsv_raises :
  forall disk ps e,
    snd (UmapReduce.export_tsv disk ps) = Raise e -> is_exit e = false.
Proof.
  intros disk ps e. unfold UmapReduce.export_tsv.
  destruct (disk 0%nat); [intros H; inversion H; reflexivity|].
  destruct (disk 1%nat); [intros H; inversion H; reflexivity|].
  destruct (UmapReduce.write_lines UmapReduce.line_2d ps "")
    as [t2 [[]|e2]] eqn:H2; cbn [snd].
  2:{ intros H; inversion H; subst.
      eapply write_lines_raises; [apply line_2d_raises | exact H2]. }
  destruct (disk 2%nat); [intros H; inversion H; reflexivity|].
  destruct (UmapReduce.write_lines UmapReduce.line_3d ps "")
    as [t3 [[]|e3]] eqn:H3; cbn [snd].
  2:{ intros H; inversion H; subst.
      eapply write_lines_raises; [apply line_3d_raises | exact H3]. }
  destruct (disk 3%nat); [intros H; inversion H; reflexivity|].
  discriminate.
Qed.


End Raises.

(** *** The run of umap-reduce.py, step by step *)

Section UmapReduceRuns.
Context {N : Numerics}.

Lemma add_umap_columns_present :
  forall c, has_umap_columns (working c) = true ->
    UmapReduce.add_umap_columns c = (Ok tt, c).
Proof.
  intros c H. rewrite add_umap_columns_spec.
  destruct (has_x_columns _ H) as [H2 H3].
  unfold has_umap_columns in H. simpl in H.
  repeat (apply andb_prop in H as [? H]).
  unfold umap_column_names; simpl filter.
  repeat match goal with Hc : has_column _ (working c) = true |- _ =>
           rewrite Hc; clear Hc end.
  reflexivity.
Qed.

Lemma select_embeddings_never_raises :
  forall s e, UmapReduce.select_embeddings s <> Raise e.
Proof. intros s e; unfold UmapReduce.select_embeddings; discriminate. Qed.

Lemma verify_update_on_ok :
  forall s, has_umap_columns s = true ->
    UmapReduce.verify_update_on s = Ok (count_not_null umap_x_2d s).
Proof.
  intros s H. unfold UmapReduce.verify_update_on.
  destruct (has_x_columns _ H) as [-> _]. reflexivity.
Qed.

(** The steps after [add_umap_columns], from a connection [c]. *)
Lemma steps_forward :
  forall env s c selected data ps ws,
    UmapReduce.add_umap_columns (connect s) = (Ok tt, c) ->
    has_umap_columns (working c) = true ->
    UmapReduce.select_embeddings (working c) = Ok selected ->
    selected <> [] ->
    rmap UmapReduce.parse_row selected = Ok data ->
    UmapReduce.run_umap data = Ok ps ->
    rmap write_of_point ps = Ok ws ->
    UmapReduce.steps env (connect s)
    = (if UmapReduce.verify_fails env then Raise DatabaseError else Ok ps,
       commit {| committed := committed c;
                 working := store_after ws (working c) |}).
Proof.
  intros env s c selected data ps ws Hadd Hcols Hsel Hne Hdata Hps Hws.
  unfold UmapReduce.steps. unfold bind at 1. rewrite Hadd.
  unfold bind at 1, UmapReduce.fetch_embeddings, bind at 1, query.
  rewrite Hsel. destruct selected as [|t rest]; [congruence|].
  unfold lift at 1. rewrite Hdata.
  unfold bind at 1, lift at 1. rewrite Hps.
  unfold bind at 1, UmapReduce.update_database, bind at 1.
  rewrite (exec_each_ok write_of_point UmapReduce.update_one update_one_prep
             ps c Hws Hcols).
  unfold do_commit. unfold bind at 1, UmapReduce.verify_update.
  destruct (UmapReduce.verify_fails env); [reflexivity|].
  unfold query, commit. cbn [working committed].
  rewrite verify_update_on_ok by (rewrite store_after_columns; exact Hcols).
  reflexivity.
Qed.

Lemma steps_after_columns_forward :
  forall s c selected data ps ws written,
    UmapReduce.add_umap_columns (connect s) = (Ok tt, c) ->
    has_umap_columns (working c) = true ->
    UmapReduce.select_embeddings (working c) = Ok selected ->
    selected <> [] ->
    rmap UmapReduce.parse_row selected = Ok data ->
    UmapReduce.run_umap data = Ok ps ->
    rmap write_of_point ps = Ok ws ->
    UmapReduce.export_tsv (fun _ => false) ps = (written, Ok tt) ->
    UmapReduce.main s
    = mkProcess 0 (store_after ws (working c)) [UmapReduce.msg_complete]
        written.
Proof.
  intros s c selected data ps ws written Hadd Hcols Hsel Hne Hdata Hps Hws
         Hexp.
  unfold UmapReduce.main, UmapReduce.main_in.
  rewrite (steps_forward UmapReduce.sound s Hadd Hcols Hsel Hne Hdata Hps Hws).
  cbn [UmapReduce.verify_fails UmapReduce.disk_fails UmapReduce.sound].
  rewrite Hexp. reflexivity.
Qed.

Lemma steps_inv :
  forall env s c,
    UmapReduce.add_umap_columns (connect s) = (Ok tt, c) ->
    match UmapReduce.steps env (connect s) with
    | (Ok ps, c') =>
        exists selected data ws,
          UmapReduce.select_embeddings (working c) = Ok selected
          /\ selected <> []
          /\ rmap UmapReduce.parse_row selected = Ok data
          /\ UmapReduce.run_umap data = Ok ps
          /\ rmap write_of_point ps = Ok ws
          /\ has_umap_columns (working c) = true
          /\ committed c' = store_after ws (working c)
    | (Raise e, _) => e = SystemExit 1 \/ is_exit e = false
    end.
Proof.
  intros env s c Hadd. unfold UmapReduce.steps. unfold bind at 1.
  rewrite Hadd.
  unfold bind at 1, UmapReduce.fetch_embeddings, bind at 1, query.
  destruct (UmapReduce.select_embeddings (working c)) as [selected|e] eqn:Hsel.
  2:{ exfalso. eapply select_embeddings_never_raises; eauto. }
  destruct selected as [|t rest]; [left; reflexivity|].
  unfold lift at 1.
  destruct (rmap UmapReduce.parse_row (t :: rest)) as [data|e] eqn:Hdata.
  2:{ right. eapply rmap_raises; [|exact Hdata].
      intros x e' Hx. apply parse_row_raises in Hx. subst; reflexivity. }
  unfold bind at 1, lift at 1.
  destruct (UmapReduce.run_umap data) as [ps|e] eqn:Hps.
  2:{ right. eapply run_umap_raises; eauto. }
  unfold bind at 1, UmapReduce.update_database, bind at 1.
  destruct (exec_each UmapReduce.update_one ps c) as [[[]|e] c2] eqn:Hex.
  2:{ right. eapply exec_each_update_one_raises; eauto. }
  apply (exec_each_inv write_of_point UmapReduce.update_one update_one_prep)
    in Hex as (ws & Hws & -> & Hcols).
  assert (Hps_ne : ps <> []).
  { intros ->. unfold UmapReduce.run_umap in Hps.
    destruct (UmapReduce.vstack _) as [m|]; cbn [rbind] in Hps;
      [|discriminate].
    destruct (fit_transform _ m); simpl in Hps; [|discriminate].
    destruct (fit_transform _ m); simpl in Hps; [|discriminate].
    apply attach_spec in Hps as (Hlen & _).
    apply rmap_length in Hdata. simpl in Hlen, Hdata.
    rewrite Hdata in Hlen. discriminate. }
  specialize (Hcols Hps_ne).
  unfold do_commit. unfold bind at 1, UmapReduce.verify_update.
  destruct (UmapReduce.verify_fails env); [right; reflexivity|].
  unfold query, commit. cbn [working committed].
  rewrite verify_update_on_ok by (rewrite store_after_columns; exact Hcols).
  unfold bind, ret.
  exists (t :: rest), data, ws.
  repeat split; auto. discriminate.
Qed.

Lemma add_umap_columns_ok :
  forall c, exists c', UmapReduce.add_umap_columns c = (Ok tt, c').
Proof. intros c. rewrite add_umap_columns_spec. eauto. Qed.

(** A run of umap-reduce.py that exits with 0. *)
Lemma umap_reduce_main_success :
  forall s,
    exit_status (UmapReduce.main s) = 0 ->
    exists c selected data ps ws written,
      UmapReduce.add_umap_columns (connect s) = (Ok tt, c)
      /\ UmapReduce.select_embeddings (working c) = Ok selected
      /\ selected <> []
      /\ rmap UmapReduce.parse_row selected = Ok data
      /\ UmapReduce.run_umap data = Ok ps
      /\ rmap write_of_point ps = Ok ws
      /\ UmapReduce.export_tsv (fun _ => false) ps = (written, Ok tt)
      /\ has_umap_columns (working c) = true
      /\ UmapReduce.main s
         = mkProcess 0 (store_after ws (working c)) [UmapReduce.msg_complete]
             written.
Proof.
  intros s H. destruct (add_umap_columns_ok (connect s)) as [c Hadd].
  pose proof (steps_inv UmapReduce.sound s Hadd) as Hinv.
  unfold UmapReduce.main, UmapReduce.main_in in *.
  destruct (UmapReduce.steps UmapReduce.sound (connect s)) as [[ps|e] c'].
  - destruct Hinv as (selected & data & ws & H1 & H2 & H3 & H4 & H5
                      & H7 & H8).
    cbn [UmapReduce.disk_fails UmapReduce.sound] in *.
    destruct (UmapReduce.export_tsv (fun _ => false) ps)
      as [written [[]|e]] eqn:Hexp; [|discriminate H].
    exists c, selected, data, ps, ws, written. rewrite H8.
    repeat split; auto.
  - exfalso. destruct Hinv as [->|He]; [discriminate H|].
    destruct e; simpl in H, He; discriminate.
Qed.

End UmapReduceRuns.

(* ------------------------------------------------------------------ *)
(** ** Completeness after a successful run *)

Section Completeness.
Context {N : Numerics}.

Lemma parse_row_hash :
  forall t x, UmapReduce.parse_row t = Ok x ->
    UmapReduce.d_value_hash x = UmapReduce.hash_of t.
Proof.
  intros [[[[[h v] emb] st] sc] u] x; unfold UmapReduce.parse_row.
  destruct (UmapReduce.parse_embedding emb); simpl; [|discriminate].
  intros H; inversion H; reflexivity.
Qed.


Lemma writes_key_stable :
  forall ps ws, rmap write_of_point ps = Ok ws -> Forall key_stable ws.
Proof.
  intros ps ws H. apply rmap_ok_inv in H.
  induction H as [|p w ps ws Hp HF IH]; constructor; [|exact IH].
  apply write_of_point_inv in Hp as [Hst _]. exact Hst.
Qed.






Lemma populate_rows_complete :
  forall fault s,
    exit_status (Populate.main fault s) = 0 ->
    Forall2 (fun r r' => payload r' = payload r
                         /\ umap_x_2d r' <> None
                         /\ (umap_x_2d r = None -> complete r' = true)
                         /\ (complete r = true -> complete r' = true))
      (rows s) (rows (database (Populate.main fault s))).
Proof.
  intros fault s H.
  destruct (populate_main_success fault s H) as (_ & ws & -> & Hcover).
  simpl. apply Forall2_map_right. intros r Hin.
  assert (Hpending : umap_x_2d r = None -> complete (row_after ws r) = true).
  { intros Hnull. destruct (Hcover r Hin Hnull) as (w & Hw & Hm).
    eapply row_after_some_match; eauto. }
  split; [apply row_after_payload|]. split; [|split].
  - destruct (umap_x_2d r) eqn:E.
    + apply row_after_keeps_x_2d. congruence.
    + specialize (Hpending eq_refl). unfold complete in Hpending.
      destruct (umap_x_2d (row_after ws r)); [discriminate|].
      discriminate Hpending.
  - exact Hpending.
  - apply row_after_complete.
Qed.

Lemma complete_not_partial : forall r, complete r = true -> partial r = false.
Proof.
  intros r H. unfold complete in H. unfold partial, has_2d, has_3d.
  repeat (apply andb_prop in H as [H ?]).
  repeat match goal with E : not_null _ = true |- _ => rewrite E; clear E end.
  reflexivity.
Qed.

Lemma all_complete_counts :
  forall db s,
    Forall2 (fun r r' => complete r' = true) (rows s) (rows db) ->
    count_all db = count_all s
    /\ count_not_null umap_x_2d db = count_all s
    /\ count_not_null umap_x_3d db = count_all s
    /\ filter partial (rows db) = [].
Proof.
  intros db s HF. unfold count_all, count_not_null.
  rewrite (Forall2_length HF).
  assert (Hall : forall r', In r' (rows db) -> complete r' = true).
  { intros r' Hr'. destruct (@Forall2_in_right _ _ _ _ _ r' HF Hr')
      as (r & _ & Hc). exact Hc. }
  assert (Hf : forall col : row -> option float,
             (forall r', complete r' = true -> not_null (col r') = true) ->
             filter (fun r => not_null (col r)) (rows db) = rows db).
  { intros col Hcol. clear HF. induction (rows db) as [|r l IH];
      [reflexivity|]. simpl.
    rewrite (Hcol r (Hall r (or_introl eq_refl))). f_equal.
    apply IH. intros r' Hr'. apply Hall; right; exact Hr'. }
  split; [reflexivity|]. split; [|split].
  - rewrite Hf; [reflexivity|]. intros r' Hc. unfold complete in Hc.
    repeat (apply andb_prop in Hc as [Hc ?]). exact Hc.
  - rewrite Hf; [reflexivity|]. intros r' Hc. unfold complete in Hc.
    repeat (apply andb_prop in Hc as [Hc ?]). assumption.
  - apply filter_none. intros r' Hr'. apply complete_not_partial, Hall, Hr'.
Qed.

End Completeness.


(* ------------------------------------------------------------------ *)
(** ** Running the pipeline twice *)

(** C1.  A second run on the store a successful first run left behind
    changes no coordinate and reproduces the artifacts.
    populate-umap-coordinates.py finds nothing pending and writes nothing,
    whatever the fault schedule.  umap-reduce.py recomputes the same
    projections from the same vectors with the same seed, writes the same
    values and exports the same three files: the whole outcome (status,
    table, messages, file contents) is that of the first run. *)
Theorem second_run_changes_nothing :
  forall (N : Numerics),
    (forall fault fault' s,
        exit_status (Populate.main fault s) = 0 ->
        Populate.main fault' (database (Populate.main fault s))
        = mkProcess 0 (database (Populate.main fault s))
            [Populate.msg_nothing_to_do] [])
    /\ (forall s,
          exit_status (UmapReduce.main s) = 0 ->
          UmapReduce.main (database (UmapReduce.main s)) = UmapReduce.main s).
Proof.
  intros N; split.
  - intros fault fault' s H.
    pose proof (populate_rows_complete fault s H) as HF.
    destruct (populate_main_success fault s H) as (Hcol & ws & Hdb & _).
    apply populate_main_no_pending.
    + rewrite Hdb. exact Hcol.
    + intros r' Hr'.
      destruct (@Forall2_in_right _ _ _ _ _ r' HF Hr') as (r & _ & _ & Hx & _).
      exact Hx.
  - intros s H.
    destruct (umap_reduce_main_success s H)
      as (c & selected & data & ps & ws & written & Hadd & Hsel & Hne & Hdata
          & Hps & Hws & Hexp & Hcols & Hmain).
    rewrite Hmain. simpl database.
    set (s1 := store_after ws (working c)).
    assert (Hcols1 : has_umap_columns (working (connect s1)) = true)
      by exact Hcols.
    rewrite (@steps_after_columns_forward N s1 (connect s1) selected data ps
               ws written); auto.
    + simpl working. unfold s1.
      rewrite store_after_idempotent by (eapply writes_key_stable; eauto).
      reflexivity.
    + apply add_umap_columns_present. exact Hcols1.
    + rewrite <- Hsel. apply select_embeddings_payload. simpl.
      rewrite map_map. apply map_ext. intros r. apply row_after_payload.
Qed.

(** Three fresh records, run twice. *)
Lemma second_run_changes_nothing_witness :
  let s := Fixture.many 3 in
  exit_status (Populate.main (fun _ => false) s) = 0
  /\ exit_status (UmapReduce.main s) = 0
  /\ stdout (Populate.main (fun _ => true)
               (database (Populate.main (fun _ => false) s)))
     = [Populate.msg_nothing_to_do]
  /\ files (UmapReduce.main (database (UmapReduce.main s)))
     = files (UmapReduce.main s).
Proof.
  intros s.
  destruct (second_run_changes_nothing Fixture.integers) as [HP HU].
  split; [reflexivity|]. split; [reflexivity|]. split.
  - rewrite (HP (fun _ => false) (fun _ => true) s eq_refl). reflexivity.
  - rewrite (HU s eq_refl). reflexivity.
Defined.

(* ================================================================== *)
(** * Further properties of the scripts *)

(** ** Schema changes are additive *)

Section SchemaSafety.
Context {N : Numerics}.

Lemma ensure_loop_payload :
  forall existing cols s s',
    Update03.ensure_loop existing cols s = Ok s' ->
    map payload (rows s') = map payload (rows s).
Proof.
  intros existing; induction cols as [|[c ty] cols IH]; simpl; intros s s' H.
  - inversion H; reflexivity.
  - destruct (existsb (String.eqb c) existing); [eauto|].
    unfold add_column in H. destruct (has_column c s); [discriminate|].
    cbn [rbind] in H. apply IH in H. rewrite H. simpl.
    rewrite map_map. apply map_ext. intros r. apply payload_null_column.
Qed.

Lemma has_column_if_not_exists :
  forall c c' s,
    has_column c (add_column_if_not_exists c' s)
    = has_column c s || String.eqb c c'.
Proof.
  intros c c' s. unfold add_column_if_not_exists.
  destruct (has_column c' s) eqn:E.
  - destruct (String.eqb_spec c c') as [->|]; [|rewrite orb_false_r; reflexivity].
    rewrite E; reflexivity.
  - unfold has_column; simpl. rewrite existsb_app; simpl.
    rewrite orb_false_r; reflexivity.
Qed.

Lemma has_column_ensure_with :
  forall cols c s,
    has_column c (ensure_with cols s)
    = has_column c s || existsb (String.eqb c) cols.
Proof.
  induction cols as [|c0 cols IH]; intros c s.
  - simpl. rewrite orb_false_r; reflexivity.
  - change (ensure_with (c0 :: cols) s)
      with (ensure_with cols (add_column_if_not_exists c0 s)).
    rewrite IH, has_column_if_not_exists. simpl. rewrite orb_assoc.
    reflexivity.
Qed.

Lemma ensure_with_columns :
  forall cols s,
    exists added,
      columns (ensure_with cols s) = columns s ++ added
      /\ forall c, In c added -> In c cols.
Proof.
  induction cols as [|c0 cols IH]; intros s.
  - exists []. simpl. rewrite app_nil_r. split; [reflexivity | contradiction].
  - change (ensure_with (c0 :: cols) s)
      with (ensure_with cols (add_column_if_not_exists c0 s)).
    destruct (IH (add_column_if_not_exists c0 s)) as (added & Hc & Hin).
    unfold add_column_if_not_exists in *. destruct (has_column c0 s).
    + exists added. split; [exact Hc|]. intros c H; right; auto.
    + exists (c0 :: added). simpl in Hc. rewrite Hc, <- app_assoc.
      split; [reflexivity|]. intros c [<-|H]; [left; reflexivity|right; auto].
Qed.

Lemma not_in_existing :
  forall c s, In c umap_column_names ->
    UmapReduce.not_in c (filter (fun n => has_column n s) umap_column_names)
    = negb (has_column c s).
Proof.
  intros c s Hin. unfold UmapReduce.not_in. f_equal.
  destruct (has_column c s) eqn:E.
  - apply existsb_exists. exists c. split; [|apply String.eqb_refl].
    apply filter_In; auto.
  - destruct (existsb _ _) eqn:Ex; [|reflexivity].
    apply existsb_exists in Ex as (x & Hx & Heq).
    apply String.eqb_eq in Heq; subst x.
    apply filter_In in Hx as [_ Hx]. congruence.
Qed.

End SchemaSafety.

(** X1.  [ensure_umap_columns] of 03_update_database.py only adds: from a
    table without duplicate columns it returns a table whose columns are
    the old ones followed by the coordinate columns that were missing, each
    of the five then present exactly once; no row changes outside its
    coordinate cells; a second call returns the same table. *)
Theorem ensure_umap_columns_is_additive :
  forall (N : Numerics) (s : store),
    NoDup (columns s) ->
    exists s',
      Update03.ensure_umap_columns s = Ok s'
      /\ columns s'
         = columns s
           ++ filter (fun c => negb (has_column c s)) umap_column_names
      /\ (forall c, In c umap_column_names ->
            count_occ string_dec (columns s') c = 1%nat)
      /\ map payload (rows s') = map payload (rows s)
      /\ Update03.ensure_umap_columns s' = Ok s'.
Proof.
  intros N s Hnd.
  destruct (ensure_umap_columns_idempotent s Hnd)
    as (s' & Hrun & Hcount & _ & Hagain).
  exists s'. split; [exact Hrun|]. split; [|split; [exact Hcount|split]].
  - unfold Update03.ensure_umap_columns in Hrun.
    destruct (@ensure_loop_spec N (filter Update03.like_umap (columns s))
                Update03.columns_to_add s) as (s2 & Hrun2 & Hcols).
    + change (map fst Update03.columns_to_add) with umap_column_names.
      unfold umap_column_names.
      repeat (apply NoDup_cons; [simpl; intuition discriminate|]).
      apply NoDup_nil.
    + intros c Hc.
      change (map fst Update03.columns_to_add) with umap_column_names in Hc.
      rewrite like_umap_filter; [reflexivity|].
      simpl in Hc. repeat (destruct Hc as [<-|Hc]; [reflexivity|]).
      contradiction.
    + rewrite Hrun in Hrun2. inversion Hrun2; subst s2. exact Hcols.
  - eapply ensure_loop_payload. exact Hrun.
  - exact Hagain.
Qed.

(** A table that has the 2D columns only. *)
Lemma ensure_umap_columns_is_additive_witness :
  let s := mkStore (N := Fixture.integers)
             ["umap_x_2d"; "umap_y_2d"]%string [Fixture.fresh 1 "[1,2]"] in
  NoDup (columns s)
  /\ exists s',
       Update03.ensure_umap_columns s = Ok s'
       /\ columns s'
          = ["umap_x_2d"; "umap_y_2d"; "umap_x_3d"; "umap_y_3d";
             "umap_z_3d"]%string.
Proof.
  intros s.
  assert (Hnd : NoDup (columns s)).
  { repeat (apply NoDup_cons; [simpl; intuition discriminate|]).
    apply NoDup_nil. }
  split; [exact Hnd|].
  destruct (@ensure_umap_columns_is_additive Fixture.integers s Hnd)
    as (s' & Hrun & Hcols & _).
  exists s'. split; [exact Hrun|]. rewrite Hcols. reflexivity.
Defined.

Section AddColumns.
Context {N : Numerics}.

Lemma columns_to_add_cases :
  forall s,
    UmapReduce.columns_to_add
      (filter (fun n => has_column n s) umap_column_names)
    = (if has_column "umap_x_2d" s then []
       else ["umap_x_2d"; "umap_y_2d"]%string)
      ++ (if has_column "umap_x_3d" s then []
          else ["umap_x_3d"; "umap_y_3d"; "umap_z_3d"]%string).
Proof.
  intros s. unfold UmapReduce.columns_to_add.
  rewrite !not_in_existing by (simpl; auto).
  destruct (has_column "umap_x_2d" s), (has_column "umap_x_3d" s);
    reflexivity.
Qed.

Lemma add_umap_columns_working :
  forall c,
    exists c',
      UmapReduce.add_umap_columns c = (Ok tt, c')
      /\ working c'
         = ensure_with
             (UmapReduce.columns_to_add
                (filter (fun n => has_column n (working c))
                   umap_column_names)) (working c).
Proof.
  intros c. rewrite add_umap_columns_spec.
  destruct (UmapReduce.columns_to_add _) as [|col cols];
    eexists; split; reflexivity.
Qed.

Lemma add_umap_columns_noop :
  forall c,
    has_column "umap_x_2d" (working c) = true ->
    has_column "umap_x_3d" (working c) = true ->
    UmapReduce.add_umap_columns c = (Ok tt, c).
Proof.
  intros c H2 H3. rewrite add_umap_columns_spec, columns_to_add_cases.
  rewrite H2, H3. reflexivity.
Qed.

End AddColumns.

(** X2.  [add_umap_columns] of umap-reduce.py never raises and only adds:
    the old columns stay in place, no row changes outside its coordinate
    cells, and a second call changes nothing.  When the table has
    [umap_y_2d] whenever it has [umap_x_2d], and [umap_y_3d] and
    [umap_z_3d] whenever it has [umap_x_3d], all five columns exist
    afterwards. *)
Theorem add_umap_columns_is_additive :
  forall (N : Numerics) (c : connection),
    exists c',
      UmapReduce.add_umap_columns c = (Ok tt, c')
      /\ UmapReduce.add_umap_columns c' = (Ok tt, c')
      /\ (exists added,
            columns (working c') = columns (working c) ++ added
            /\ forall n, In n added -> In n umap_column_names)
      /\ map payload (rows (working c')) = map payload (rows (working c))
      /\ ((has_column "umap_x_2d" (working c) = true ->
           has_column "umap_y_2d" (working c) = true) ->
          (has_column "umap_x_3d" (working c) = true ->
           has_column "umap_y_3d" (working c) = true
           /\ has_column "umap_z_3d" (working c) = true) ->
          has_umap_columns (working c') = true).
Proof.
  intros N c.
  destruct (add_umap_columns_working c) as (c' & Hrun & Hw).
  rewrite columns_to_add_cases in Hw.
  exists c'. split; [exact Hrun|].
  assert (Hhas : forall n,
            has_column n (working c')
            = has_column n (working c)
              || existsb (String.eqb n)
                   ((if has_column "umap_x_2d" (working c) then []
                     else ["umap_x_2d"; "umap_y_2d"]%string)
                    ++ (if has_column "umap_x_3d" (working c) then []
                        else ["umap_x_3d"; "umap_y_3d"; "umap_z_3d"]%string))).
  { intros n. rewrite Hw. apply has_column_ensure_with. }
  split; [|split; [|split]].
  - apply add_umap_columns_noop; rewrite Hhas.
    + destruct (has_column "umap_x_2d" (working c)); reflexivity.
    + destruct (has_column "umap_x_3d" (working c));
        [reflexivity|].
      destruct (has_column "umap_x_2d" (working c)); reflexivity.
  - rewrite Hw.
    destruct (ensure_with_columns
                ((if has_column "umap_x_2d" (working c) then []
                  else ["umap_x_2d"; "umap_y_2d"]%string)
                 ++ (if has_column "umap_x_3d" (working c) then []
                     else ["umap_x_3d"; "umap_y_3d"; "umap_z_3d"]%string))
                (working c)) as (added & Hc & Hin).
    exists added. split; [exact Hc|]. intros n Hn. apply Hin in Hn.
    destruct (has_column "umap_x_2d" (working c)),
             (has_column "umap_x_3d" (working c));
      simpl in Hn |- *; intuition.
  - rewrite Hw. apply payload_ensure_with.
  - intros H2 H3. unfold has_umap_columns. simpl. rewrite !Hhas.
    destruct (has_column "umap_x_2d" (working c)) eqn:E2;
      destruct (has_column "umap_x_3d" (working c)) eqn:E3;
      try (rewrite (H2 eq_refl)); try (destruct (H3 eq_refl) as [-> ->]);
      simpl; rewrite ?orb_true_r; reflexivity.
Qed.

(** A table with the 2D pair of columns: the 3D triple is added, once. *)
Lemma add_umap_columns_is_additive_witness :
  let c := connect (mkStore (N := Fixture.integers)
                      ["umap_x_2d"; "umap_y_2d"]%string
                      [Fixture.fresh 1 "[1,2]"]) in
  exists c',
    UmapReduce.add_umap_columns c = (Ok tt, c')
    /\ has_umap_columns (working c') = true.
Proof.
  intros c.
  destruct (@add_umap_columns_is_additive Fixture.integers c)
    as (c' & Hrun & _ & _ & _ & Hall).
  exists c'. split; [exact Hrun|].
  apply Hall; [reflexivity | discriminate].
Defined.

(* ------------------------------------------------------------------ *)
(** ** The batches of the writer *)

(** X3.  The batch loop of [update_umap_coordinates]
    (populate-umap-coordinates.py) reads [range(0, len(ids), BATCH_SIZE)]
    and, per start [i], the indices from [i] to [min(i + BATCH_SIZE,
    len(ids))]: taken in order the batches list every index below
    [len(ids)] exactly once; there are [len(ids)] divided by 100, rounded
    up, of them; none is empty and none has more than 100 rows. *)
Theorem batches_partition_the_rows :
  forall n : nat,
    flat_map (chunk n) (range_step n Populate.BATCH_SIZE) = seq 0 n
    /\ List.length (range_step n Populate.BATCH_SIZE) = ((n + 99) / 100)%nat
    /\ forall i, In i (range_step n Populate.BATCH_SIZE) ->
         (1 <= List.length (chunk n i) <= 100)%nat.
Proof.
  intros n. split; [apply chunks_cover|]. split; [apply range_step_length|].
  intros i Hi. rewrite range_step_batches in Hi.
  apply in_map_iff in Hi as (k & <- & Hk). apply in_seq in Hk.
  unfold chunk. rewrite length_seq. change Populate.BATCH_SIZE with 100%nat.
  pose proof (Nat.div_mod_eq (n + 99) 100) as Hd.
  pose proof (Nat.mod_upper_bound (n + 99) 100) as Hm.
  lia.
Qed.

(* ------------------------------------------------------------------ *)
(** ** Writes go to the listed ids only *)

Section ListedIds.
Context {N : Numerics}.

Lemma keyed_no_match :
  forall keys ws r,
    Forall2 (fun k w => key_stable w /\ matches w = (fun r => id r =? k))
      keys ws ->
    ~ In (id r) keys ->
    row_after ws r = r.
Proof.
  intros keys ws r HF Hnot. apply row_after_no_match. intros w Hw.
  destruct (@Forall2_in_right _ _ _ _ _ w HF Hw) as (k & Hk & _ & Hm).
  rewrite Hm. apply Z.eqb_neq. intros E. apply Hnot. rewrite E. exact Hk.
Qed.

Lemma keyed_some_match :
  forall keys ws r,
    Forall2 (fun k w => key_stable w /\ matches w = (fun r => id r =? k))
      keys ws ->
    In (id r) keys ->
    complete (row_after ws r) = true.
Proof.
  intros keys ws r HF Hin.
  destruct (@Forall2_in_left _ _ _ _ _ (id r) HF Hin) as (w & Hw & _ & Hm).
  apply (row_after_some_match ws w r Hw). rewrite Hm. apply Z.eqb_refl.
Qed.

End ListedIds.

(** X4.  When [update_umap_coordinates] (populate-umap-coordinates.py)
    returns, its result is [len(ids)], whether or not the ids name rows of
    the table; the columns are as before; every row keeps all it held
    outside its coordinate cells; a row whose id is not among [ids] is
    unchanged, and a row whose id is among them has all five
    coordinates. *)
Theorem update_umap_coordinates_writes_listed_ids_only :
  forall (N : Numerics) fault ids coords_2d coords_3d c n c',
    Populate.update_umap_coordinates fault ids coords_2d coords_3d c
    = (Ok n, c') ->
    n = List.length ids
    /\ columns (working c') = columns (working c)
    /\ Forall2 (fun r r' => payload r' = payload r
                            /\ (~ In (id r) ids -> r' = r)
                            /\ (In (id r) ids -> complete r' = true))
         (rows (working c)) (rows (working c')).
Proof.
  intros N fault ids c2 c3 c n c' H.
  apply update_umap_coordinates_inv in H as (ts & Hts & Hn & Hw & _ & _).
  pose proof (tuple_keys_from c2 c3 ids (List.length ids) 0 Hts eq_refl)
    as HF. cbn [skipn] in HF.
  split; [exact Hn|]. rewrite Hw. split; [reflexivity|].
  simpl. apply Forall2_map_right. intros r _.
  split; [apply row_after_payload|]. split.
  - intros Hnot. eapply keyed_no_match; eauto.
  - intros Hin. eapply keyed_some_match; eauto.
Qed.

(** Two rows, one id listed: the other row is untouched, and the result
    counts the ids, including one that names no row. *)
Lemma update_umap_coordinates_writes_listed_ids_only_witness :
  let c := connect (Fixture.table [Fixture.fresh 1 "[1,2]";
                                   Fixture.fresh 2 "[3,4]"]) in
  exists c',
    Populate.update_umap_coordinates (N := Fixture.integers)
      (fun _ => false) [2; 7] [[10; 11]; [20; 21]] [[1; 2; 3]; [4; 5; 6]] c
    = (Ok 2%nat, c')
    /\ nth_error (rows (working c')) 0 = Some (Fixture.fresh 1 "[1,2]").
Proof.
  intros c.
  destruct (Populate.update_umap_coordinates (N := Fixture.integers)
              (fun _ => false) [2; 7] [[10; 11]; [20; 21]]
              [[1; 2; 3]; [4; 5; 6]] c) as [r c'] eqn:E.
  assert (Hr : r = Ok 2%nat).
  { change r with (fst (r, c')). rewrite <- E. reflexivity. }
  subst r. exists c'. split; [reflexivity|].
  destruct (update_umap_coordinates_writes_listed_ids_only _ _ _ _ _ E)
    as (_ & _ & HF).
  change (rows (working c))
    with [Fixture.fresh 1 "[1,2]"; Fixture.fresh 2 "[3,4]"] in HF.
  inversion HF as [|r0 r0' l l' (_ & Hsame & _) Hrest [E1 E2] E3]; subst.
  rewrite Hsame; [reflexivity|].
  simpl. intros [H|[H|[]]]; discriminate H.
Defined.

(* ------------------------------------------------------------------ *)
(** ** What a run of populate-umap-coordinates.py can change *)

Section PopulateSafety.
Context {N : Numerics}.
Variable fault : nat -> bool.
Variable ids : list Z.
Variables coords_2d coords_3d : list (list float).

Let bt := Populate.batch_tuple ids coords_2d coords_3d.
Let listed (w : write) : Prop :=
  exists k, In k ids /\ matches w = (fun r => id r =? k).

Lemma tuples_listed :
  forall l ts, rmap bt l = Ok ts -> Forall listed (map write_by_id ts).
Proof.
  intros l ts H. apply rmap_ok_inv in H. apply Forall_forall. intros w Hw.
  apply in_map_iff in Hw as (t & <- & Ht).
  destruct (@Forall2_in_right _ _ _ _ _ t H Ht) as (j & _ & Hj).
  apply batch_tuple_inv in Hj
    as (x2 & y2 & x3 & y3 & z3 & k & -> & _ & _ & _ & _ & _ & Hk).
  exists k. split; [eapply nth_error_In; eauto | reflexivity].
Qed.

Lemma update_batch_any :
  forall fails i c r c',
    Populate.update_batch fails ids coords_2d coords_3d i c = (r, c') ->
    (exists ts,
        rmap bt (chunk (List.length ids) i) = Ok ts
        /\ c' = {| committed := store_after (map write_by_id ts) (working c);
                   working := store_after (map write_by_id ts) (working c) |}
        /\ is_ok r = true)
    \/ (is_ok r = false /\ committed c' = committed c).
Proof.
  intros fails i c r c' H. destruct r as [n|e].
  - left. apply update_batch_inv in H as (ts & Hts & _ & Hc & _).
    exists ts. auto.
  - right. split; [reflexivity|].
    unfold Populate.update_batch, bind at 1, lift in H.
    destruct (rmap _ _) as [ts|e0]; [|inversion H; reflexivity].
    unfold bind at 1, Populate.executemany in H.
    pose proof (exec_each_committed Populate.update_query ts c) as Hcm.
    destruct (exec_each Populate.update_query ts c) as [[[]|e1] c1].
    + unfold bind, do_commit, ret in H. destruct fails.
      * inversion H; subst. exact Hcm.
      * discriminate.
    + inversion H; subst. exact Hcm.
Qed.

Lemma update_loop_committed :
  forall starts k total c r c',
    committed c = working c ->
    Populate.update_loop fault ids coords_2d coords_3d starts k total c
    = (r, c') ->
    exists ws,
      committed c' = store_after ws (working c) /\ Forall listed ws.
Proof.
  induction starts as [|i rest IH]; intros k total c r c' Hcw H.
  - simpl in H. unfold ret in H. inversion H; subst.
    exists []. rewrite store_after_nil. auto.
  - cbn [Populate.update_loop] in H. unfold bind at 1 in H.
    destruct (Populate.update_batch (fault k) ids coords_2d coords_3d i c)
      as [rb c1] eqn:Hb.
    apply update_batch_any in Hb as [(ts & Hts & -> & Hok)|[Hbad Hcm]].
    + destruct rb as [n|]; [|discriminate].
      apply IH in H as (ws & Hws & Hl); [|reflexivity].
      exists (map write_by_id ts ++ ws). split.
      * rewrite Hws. simpl. apply store_after_app.
      * apply Forall_app. split; [eapply tuples_listed; eauto | exact Hl].
    + destruct rb as [|e]; [discriminate|]. inversion H; subst.
      exists []. rewrite store_after_nil. split; [congruence | constructor].
Qed.

End PopulateSafety.

Section PopulateMain.
Context {N : Numerics}.

Lemma fetch_embeddings_conn :
  forall c, snd (Populate.fetch_embeddings c) = c.
Proof.
  intros c. unfold Populate.fetch_embeddings, bind, query.
  destruct (Populate.select_pending (working c)) as [[|t rs]|e];
    try reflexivity.
  unfold lift. destruct (of_option _ _); reflexivity.
Qed.

(** Whatever its outcome, a run leaves the table as a sequence of writes
    keyed by pending ids makes it. *)
Lemma populate_main_database :
  forall fault s,
    exists ws,
      database (Populate.main fault s) = store_after ws s
      /\ Forall (fun w =>
                   exists k,
                     In k (map id (filter (fun r => is_null (umap_x_2d r))
                                     (rows s)))
                     /\ matches w = (fun r => id r =? k)) ws.
Proof.
  intros fault s.
  assert (Hdb : forall r conn,
             Populate.steps fault (connect s) = (r, conn) ->
             database (Populate.main fault s) = committed conn).
  { intros r conn H. unfold Populate.main. rewrite H.
    destruct r as [msg|[]]; reflexivity. }
  assert (Hnone : exists ws,
             store_after [] s = store_after ws s
             /\ Forall (fun w =>
                   exists k,
                     In k (map id (filter (fun r => is_null (umap_x_2d r))
                                     (rows s)))
                     /\ matches w = (fun r => id r =? k)) ws).
  { exists []. split; [reflexivity | constructor]. }
  rewrite store_after_nil in Hnone.
  destruct (Populate.steps fault (connect s)) as [r conn] eqn:Hs.
  rewrite (Hdb r conn eq_refl). clear Hdb.
  unfold Populate.steps in Hs. unfold bind at 1 in Hs.
  pose proof (fetch_embeddings_conn (connect s)) as Hconn.
  destruct (Populate.fetch_embeddings (connect s)) as [[[[ids labels] emb]|e] c0]
    eqn:Hf; simpl in Hconn; subst c0.
  2:{ inversion Hs; subst. exact Hnone. }
  apply fetch_embeddings_inv in Hf as (_ & _ & Hperm). simpl in Hperm.
  destruct (List.length ids =? 0)%nat.
  { unfold ret in Hs. inversion Hs; subst. exact Hnone. }
  unfold bind at 1, lift in Hs.
  destruct (Populate.compute_umap_projections emb) as [[c2 c3]|e].
  2:{ inversion Hs; subst. exact Hnone. }
  unfold bind at 1 in Hs.
  destruct (Populate.update_umap_coordinates fault ids c2 c3 (connect s))
    as [ru c1] eqn:Hu.
  assert (Hc1 : conn = c1).
  { destruct ru as [n|e].
    - unfold bind, Populate.verify_population, query, ret in Hs.
      destruct (Populate.verify_population_on (working c1));
        inversion Hs; reflexivity.
    - inversion Hs; reflexivity. }
  subst conn. unfold Populate.update_umap_coordinates in Hu.
  apply update_loop_committed in Hu as (ws & Hws & Hl); [|reflexivity].
  exists ws. split; [exact Hws|].
  eapply Forall_impl; [|exact Hl]. intros w (k & Hk & Hm).
  exists k. split; [|exact Hm].
  eapply Permutation_in; [exact Hperm | exact Hk].
Qed.

End PopulateMain.

(* ------------------------------------------------------------------ *)
(** ** Completeness after a successful run *)






(** X5.  Whatever happens during a run of populate-umap-coordinates.py
    (any fault schedule, any exit status), the table it leaves has the same
    columns and the same rows in the same order, each row with everything
    it held outside its coordinate cells; and, ids being unique, a row
    that had [umap_x_2d] before the run is exactly as it was. *)
Theorem populate_never_touches_processed_rows :
  forall (N : Numerics) fault (s : store),
    NoDup (map id (rows s)) ->
    columns (database (Populate.main fault s)) = columns s
    /\ Forall2 (fun r r' => payload r' = payload r
                            /\ (umap_x_2d r <> None -> r' = r))
         (rows s) (rows (database (Populate.main fault s))).
Proof.
  intros N fault s Hnd.
  destruct (populate_main_database fault s) as (ws & -> & Hl).
  split; [reflexivity|]. simpl. apply Forall2_map_right. intros r Hin.
  split; [apply row_after_payload|]. intros Hx.
  apply row_after_no_match. intros w Hw.
  rewrite Forall_forall in Hl. destruct (Hl w Hw) as (k & Hk & ->).
  apply Z.eqb_neq. intros E.
  apply in_map_iff in Hk as (rp & Hid & Hp).
  apply filter_In in Hp as [Hinp Hnull].
  assert (rp = r).
  { eapply NoDup_map_injective_on; eauto. congruence. }
  subst rp. destruct (umap_x_2d r); [discriminate | congruence].
Qed.

(** A half-done row next to a fresh one: after the run the half-done row
    is as before. *)
Lemma populate_never_touches_processed_rows_witness :
  let s := Fixture.table [Fixture.half_done 1; Fixture.fresh 2 "[3,4]"] in
  NoDup (map id (rows s))
  /\ nth_error (rows (database (Populate.main (fun _ => false) s))) 0
     = Some (Fixture.half_done 1).
Proof.
  intros s.
  assert (Hnd : NoDup (map id (rows s))).
  { simpl. repeat (apply NoDup_cons; [simpl; intuition discriminate|]).
    apply NoDup_nil. }
  split; [exact Hnd|].
  destruct (@populate_never_touches_processed_rows Fixture.integers
              (fun _ => false) s Hnd) as [_ HF].
  change (rows s) with [Fixture.half_done 1; Fixture.fresh 2 "[3,4]"] in HF.
  remember (rows (database (Populate.main (fun _ => false) s))) as out.
  clear Heqout.
  inversion HF as [|r0 r0' l l' (_ & Hsame) Hrest]; subst.
  rewrite Hsame; [reflexivity | discriminate].
Defined.

(* ------------------------------------------------------------------ *)
(** ** The export of umap-reduce.py *)

Section ExportTsv.
Context {N : Numerics}.

Lemma idx_is_ok :
  forall {A} (v : list A) k,
    is_ok (UmapReduce.idx v k) = (k <? List.length v)%nat.
Proof.
  intros A v k. unfold UmapReduce.idx.
  destruct (nth_error v k) eqn:E; simpl; symmetry.
  - apply Nat.ltb_lt. apply nth_error_Some. congruence.
  - apply Nat.ltb_ge. apply nth_error_None. exact E.
Qed.

Lemma idx_index_error :
  forall {A} (v : list A) k e, UmapReduce.idx v k = Raise e -> e = IndexError.
Proof.
  intros A v k e. unfold UmapReduce.idx.
  destruct (nth_error v k); simpl; congruence.
Qed.

Ltac idx_cases :=
  repeat match goal with
         | |- context [UmapReduce.idx ?v ?k] =>
             let E := fresh "E" in
             pose proof (idx_is_ok v k) as E;
             destruct (UmapReduce.idx v k); cbn [rbind is_ok] in *
         end.

Ltac ltb_facts :=
  repeat match goal with
         | H : true = (_ <? _)%nat |- _ => symmetry in H; apply Nat.ltb_lt in H
         | H : false = (_ <? _)%nat |- _ => symmetry in H; apply Nat.ltb_ge in H
         end.

Lemma line_2d_is_ok :
  forall p,
    is_ok (UmapReduce.line_2d p)
    = (2 <=? List.length (UmapReduce.umap_2d p))%nat.
Proof.
  intros p. unfold UmapReduce.line_2d. idx_cases; ltb_facts; symmetry;
    first [apply Nat.leb_le; lia | apply Nat.leb_gt; lia].
Qed.

Lemma line_3d_is_ok :
  forall p,
    is_ok (UmapReduce.line_3d p)
    = (3 <=? List.length (UmapReduce.umap_3d p))%nat.
Proof.
  intros p. unfold UmapReduce.line_3d. idx_cases; ltb_facts; symmetry;
    first [apply Nat.leb_le; lia | apply Nat.leb_gt; lia].
Qed.

Lemma write_of_point_is_ok :
  forall p,
    is_ok (write_of_point p)
    = (2 <=? List.length (UmapReduce.umap_2d p))%nat
      && (3 <=? List.length (UmapReduce.umap_3d p))%nat.
Proof.
  intros p. unfold write_of_point. idx_cases; ltb_facts; symmetry;
    first [apply andb_true_iff; split; apply Nat.leb_le; lia
          | apply andb_false_iff;
            first [left; apply Nat.leb_gt; lia | right; apply Nat.leb_gt; lia]].
Qed.

Lemma line_2d_index_error :
  forall p e, UmapReduce.line_2d p = Raise e -> e = IndexError.
Proof.
  intros p e. unfold UmapReduce.line_2d.
  repeat match goal with
         | |- context [UmapReduce.idx ?v ?k] =>
             destruct (UmapReduce.idx v k) eqn:?; cbn [rbind];
             [|intros H'; inversion H'; subst; eapply idx_index_error; eauto]
         end.
  discriminate.
Qed.

Lemma line_3d_index_error :
  forall p e, UmapReduce.line_3d p = Raise e -> e = IndexError.
Proof.
  intros p e. unfold UmapReduce.line_3d.
  repeat match goal with
         | |- context [UmapReduce.idx ?v ?k] =>
             destruct (UmapReduce.idx v k) eqn:?; cbn [rbind];
             [|intros H'; inversion H'; subst; eapply idx_index_error; eauto]
         end.
  discriminate.
Qed.

(** The points [export_tsv] can print. *)
Let printable (p : UmapReduce.point) : Prop :=
  (2 <= List.length (UmapReduce.umap_2d p))%nat
  /\ (3 <= List.length (UmapReduce.umap_3d p))%nat.

Lemma write_lines_ok :
  forall (line : UmapReduce.point -> result string) data written ls,
    rmap line data = Ok ls ->
    UmapReduce.write_lines line data written
    = ((written ++ concat_strings ls)%string, Ok tt).
Proof.
  intros line; induction data as [|p rest IH]; intros written ls H;
    simpl in H.
  - inversion H; subst. simpl.
    assert (E : forall t : string, (t ++ "")%string = t).
    { induction t as [|a t IHt]; simpl; [reflexivity | rewrite IHt; reflexivity]. }
    rewrite E. reflexivity.
  - destruct (line p) as [l|] eqn:Hp; [|discriminate].
    destruct (rmap line rest) as [ls'|] eqn:Hr; [|discriminate].
    inversion H; subst. simpl. rewrite Hp, (IH _ ls' eq_refl).
    assert (E : forall a b c : string,
               ((a ++ b) ++ c)%string = (a ++ b ++ c)%string).
    { induction a as [|x a IHa]; intros b c0; simpl;
        [reflexivity | rewrite IHa; reflexivity]. }
    rewrite E. reflexivity.
Qed.

(** An exception while a file is written leaves the lines of the
    elements before the one that raised. *)
Lemma write_lines_raise :
  forall (line : UmapReduce.point -> result string) data written e,
    rmap line data = Raise e ->
    exists pre p post ls,
      data = pre ++ p :: post
      /\ rmap line pre = Ok ls
      /\ line p = Raise e
      /\ UmapReduce.write_lines line data written
         = ((written ++ concat_strings ls)%string, Raise e).
Proof.
  intros line; induction data as [|p rest IH]; intros written e H;
    simpl in H; [discriminate|].
  destruct (line p) as [l|e0] eqn:Hp.
  - destruct (rmap line rest) as [ls'|e1] eqn:Hr; [discriminate|].
    inversion H; subst.
    destruct (IH (written ++ l)%string e eq_refl)
      as (pre & q & post & ls & Hsplit & Hpre & Hq & Hw).
    exists (p :: pre), q, post, (l :: ls). simpl.
    rewrite Hp, Hpre, Hw, Hsplit.
    assert (E : forall a b c : string,
               ((a ++ b) ++ c)%string = (a ++ b ++ c)%string).
    { induction a as [|x a IHa]; intros b c0; simpl;
        [reflexivity | rewrite IHa; reflexivity]. }
    rewrite E. repeat split; auto.
  - inversion H; subst. exists [], p, rest, []. simpl. rewrite Hp.
    assert (E : forall t : string, (t ++ "")%string = t).
    { induction t as [|a t IHt]; simpl; [reflexivity | rewrite IHt; reflexivity]. }
    rewrite E. repeat split; auto.
Qed.

(** [export_tsv] on data whose lines can all be printed: only the disk
    can stop it, and it then leaves the files opened before. *)
Lemma export_tsv_lines :
  forall disk ps l2 l3,
    rmap UmapReduce.line_2d ps = Ok l2 ->
    rmap UmapReduce.line_3d ps = Ok l3 ->
    let f2 := ("embeddings_2d.tsv"%string, concat_strings l2) in
    let f3 := ("embeddings_3d.tsv"%string, concat_strings l3) in
    let fm := ("metadata.tsv"%string,
               (UmapReduce.metadata_header
                ++ concat_strings
                     (map (fun p => UmapReduce.metadata_line (UmapReduce.d p))
                        ps))%string) in
    UmapReduce.export_tsv disk ps
    = if disk 0%nat then ([], Raise OSError)
      else if disk 1%nat then ([], Raise OSError)
      else if disk 2%nat then ([f2], Raise OSError)
      else if disk 3%nat then ([f2; f3], Raise OSError)
      else ([f2; f3; fm], Ok tt).
Proof.
  intros disk ps l2 l3 H2 H3 f2 f3 fm. unfold UmapReduce.export_tsv.
  rewrite (write_lines_ok _ _ "" H2), (write_lines_ok _ _ "" H3).
  destruct (disk 0%nat), (disk 1%nat), (disk 2%nat), (disk 3%nat);
    reflexivity.
Qed.

Lemma printable_lines :
  forall ps,
    Forall printable ps ->
    exists l2 l3,
      rmap UmapReduce.line_2d ps = Ok l2
      /\ rmap UmapReduce.line_3d ps = Ok l3.
Proof.
  intros ps H. rewrite Forall_forall in H.
  destruct (rmap_all_ok UmapReduce.line_2d ps) as [l2 H2].
  { intros p Hp. rewrite line_2d_is_ok. apply Nat.leb_le, (H p Hp). }
  destruct (rmap_all_ok UmapReduce.line_3d ps) as [l3 H3].
  { intros p Hp. rewrite line_3d_is_ok. apply Nat.leb_le, (H p Hp). }
  eauto.
Qed.

Lemma export_tsv_printable :
  forall ps,
    Forall printable ps ->
    exists l2 l3,
      rmap UmapReduce.line_2d ps = Ok l2
      /\ rmap UmapReduce.line_3d ps = Ok l3
      /\ UmapReduce.export_tsv (fun _ => false) ps
         = ([("embeddings_2d.tsv"%string, concat_strings l2);
             ("embeddings_3d.tsv"%string, concat_strings l3);
             ("metadata.tsv"%string,
              (UmapReduce.metadata_header
               ++ concat_strings
                    (map (fun p => UmapReduce.metadata_line (UmapReduce.d p))
                       ps))%string)], Ok tt).
Proof.
  intros ps H. destruct (printable_lines H) as (l2 & l3 & H2 & H3).
  exists l2, l3. split; [exact H2|]. split; [exact H3|].
  rewrite (export_tsv_lines (fun _ => false) ps H2 H3). reflexivity.
Qed.

Lemma lines_printable :
  forall ps l2 l3,
    rmap UmapReduce.line_2d ps = Ok l2 ->
    rmap UmapReduce.line_3d ps = Ok l3 ->
    Forall printable ps.
Proof.
  intros ps l2 l3 H2 H3. apply Forall_forall. intros p Hp.
  apply rmap_ok_inv in H2, H3.
  destruct (@Forall2_in_left _ _ _ _ _ p H2 Hp) as (s2 & _ & Hs2).
  destruct (@Forall2_in_left _ _ _ _ _ p H3 Hp) as (s3 & _ & Hs3).
  pose proof (line_2d_is_ok p) as A2. pose proof (line_3d_is_ok p) as A3.
  rewrite Hs2 in A2. rewrite Hs3 in A3. cbn [is_ok] in A2, A3.
  symmetry in A2, A3. apply Nat.leb_le in A2, A3. split; assumption.
Qed.

(** [export_tsv] on data with an element it cannot print: [IndexError],
    after [embeddings_2d.tsv] was opened and before [metadata.tsv] is. *)
Lemma export_tsv_not_printable :
  forall ps, ~ Forall printable ps ->
    exists files pre p post,
      UmapReduce.export_tsv (fun _ => false) ps = (files, Raise IndexError)
      /\ ps = pre ++ p :: post
      /\ ((exists l2,
              rmap UmapReduce.line_2d pre = Ok l2
              /\ UmapReduce.line_2d p = Raise IndexError
              /\ files = [("embeddings_2d.tsv"%string, concat_strings l2)])
          \/ (exists l2 l3,
                rmap UmapReduce.line_2d ps = Ok l2
                /\ rmap UmapReduce.line_3d pre = Ok l3
                /\ UmapReduce.line_3d p = Raise IndexError
                /\ files = [("embeddings_2d.tsv"%string, concat_strings l2);
                            ("embeddings_3d.tsv"%string, concat_strings l3)])).
Proof.
  intros ps H. unfold UmapReduce.export_tsv.
  destruct (rmap UmapReduce.line_2d ps) as [l2|e2] eqn:H2.
  - destruct (rmap UmapReduce.line_3d ps) as [l3|e3] eqn:H3.
    + exfalso. apply H. eapply lines_printable; eauto.
    + destruct (write_lines_raise _ _ "" H3)
        as (pre & p & post & ls & Hsplit & Hpre & Hp & Hw).
      assert (e3 = IndexError) by (eapply line_3d_index_error; eauto).
      subst e3.
      rewrite (write_lines_ok _ _ "" H2), Hw.
      exists [("embeddings_2d.tsv"%string, concat_strings l2);
              ("embeddings_3d.tsv"%string, concat_strings ls)], pre, p, post.
      split; [reflexivity|]. split; [exact Hsplit|]. right.
      exists l2, ls. auto.
  - destruct (write_lines_raise _ _ "" H2)
      as (pre & p & post & ls & Hsplit & Hpre & Hp & Hw).
    assert (e2 = IndexError) by (eapply line_2d_index_error; eauto).
    subst e2. rewrite Hw.
    exists [("embeddings_2d.tsv"%string, concat_strings ls)], pre, p, post.
    split; [reflexivity|]. split; [exact Hsplit|]. left.
    exists ls. auto.
Qed.

Lemma writes_printable :
  forall ps ws, rmap write_of_point ps = Ok ws -> Forall printable ps.
Proof.
  intros ps ws H. apply rmap_ok_inv in H. apply Forall_forall. intros p Hp.
  destruct (@Forall2_in_left _ _ _ _ _ p H Hp) as (w & _ & Hw).
  pose proof (write_of_point_is_ok p) as A. rewrite Hw in A. cbn [is_ok] in A.
  symmetry in A. apply andb_true_iff in A as [A2 A3].
  apply Nat.leb_le in A2, A3. split; assumption.
Qed.

Lemma update_database_printable :
  forall ps c c',
    UmapReduce.update_database ps c = (Ok tt, c') -> Forall printable ps.
Proof.
  intros ps c c' H. unfold UmapReduce.update_database, bind at 1 in H.
  destruct (exec_each UmapReduce.update_one ps c) as [[[]|e] c1] eqn:Hex;
    [|discriminate].
  apply (exec_each_inv write_of_point UmapReduce.update_one update_one_prep)
    in Hex as (ws & Hws & _).
  eapply writes_printable; eauto.
Qed.

End ExportTsv.

(** X6.  [export_tsv] writes its three files exactly when every element
    has two 2D and three 3D coordinates; each coordinate file is then one
    line per element.  Otherwise it raises [IndexError] at the first
    element it cannot print, having written the lines of the elements
    before it: [embeddings_2d.tsv] is left (in part, or whole with a part
    of [embeddings_3d.tsv]) and [metadata.tsv] is not written.
    [update_database] reads the same five entries, so data it has written
    is data [export_tsv] can print. *)
Theorem export_tsv_prints_what_was_written :
  forall (N : Numerics) (ps : list UmapReduce.point),
    let printable p :=
      (2 <= List.length (UmapReduce.umap_2d p))%nat
      /\ (3 <= List.length (UmapReduce.umap_3d p))%nat in
    (Forall printable ps ->
     exists l2 l3 meta,
       UmapReduce.export_tsv (fun _ => false) ps
       = ([("embeddings_2d.tsv"%string, concat_strings l2);
           ("embeddings_3d.tsv"%string, concat_strings l3);
           ("metadata.tsv"%string, meta)], Ok tt)
       /\ Forall2 (fun p l => UmapReduce.line_2d p = Ok l) ps l2
       /\ Forall2 (fun p l => UmapReduce.line_3d p = Ok l) ps l3)
    /\ (~ Forall printable ps ->
        exists files pre p post,
          UmapReduce.export_tsv (fun _ => false) ps
          = (files, Raise IndexError)
          /\ ps = pre ++ p :: post
          /\ ((exists l2,
                  rmap UmapReduce.line_2d pre = Ok l2
                  /\ UmapReduce.line_2d p = Raise IndexError
                  /\ files
                     = [("embeddings_2d.tsv"%string, concat_strings l2)])
              \/ (exists l2 l3,
                    rmap UmapReduce.line_2d ps = Ok l2
                    /\ rmap UmapReduce.line_3d pre = Ok l3
                    /\ UmapReduce.line_3d p = Raise IndexError
                    /\ files
                       = [("embeddings_2d.tsv"%string, concat_strings l2);
                          ("embeddings_3d.tsv"%string,
                           concat_strings l3)])))
    /\ (forall c c',
          UmapReduce.update_database ps c = (Ok tt, c') ->
          Forall printable ps
          /\ exists files,
               UmapReduce.export_tsv (fun _ => false) ps = (files, Ok tt)).
Proof.
  intros N ps printable. split; [|split].
  - intros H. destruct (export_tsv_printable H) as (l2 & l3 & H2 & H3 & E).
    exists l2, l3. eexists. split; [exact E|].
    split; apply rmap_ok_inv; assumption.
  - apply export_tsv_not_printable.
  - intros c c' H. pose proof (update_database_printable _ _ H) as Hp.
    split; [exact Hp|].
    destruct (export_tsv_printable Hp) as (l2 & l3 & _ & _ & E). eauto.
Qed.

(** Two elements with full coordinates are exported. *)
Lemma export_tsv_prints_what_was_written_witness :
  let x := UmapReduce.mkDatum (N := Fixture.integers) "h" "v" [] "t" "c" 3 in
  let ps := [UmapReduce.mkPoint x [1; 2] [3; 4; 5];
             UmapReduce.mkPoint x [6; 7] [8; 9; 10]] in
  Forall (fun p => (2 <= List.length (UmapReduce.umap_2d p))%nat
                   /\ (3 <= List.length (UmapReduce.umap_3d p))%nat) ps
  /\ exists l2 l3 meta,
       UmapReduce.export_tsv (fun _ => false) ps
       = ([("embeddings_2d.tsv"%string, concat_strings l2);
           ("embeddings_3d.tsv"%string, concat_strings l3);
           ("metadata.tsv"%string, meta)], Ok tt)
       /\ List.length l2 = 2%nat /\ List.length l3 = 2%nat.
Proof.
  intros x ps.
  assert (H : Forall (fun p => (2 <= List.length (UmapReduce.umap_2d p))%nat
                   /\ (3 <= List.length (UmapReduce.umap_3d p))%nat) ps).
  { repeat constructor. }
  split; [exact H|].
  destruct (@export_tsv_prints_what_was_written Fixture.integers ps)
    as [Hyes _].
  destruct (Hyes H) as (l2 & l3 & meta & E & F2 & F3).
  exists l2, l3, meta. split; [exact E|].
  apply Forall2_length in F2, F3. split; symmetry; assumption.
Defined.

(* ------------------------------------------------------------------ *)
(** ** umap-reduce.py: what a run leaves, in any environment *)

Section UmapReduceOutcomes.
Context {N : Numerics}.

Lemma add_umap_columns_committed :
  forall s c,
    UmapReduce.add_umap_columns (connect s) = (Ok tt, c) ->
    committed c = working c.
Proof.
  intros s c Hadd. rewrite add_umap_columns_spec in Hadd.
  inversion Hadd as [Hc].
  destruct (UmapReduce.columns_to_add _); reflexivity.
Qed.

(** The steps up to the export either stop for the data, before anything
    is committed and whatever the environment, or get through to the
    commit; the environment then decides about the verification. *)
Lemma steps_cases :
  forall s c,
    UmapReduce.add_umap_columns (connect s) = (Ok tt, c) ->
    (exists e c',
        (forall env, UmapReduce.steps env (connect s) = (Raise e, c'))
        /\ committed c' = committed c
        /\ (e = SystemExit 1 \/ is_exit e = false))
    \/ (exists ps ws,
          rmap write_of_point ps = Ok ws
          /\ has_umap_columns (working c) = true
          /\ forall env,
               UmapReduce.steps env (connect s)
               = (if UmapReduce.verify_fails env
                  then Raise DatabaseError else Ok ps,
                  commit {| committed := committed c;
                            working := store_after ws (working c) |})).
Proof.
  intros s c Hadd.
  destruct (UmapReduce.select_embeddings (working c)) as [selected|e] eqn:Hsel.
  2:{ exfalso. eapply select_embeddings_never_raises; eauto. }
  assert (Hbefore : forall e c',
             (forall env, UmapReduce.steps env (connect s) = (Raise e, c')) ->
             committed c' = committed c ->
             e = SystemExit 1 \/ is_exit e = false ->
             exists e0 c0,
               (forall env, UmapReduce.steps env (connect s) = (Raise e0, c0))
               /\ committed c0 = committed c
               /\ (e0 = SystemExit 1 \/ is_exit e0 = false)).
  { intros e c' H1 H2 H3. exists e, c'. auto. }
  destruct selected as [|t rest].
  { left. apply (Hbefore (SystemExit 1) c); auto.
    intros env. unfold UmapReduce.steps. unfold bind at 1. rewrite Hadd.
    unfold bind at 1, UmapReduce.fetch_embeddings, bind at 1, query.
    rewrite Hsel. reflexivity. }
  destruct (rmap UmapReduce.parse_row (t :: rest)) as [data|e] eqn:Hdata.
  2:{ left. apply (Hbefore e c); auto.
      - intros env. unfold UmapReduce.steps. unfold bind at 1. rewrite Hadd.
        unfold bind at 1, UmapReduce.fetch_embeddings, bind at 1, query.
        rewrite Hsel. unfold lift at 1. rewrite Hdata. reflexivity.
      - right. eapply rmap_raises; [|exact Hdata].
        intros x e' Hx. apply parse_row_raises in Hx. subst; reflexivity. }
  destruct (UmapReduce.run_umap data) as [ps|e] eqn:Hps.
  2:{ left. apply (Hbefore e c); auto.
      - intros env. unfold UmapReduce.steps. unfold bind at 1. rewrite Hadd.
        unfold bind at 1, UmapReduce.fetch_embeddings, bind at 1, query.
        rewrite Hsel. unfold lift at 1. rewrite Hdata.
        unfold bind at 1, lift at 1. rewrite Hps. reflexivity.
      - right. eapply run_umap_raises; eauto. }
  pose proof (exec_each_committed UmapReduce.update_one ps c) as Hcm.
  destruct (exec_each UmapReduce.update_one ps c) as [[[]|e] c2] eqn:Hex.
  2:{ left. apply (Hbefore e c2); auto.
      - intros env. unfold UmapReduce.steps. unfold bind at 1. rewrite Hadd.
        unfold bind at 1, UmapReduce.fetch_embeddings, bind at 1, query.
        rewrite Hsel. unfold lift at 1. rewrite Hdata.
        unfold bind at 1, lift at 1. rewrite Hps.
        unfold bind at 1, UmapReduce.update_database, bind at 1.
        rewrite Hex. reflexivity.
      - right. eapply exec_each_update_one_raises; eauto. }
  pose proof Hex as Hex'.
  apply (exec_each_inv write_of_point UmapReduce.update_one update_one_prep)
    in Hex' as (ws & Hws & _ & Hcols).
  assert (Hps_ne : ps <> []).
  { intros ->. unfold UmapReduce.run_umap in Hps.
    destruct (UmapReduce.vstack _) as [m|]; cbn [rbind] in Hps;
      [|discriminate].
    destruct (fit_transform _ m); simpl in Hps; [|discriminate].
    destruct (fit_transform _ m); simpl in Hps; [|discriminate].
    apply attach_spec in Hps as (Hlen & _).
    apply rmap_length in Hdata. simpl in Hlen, Hdata.
    rewrite Hdata in Hlen. discriminate. }
  specialize (Hcols Hps_ne).
  right. exists ps, ws. split; [exact Hws|]. split; [exact Hcols|].
  intros env.
  assert (Hne : t :: rest <> []) by discriminate.
  exact (@steps_forward N env s c (t :: rest) data ps ws Hadd Hcols Hsel Hne
           Hdata Hps Hws).
Qed.

End UmapReduceOutcomes.

(** X7.  umap-reduce.py stores all coordinates or none, and its exit
    status does not tell which.  [update_database] commits once, before
    the verification and the export.  A run that its data stops (no
    vector, a vector that does not parse, a failed projection) ends the
    same way in every environment: status 1, no file, and the table as
    [add_umap_columns] left it, which is the table as it was when
    [umap_x_2d] and [umap_x_3d] existed.  A run that its data lets through
    has stored every coordinate whatever happens afterwards: when the
    verification query fails it ends with status 1 and no file; when the
    disk first refuses operation [k] it ends with status 1 and the files
    opened before; otherwise it ends with status 0 and the three
    files. *)
Theorem umap_reduce_is_all_or_nothing :
  forall (N : Numerics) (env : UmapReduce.environment) (s : store),
    (exit_status (UmapReduce.main_in env s) = 0
     \/ exit_status (UmapReduce.main_in env s) = 1)
    /\ (exit_status (UmapReduce.main s) <> 0 ->
        UmapReduce.main_in env s = UmapReduce.main s
        /\ files (UmapReduce.main s) = []
        /\ database (UmapReduce.main s)
           = committed (snd (UmapReduce.add_umap_columns (connect s)))
        /\ (has_column "umap_x_2d" s = true ->
            has_column "umap_x_3d" s = true ->
            database (UmapReduce.main s) = s))
    /\ (exit_status (UmapReduce.main s) = 0 ->
        map fst (files (UmapReduce.main s))
        = ["embeddings_2d.tsv"; "embeddings_3d.tsv"; "metadata.tsv"]%string
        /\ database (UmapReduce.main_in env s)
           = database (UmapReduce.main s)
        /\ (UmapReduce.verify_fails env = true ->
            exit_status (UmapReduce.main_in env s) = 1
            /\ files (UmapReduce.main_in env s) = [])
        /\ (UmapReduce.verify_fails env = false ->
            (forall k,
                (k <= 3)%nat ->
                UmapReduce.disk_fails env k = true ->
                (forall j, (j < k)%nat ->
                           UmapReduce.disk_fails env j = false) ->
                exit_status (UmapReduce.main_in env s) = 1
                /\ files (UmapReduce.main_in env s)
                   = firstn (k - 1) (files (UmapReduce.main s)))
            /\ ((forall k, (k <= 3)%nat ->
                           UmapReduce.disk_fails env k = false) ->
                UmapReduce.main_in env s = UmapReduce.main s))).
Proof.
  intros N env s.
  destruct (add_umap_columns_ok (connect s)) as [c Hadd].
  destruct (steps_cases s Hadd)
    as [(e & c' & Hsteps & Hcm & He)|(ps & ws & Hws & Hcols & Hsteps)].
  - (* stopped for the data *)
    assert (Hany : forall env',
               UmapReduce.main_in env' s
               = match e with
                 | SystemExit code =>
                     mkProcess code (committed c')
                       [UmapReduce.msg_no_embeddings] []
                 | _ => mkProcess 1 (committed c') [UmapReduce.msg_error] []
                 end).
    { intros env'. unfold UmapReduce.main_in. rewrite Hsteps.
      destruct e; reflexivity. }
    assert (Hst : forall env', exit_status (UmapReduce.main_in env' s) = 1
                               /\ files (UmapReduce.main_in env' s) = []
                               /\ database (UmapReduce.main_in env' s)
                                  = committed c').
    { intros env'. rewrite Hany. destruct He as [->|He]; [auto|].
      destruct e; simpl in He; try discriminate; auto. }
    unfold UmapReduce.main.
    split; [right; apply Hst|]. split.
    + intros _. split; [rewrite !Hany; reflexivity|].
      destruct (Hst UmapReduce.sound) as (_ & Hf & Hd).
      split; [exact Hf|]. rewrite Hd, Hadd. cbn [snd].
      split; [exact Hcm|]. intros H2 H3. rewrite Hcm.
      rewrite (add_umap_columns_noop (connect s) H2 H3) in Hadd.
      inversion Hadd; subst. reflexivity.
    + intros H0. destruct (Hst UmapReduce.sound) as (H1 & _).
      rewrite H1 in H0. discriminate.
  - (* through to the commit *)
    destruct (printable_lines (writes_printable _ Hws))
      as (l2 & l3 & H2 & H3).
    pose proof (fun disk => export_tsv_lines disk ps H2 H3) as Hexp.
    cbv zeta in Hexp.
    assert (Hmain : forall env',
               UmapReduce.main_in env' s
               = if UmapReduce.verify_fails env'
                 then mkProcess 1 (store_after ws (working c))
                        [UmapReduce.msg_error] []
                 else match UmapReduce.export_tsv
                              (UmapReduce.disk_fails env') ps with
                      | (written, Ok _) =>
                          mkProcess 0 (store_after ws (working c))
                            [UmapReduce.msg_complete] written
                      | (written, Raise _) =>
                          mkProcess 1 (store_after ws (working c))
                            [UmapReduce.msg_error] written
                      end).
    { intros env'. unfold UmapReduce.main_in. rewrite Hsteps.
      destruct (UmapReduce.verify_fails env'); reflexivity. }
    assert (Hsound : UmapReduce.main s
                     = mkProcess 0 (store_after ws (working c))
                         [UmapReduce.msg_complete]
                         [("embeddings_2d.tsv"%string, concat_strings l2);
                          ("embeddings_3d.tsv"%string, concat_strings l3);
                          ("metadata.tsv"%string,
                           (UmapReduce.metadata_header
                            ++ concat_strings
                                 (map (fun p => UmapReduce.metadata_line
                                                  (UmapReduce.d p)) ps))%string)]).
    { unfold UmapReduce.main. rewrite Hmain.
      cbn [UmapReduce.verify_fails UmapReduce.disk_fails UmapReduce.sound].
      rewrite Hexp. reflexivity. }
    rewrite Hsound. cbn [exit_status files database].
    rewrite Hmain, Hexp.
    split.
    { destruct (UmapReduce.verify_fails env); [right; reflexivity|].
      destruct (UmapReduce.disk_fails env 0); [right; reflexivity|].
      destruct (UmapReduce.disk_fails env 1); [right; reflexivity|].
      destruct (UmapReduce.disk_fails env 2); [right; reflexivity|].
      destruct (UmapReduce.disk_fails env 3); [right | left]; reflexivity. }
    split; [intros H; exfalso; apply H; reflexivity|].
    intros _. split; [reflexivity|]. split.
    { destruct (UmapReduce.verify_fails env); [reflexivity|].
      destruct (UmapReduce.disk_fails env 0); [reflexivity|].
      destruct (UmapReduce.disk_fails env 1); [reflexivity|].
      destruct (UmapReduce.disk_fails env 2); [reflexivity|].
      destruct (UmapReduce.disk_fails env 3); reflexivity. }
    split.
    { intros ->. split; reflexivity. }
    intros ->. split.
    + intros k Hk Hfail Hbefore.
      assert (Hcase : k = 0%nat \/ k = 1%nat \/ k = 2%nat \/ k = 3%nat)
        by lia.
      destruct Hcase as [-> | [-> | [-> | ->]]].
      * rewrite Hfail. split; reflexivity.
      * rewrite (Hbefore 0%nat) by lia. rewrite Hfail. split; reflexivity.
      * rewrite (Hbefore 0%nat), (Hbefore 1%nat) by lia. rewrite Hfail.
        split; reflexivity.
      * rewrite (Hbefore 0%nat), (Hbefore 1%nat), (Hbefore 2%nat) by lia.
        rewrite Hfail. split; reflexivity.
    + intros Hnone.
      rewrite (Hnone 0%nat), (Hnone 1%nat), (Hnone 2%nat), (Hnone 3%nat)
        by lia.
      reflexivity.
Qed.

(** Two records, and a disk that refuses to open [metadata.tsv]: the run
    ends with status 1, the coordinates are stored and the two coordinate
    files are left. *)
Lemma umap_reduce_is_all_or_nothing_witness :
  let s := Fixture.many 2 in
  let env := UmapReduce.mkEnvironment false (fun k => Nat.eqb k 3) in
  exit_status (UmapReduce.main s) = 0
  /\ exit_status (UmapReduce.main_in env s) = 1
  /\ database (UmapReduce.main_in env s) = database (UmapReduce.main s)
  /\ files (UmapReduce.main_in env s)
     = firstn 2 (files (UmapReduce.main s)).
Proof.
  intros s env.
  assert (H0 : exit_status (UmapReduce.main s) = 0) by reflexivity.
  split; [exact H0|].
  destruct (@umap_reduce_is_all_or_nothing Fixture.integers env s)
    as (_ & _ & Hthrough).
  destruct (Hthrough H0) as (_ & Hdb & _ & Hdisk).
  destruct (Hdisk eq_refl) as [Hfirst _].
  destruct (Hfirst 3%nat) as [Hst Hfiles].
  - lia.
  - reflexivity.
  - intros j Hj. destruct j as [|[|[|j]]]; [reflexivity..|lia].
  - split; [exact Hst|]. split; [exact Hdb | exact Hfiles].
Defined.

(* ------------------------------------------------------------------ *)
(** ** The exported files line up *)

Section ExportedLines.
Context {N : Numerics}.
Hypothesis format_clean : forall x : float, clean (format_6f x) = true.

Lemma occurrences_concat :
  forall c k l,
    Forall (fun s => occurrences c s = k) l ->
    occurrences c (concat_strings l) = (k * List.length l)%nat.
Proof.
  intros c k l H. induction H as [|s l Hs _ IH]; simpl; [lia|].
  rewrite occurrences_app, Hs, IH. lia.
Qed.

Lemma format_occurrences :
  forall c x, line_breaking c = true -> occurrences c (format_6f x) = 0%nat.
Proof. intros c x Hc. apply clean_occurrences; auto. Qed.

Lemma line_2d_occurrences :
  forall p l,
    UmapReduce.line_2d p = Ok l ->
    occurrences LF l = 1%nat /\ occurrences TAB l = 1%nat.
Proof.
  intros p l. unfold UmapReduce.line_2d.
  destruct (UmapReduce.idx _ 0) as [x|]; cbn [rbind]; [|discriminate].
  destruct (UmapReduce.idx _ 1) as [y|]; cbn [rbind]; [|discriminate].
  intros H; inversion H; subst.
  split; rewrite occurrences_app; cbn [occurrences];
    rewrite occurrences_app; cbn [occurrences];
    rewrite !format_occurrences by reflexivity; reflexivity.
Qed.

Lemma line_3d_occurrences :
  forall p l,
    UmapReduce.line_3d p = Ok l ->
    occurrences LF l = 1%nat /\ occurrences TAB l = 2%nat.
Proof.
  intros p l. unfold UmapReduce.line_3d.
  destruct (UmapReduce.idx _ 0) as [x|]; cbn [rbind]; [|discriminate].
  destruct (UmapReduce.idx _ 1) as [y|]; cbn [rbind]; [|discriminate].
  destruct (UmapReduce.idx _ 2) as [z|]; cbn [rbind]; [|discriminate].
  intros H; inversion H; subst.
  split; rewrite occurrences_app; cbn [occurrences];
    rewrite occurrences_app; cbn [occurrences];
    rewrite occurrences_app; cbn [occurrences];
    rewrite !format_occurrences by reflexivity; reflexivity.
Qed.

Lemma metadata_line_occurrences :
  forall x,
    clean (UmapReduce.d_source_table x) = true ->
    clean (UmapReduce.d_source_column x) = true ->
    occurrences LF (UmapReduce.metadata_line x) = 1%nat
    /\ occurrences TAB (UmapReduce.metadata_line x) = 3%nat.
Proof.
  intros x Ht Hc. unfold UmapReduce.metadata_line. rewrite replace_chain.
  split; rewrite occurrences_app; cbn [occurrences];
    rewrite occurrences_app; cbn [occurrences];
    rewrite occurrences_app; cbn [occurrences];
    rewrite occurrences_app; cbn [occurrences];
    rewrite !clean_occurrences
      by (first [reflexivity | assumption | apply blank_breaks_clean
                | apply str_int_clean]);
    reflexivity.
Qed.

Lemma lines_occurrences :
  forall (f : UmapReduce.point -> result string) c k ps ls,
    (forall p l, f p = Ok l -> occurrences c l = k) ->
    rmap f ps = Ok ls ->
    occurrences c (concat_strings ls) = (k * List.length ps)%nat.
Proof.
  intros f c k ps ls Hf H. rewrite <- (rmap_length _ _ H).
  apply occurrences_concat. apply rmap_ok_inv in H.
  induction H; constructor; eauto.
Qed.

End ExportedLines.

(** X8.  The three exported files line up.  Formatting a number yielding
    no tab and no line break, the 2D file has one line feed and one tab
    per element, the 3D file one line feed and two tabs per element; and
    when no source table and no source column holds a tab or a line break,
    the metadata file has one line more than there are elements (its
    header) and three tabs on each line. *)
Theorem exported_files_line_up :
  forall (N : Numerics) disk (ps : list UmapReduce.point) files,
    (forall x : float, clean (format_6f x) = true) ->
    UmapReduce.export_tsv disk ps = (files, Ok tt) ->
    exists f2 f3 fm,
      files = [("embeddings_2d.tsv"%string, f2);
               ("embeddings_3d.tsv"%string, f3);
               ("metadata.tsv"%string, fm)]
      /\ occurrences LF f2 = List.length ps
      /\ occurrences TAB f2 = List.length ps
      /\ occurrences LF f3 = List.length ps
      /\ occurrences TAB f3 = (2 * List.length ps)%nat
      /\ (Forall (fun p =>
                    clean (UmapReduce.d_source_table (UmapReduce.d p)) = true
                    /\ clean (UmapReduce.d_source_column (UmapReduce.d p))
                       = true) ps ->
          occurrences LF fm = S (List.length ps)
          /\ occurrences TAB fm = (3 * S (List.length ps))%nat).
Proof.
  intros N disk ps files Hfmt H.
  destruct (rmap UmapReduce.line_2d ps) as [l2|e2] eqn:H2.
  2:{ exfalso. unfold UmapReduce.export_tsv in H.
      destruct (@write_lines_raise N UmapReduce.line_2d ps "" e2 H2)
        as (pre & p & post & ls & _ & _ & _ & Hw).
      rewrite Hw in H.
      destruct (disk 0%nat); [discriminate|].
      destruct (disk 1%nat); discriminate. }
  destruct (rmap UmapReduce.line_3d ps) as [l3|e3] eqn:H3.
  2:{ exfalso. unfold UmapReduce.export_tsv in H.
      destruct (@write_lines_raise N UmapReduce.line_3d ps "" e3 H3)
        as (pre & p & post & ls & _ & _ & _ & Hw).
      rewrite (@write_lines_ok N UmapReduce.line_2d ps "" l2 H2), Hw in H.
      destruct (disk 0%nat); [discriminate|].
      destruct (disk 1%nat); [discriminate|].
      destruct (disk 2%nat); discriminate. }
  rewrite (@export_tsv_lines N disk ps l2 l3 H2 H3) in H.
  exists (concat_strings l2), (concat_strings l3),
    (UmapReduce.metadata_header
     ++ concat_strings
          (map (fun p => UmapReduce.metadata_line (UmapReduce.d p)) ps))%string.
  split.
  { destruct (disk 0%nat); [discriminate|].
    destruct (disk 1%nat); [discriminate|].
    destruct (disk 2%nat); [discriminate|].
    destruct (disk 3%nat); [discriminate|]. congruence. }
  clear H.
  split; [|split; [|split; [|split]]].
  - rewrite (@lines_occurrences N UmapReduce.line_2d LF 1 ps l2); [lia| |exact H2].
    intros p l Hl. apply (@line_2d_occurrences N Hfmt p l Hl).
  - rewrite (@lines_occurrences N UmapReduce.line_2d TAB 1 ps l2); [lia| |exact H2].
    intros p l Hl. apply (@line_2d_occurrences N Hfmt p l Hl).
  - rewrite (@lines_occurrences N UmapReduce.line_3d LF 1 ps l3); [lia| |exact H3].
    intros p l Hl. apply (@line_3d_occurrences N Hfmt p l Hl).
  - rewrite (@lines_occurrences N UmapReduce.line_3d TAB 2 ps l3); [lia| |exact H3].
    intros p l Hl. apply (@line_3d_occurrences N Hfmt p l Hl).
  - intros Hsrc.
    assert (Hm : forall c k,
               (forall x, clean (UmapReduce.d_source_table x) = true ->
                          clean (UmapReduce.d_source_column x) = true ->
                          occurrences c (UmapReduce.metadata_line x) = k) ->
               occurrences c
                 (concat_strings
                    (map (fun p => UmapReduce.metadata_line (UmapReduce.d p))
                       ps))
               = (k * List.length ps)%nat).
    { intros c k Hk. rewrite <- (length_map
        (fun p => UmapReduce.metadata_line (UmapReduce.d p)) ps).
      apply occurrences_concat. apply Forall_map.
      eapply Forall_impl; [|exact Hsrc]. intros p [Ht Hc]. auto. }
    split; rewrite occurrences_app.
    + rewrite (Hm LF 1%nat); [simpl; lia|].
      intros x Ht Hc. apply (@metadata_line_occurrences N x Ht Hc).
    + rewrite (Hm TAB 3%nat); [simpl; lia|].
      intros x Ht Hc. apply (@metadata_line_occurrences N x Ht Hc).
Qed.

Lemma clean_app :
  forall s t, clean (s ++ t)%string = clean s && clean t.
Proof.
  induction s as [|a s IH]; intros t; simpl; [reflexivity|].
  rewrite IH. apply andb_assoc.
Qed.

(** One element, formatted by the integer collaborator. *)
Lemma exported_files_line_up_witness :
  let x := UmapReduce.mkDatum (N := Fixture.integers) "h" "v" [] "t" "c" 3 in
  let ps := [UmapReduce.mkPoint x [1; 2] [3; 4; 5]] in
  (forall z : Z, clean (format_6f (Numerics := Fixture.integers) z) = true)
  /\ exists f2 f3 fm,
       UmapReduce.export_tsv (fun _ => false) ps
       = ([("embeddings_2d.tsv"%string, f2);
           ("embeddings_3d.tsv"%string, f3);
           ("metadata.tsv"%string, fm)], Ok tt)
       /\ occurrences LF f2 = 1%nat
       /\ occurrences TAB f3 = 2%nat.
Proof.
  intros x ps.
  assert (Hf : forall z : Z,
             clean (format_6f (Numerics := Fixture.integers) z) = true).
  { intros z. change (clean (str_int z ++ ".000000")%string = true).
    rewrite clean_app, str_int_clean. reflexivity. }
  split; [exact Hf|].
  destruct (@exported_files_line_up Fixture.integers (fun _ => false) ps _ Hf
              eq_refl)
    as (f2 & f3 & fm & E & A & _ & _ & B & _).
  exists f2, f3, fm. split; [rewrite <- E; reflexivity|].
  split; [exact A | exact B].
Defined.

(* ------------------------------------------------------------------ *)
(** ** The writer of 03_update_database.py, on any table *)

Section Update03Any.
Context {N : Numerics}.
Variable fault : nat -> bool.
Variables umap_2d umap_3d : list (list float).

Lemma update03_loop_any :
  forall ids idx s t s' t',
    Update03.update_loop fault umap_2d umap_3d idx ids s t = (s', t') ->
    exists ws bad,
      s' = store_after ws s
      /\ (forall w, In w ws ->
            exists k, In k ids /\ matches w = (fun r => id r =? k))
      /\ Update03.updated t' = (Update03.updated t + List.length ws)%nat
      /\ Update03.failed t' = (Update03.failed t + List.length bad)%nat
      /\ Update03.warned t' = Update03.warned t ++ bad
      /\ (List.length ws + List.length bad = List.length ids)%nat
      /\ incl bad ids
      /\ (has_umap_columns s = false -> ws = []).
Proof.
  induction ids as [|k rest IH]; intros idx s t s' t' H.
  - simpl in H. inversion H; subst. exists [], [].
    rewrite store_after_nil, app_nil_r. simpl.
    repeat split; auto; try lia; try contradiction.
    intros x Hx; exact Hx.
  - cbn [Update03.update_loop] in H.
    rewrite try_update_attempt in H.
    destruct (attempt fault umap_2d umap_3d idx k) as [w|e] eqn:Ha;
      cbn [rbind] in H.
    + rewrite run_write_spec in H.
      destruct (has_umap_columns s) eqn:Hc.
      * apply IH in H as (ws & bad & -> & Hk & Hu & Hf & Hw & Hlen & Hin & _).
        exists (w :: ws), bad. cbn [Update03.updated Update03.failed
                                    Update03.warned] in *.
        split; [apply (store_after_app [w] ws)|].
        split.
        { intros w' [<-|Hw'].
          - exists k. split; [left; reflexivity|].
            apply attempt_inv in Ha. tauto.
          - destruct (Hk w' Hw') as (k' & Hk' & Hm). exists k'.
            split; [right; exact Hk' | exact Hm]. }
        simpl. repeat split; try lia; auto;
          try (intros x Hx; right; apply Hin, Hx); try congruence.
      * apply IH in H as (ws & bad & -> & Hk & Hu & Hf & Hw & Hlen & Hin & Hno).
        exists ws, (k :: bad). cbn [Update03.updated Update03.failed
                                    Update03.warned] in *.
        specialize (Hno Hc). subst ws.
        split; [reflexivity|]. split; [intros ? []|].
        simpl in *. rewrite <- app_assoc in Hw. simpl in Hw.
        repeat split; try lia; auto;
          try (intros x [<-|Hx]; [left; reflexivity | right; apply Hin, Hx]).
    + apply IH in H as (ws & bad & -> & Hk & Hu & Hf & Hw & Hlen & Hin & Hno).
      exists ws, (k :: bad). cbn [Update03.updated Update03.failed
                                  Update03.warned] in *.
      split; [reflexivity|].
      split.
      { intros w' Hw'. destruct (Hk w' Hw') as (k' & Hk' & Hm). exists k'.
        split; [right; exact Hk' | exact Hm]. }
      simpl in *. rewrite <- app_assoc in Hw. simpl in Hw.
      repeat split; try lia; auto;
        try (intros x [<-|Hx]; [left; reflexivity | right; apply Hin, Hx]).
Qed.

End Update03Any.

(** X9.  The writer of 03_update_database.py never aborts and accounts
    for every row of its input: on any table and with any statement
    failing, [updated + failed] is the number of metadata rows, each
    failure is logged with an id of the metadata, the columns are
    unchanged, every record keeps everything outside its coordinate
    cells, and a record whose id is not in the metadata is unchanged.  On
    a table that lacks a coordinate column every statement fails and the
    table is as it was. *)
Theorem update03_writer_accounts_for_every_row :
  forall (N : Numerics) fault (s : store) ids umap_2d umap_3d,
    let out := Update03.update_umap_coordinates fault s ids umap_2d umap_3d in
    (Update03.updated (snd out) + Update03.failed (snd out)
     = List.length ids)%nat
    /\ List.length (Update03.warned (snd out)) = Update03.failed (snd out)
    /\ incl (Update03.warned (snd out)) ids
    /\ columns (fst out) = columns s
    /\ Forall2 (fun r r' => payload r' = payload r
                            /\ (~ In (id r) ids -> r' = r))
         (rows s) (rows (fst out))
    /\ (has_umap_columns s = false ->
        fst out = s /\ Update03.updated (snd out) = 0%nat
        /\ Update03.failed (snd out) = List.length ids).
Proof.
  intros N fault s ids umap_2d umap_3d out.
  destruct out as [s' t'] eqn:Hout. unfold out in Hout. clear out.
  unfold Update03.update_umap_coordinates in Hout.
  apply update03_loop_any
    in Hout as (ws & bad & -> & Hk & Hu & Hf & Hw & Hlen & Hin & Hno).
  cbn [fst snd Update03.updated Update03.failed Update03.warned] in *.
  simpl in Hw. rewrite Hu, Hf, Hw.
  split; [lia|]. split; [reflexivity|]. split; [exact Hin|].
  split; [reflexivity|]. split.
  - simpl. apply Forall2_map_right. intros r _.
    split; [apply row_after_payload|]. intros Hnot.
    apply row_after_no_match. intros w Hw'.
    destruct (Hk w Hw') as (k & Hkin & ->). apply Z.eqb_neq. congruence.
  - intros Hc. specialize (Hno Hc). subst ws.
    rewrite store_after_nil. simpl in *. repeat split; lia.
Qed.

(** A table without coordinate columns: the statement fails and is
    counted. *)
Lemma update03_writer_accounts_for_every_row_witness :
  let s := mkStore (N := Fixture.integers) [] [Fixture.fresh 1 "[1,2]"] in
  let out := Update03.update_umap_coordinates (fun _ => false) s [1]
               [[1; 2]] [[3; 4; 5]] in
  has_umap_columns s = false
  /\ fst out = s /\ Update03.failed (snd out) = 1%nat.
Proof.
  intros s out.
  assert (H : has_umap_columns s = false) by reflexivity.
  split; [exact H|].
  destruct (@update03_writer_accounts_for_every_row Fixture.integers
              (fun _ => false) s [1] [[1; 2]] [[3; 4; 5]])
    as (_ & _ & _ & _ & _ & Hno).
  destruct (Hno H) as (E & _ & F). split; [exact E | exact F].
Defined.

(* ------------------------------------------------------------------ *)
(** ** Verification after the writer *)

Section VerifyAfterWrite.
Context {N : Numerics}.

Lemma aggregate_some :
  forall better (col : row -> option float) l r,
    In r l -> col r <> None -> Populate.aggregate better col l <> None.
Proof.
  intros better col; induction l as [|x l IH]; simpl; intros r Hin Hr.
  - contradiction.
  - destruct Hin as [->|Hin].
    + destruct (col r); [|congruence].
      unfold Populate.pick. destruct (Populate.aggregate better col l);
        [destruct (better f f0)|]; discriminate.
    + destruct (col x).
      * unfold Populate.pick. destruct (Populate.aggregate better col l);
          [destruct (better f f0)|]; discriminate.
      * eapply IH; eauto.
Qed.

Lemma aggregate_none :
  forall better (col : row -> option float) l,
    (forall r, In r l -> col r = None) ->
    Populate.aggregate better col l = None.
Proof.
  intros better col; induction l as [|x l IH]; simpl; intros H.
  - reflexivity.
  - rewrite (H x) by (left; reflexivity). apply IH. intros r Hr.
    apply H. right. exact Hr.
Qed.

Lemma fmt_range_complete :
  forall s r col,
    In r (rows s) -> col r <> None ->
    exists lo hi,
      Populate.fmt_range (Populate.sql_min col s) (Populate.sql_max col s)
      = Ok (lo, hi).
Proof.
  intros s r col Hin Hr. unfold Populate.sql_min, Populate.sql_max.
  pose proof (aggregate_some float_leb col _ _ Hin Hr) as Hlo.
  pose proof (aggregate_some (fun x y => float_leb y x) col _ _ Hin Hr) as Hhi.
  destruct (Populate.aggregate float_leb col (rows s)) as [lo|]; [|congruence].
  destruct (Populate.aggregate _ col (rows s)) as [hi|]; [|congruence].
  exists lo, hi. reflexivity.
Qed.

(** One complete row is enough for [verify_population]. *)
Lemma verify_population_on_complete :
  forall s r,
    has_umap_columns s = true ->
    In r (rows s) -> complete r = true ->
    exists st,
      Populate.verify_population_on s = Ok st
      /\ Populate.total st = count_all s
      /\ Populate.populated_2d st = count_not_null umap_x_2d s
      /\ Populate.populated_3d st = count_not_null umap_x_3d s
      /\ List.length (Populate.ranges st) = 5%nat.
Proof.
  intros s r Hcols Hin Hc. unfold Populate.verify_population_on.
  rewrite Hcols. cbn [negb]. unfold Populate.true_div.
  assert (Hne : (count_all s =? 0) = false).
  { apply Z.eqb_neq. unfold count_all. destruct (rows s); [contradiction|].
    simpl. lia. }
  rewrite Hne. cbn [rbind].
  unfold complete in Hc. repeat (apply andb_prop in Hc as [Hc ?]).
  assert (Hnn : forall col : row -> option float,
             not_null (col r) = true -> col r <> None).
  { intros col H'. destruct (col r); [discriminate | discriminate H']. }
  destruct (@fmt_range_complete s r umap_x_2d Hin (Hnn _ Hc)) as (a1 & b1 & E1).
  destruct (@fmt_range_complete s r umap_y_2d Hin) as (a2 & b2 & E2); auto.
  destruct (@fmt_range_complete s r umap_x_3d Hin) as (a3 & b3 & E3); auto.
  destruct (@fmt_range_complete s r umap_y_3d Hin) as (a4 & b4 & E4); auto.
  destruct (@fmt_range_complete s r umap_z_3d Hin) as (a5 & b5 & E5); auto.
  cbn [rmap]. rewrite E1, E2, E3, E4, E5. cbn [rbind].
  eexists. split; [reflexivity|]. repeat split.
Qed.

End VerifyAfterWrite.

(** X10.  In populate-umap-coordinates.py the verification cannot be the
    step that fails.  Once [fetch_embeddings] has returned pending ids,
    the projections are computed and [update_umap_coordinates] has
    returned, the table has the five columns, at least one row, and a
    non-NULL value in every coordinate column: [verify_population] prints
    its statistics over as many rows as the table had, and the run ends
    with status 0 and the success message, the table being the one the
    writer committed. *)
Theorem verification_cannot_fail_after_the_writer :
  forall (N : Numerics) fault (s : store) ids labels embeddings
         coords_2d coords_3d n c',
    Populate.fetch_embeddings (connect s)
    = (Ok (ids, labels, embeddings), connect s) ->
    ids <> [] ->
    Populate.compute_umap_projections embeddings = Ok (coords_2d, coords_3d) ->
    Populate.update_umap_coordinates fault ids coords_2d coords_3d (connect s)
    = (Ok n, c') ->
    (exists st,
        Populate.verify_population c' = (Ok st, c')
        /\ Populate.total st = count_all s
        /\ List.length (Populate.ranges st) = 5%nat)
    /\ Populate.main fault s
       = mkProcess 0 (working c') [Populate.msg_success] [].
Proof.
  intros N fault s ids labels emb c2 c3 n c' Hfetch Hne Hproj Hupd.
  pose proof Hfetch as Hf.
  apply fetch_embeddings_inv in Hf as (_ & _ & Hperm). cbn [working connect] in Hperm.
  pose proof Hupd as Hu.
  apply update_umap_coordinates_inv in Hu as (ts & Hts & _ & Hw & Hcw & _).
  destruct (Hcw Hne) as [Hcm Hcols]. cbn [working connect] in Hw, Hcols.
  pose proof (tuple_keys_from c2 c3 ids (List.length ids) 0 Hts eq_refl)
    as HF. cbn [skipn] in HF.
  destruct ids as [|k ids'] eqn:Hids; [congruence|]. rewrite <- Hids in *.
  assert (Hk : In k ids) by (rewrite Hids; left; reflexivity).
  pose proof (Permutation_in k Hperm Hk) as Hin.
  apply in_map_iff in Hin as (r & Hid & Hr). apply filter_In in Hr as [Hr _].
  assert (Hst : exists st,
             Populate.verify_population_on (working c') = Ok st
             /\ Populate.total st = count_all s
             /\ List.length (Populate.ranges st) = 5%nat).
  { destruct (@verify_population_on_complete N (working c')
                (row_after (map write_by_id ts) r))
      as (st & E & Ht & _ & _ & Hl).
    - rewrite Hw, store_after_columns. exact Hcols.
    - rewrite Hw. simpl. apply in_map. exact Hr.
    - eapply keyed_some_match; [exact HF|]. rewrite Hid. exact Hk.
    - exists st. split; [exact E|]. split; [|exact Hl].
      rewrite Ht, Hw. unfold count_all, store_after. simpl.
      rewrite length_map. reflexivity. }
  destruct Hst as (st & E & Ht & Hl).
  split.
  - exists st. unfold Populate.verify_population, query. rewrite E. auto.
  - unfold Populate.main, Populate.steps, bind at 1. rewrite Hfetch.
    assert (Hlen : (List.length ids =? 0)%nat = false).
    { rewrite Hids. reflexivity. }
    rewrite Hlen. unfold bind at 1, lift. rewrite Hproj.
    unfold bind at 1. rewrite Hupd.
    unfold bind at 1, Populate.verify_population, query. rewrite E.
    unfold ret. rewrite Hcm. reflexivity.
Qed.

(** Two pending rows. *)
Lemma verification_cannot_fail_after_the_writer_witness :
  exit_status (Populate.main (fun _ => false) (Fixture.many 2)) = 0
  /\ stdout (Populate.main (fun _ => false) (Fixture.many 2))
     = [Populate.msg_success].
Proof.
  destruct (Populate.update_umap_coordinates (N := Fixture.integers)
              (fun _ => false) [1; 2] [[3; 4]; [3; 4]]
              [[3; 4; 5]; [3; 4; 5]] (connect (Fixture.many 2)))
    as [r c'] eqn:E.
  assert (Hr : r = Ok 2%nat).
  { change r with (fst (r, c')). rewrite <- E. reflexivity. }
  subst r.
  destruct (@verification_cannot_fail_after_the_writer Fixture.integers
              (fun _ => false) (Fixture.many 2) [1; 2] ["label"; "label"]%string
              [[1; 2]; [1; 2]] [[3; 4]; [3; 4]] [[3; 4; 5]; [3; 4; 5]]
              2%nat c' eq_refl ltac:(discriminate) eq_refl E) as [_ ->].
  split; reflexivity.
Defined.

Section VerifyRanges.
Context {N : Numerics}.

Lemma fmt_range_type_error :
  forall lo hi e, Populate.fmt_range lo hi = Raise e -> e = TypeError.
Proof.
  intros [a|] [b|] e H; simpl in H; congruence.
Qed.

End VerifyRanges.

(** X11.  On a table with the five columns and at least one row,
    [verify_population] returns its statistics exactly when every
    coordinate column holds a value in some row; a coordinate column that
    is NULL in every row makes it raise [TypeError] (its [MIN] and [MAX]
    are [None], which [:.2f] cannot format). *)
Theorem verify_population_needs_a_value_in_every_column :
  forall (N : Numerics) (s : store),
    let coordinate_columns :=
      [umap_x_2d; umap_y_2d; umap_x_3d; umap_y_3d; umap_z_3d] in
    has_umap_columns s = true ->
    rows s <> [] ->
    ((forall col, In col coordinate_columns ->
        exists r, In r (rows s) /\ col r <> None) ->
     exists st, Populate.verify_population_on s = Ok st)
    /\ ((exists col, In col coordinate_columns
                     /\ forall r, In r (rows s) -> col r = None) ->
        Populate.verify_population_on s = Raise TypeError).
Proof.
  intros N s cols Hcols Hne.
  assert (Hz : (count_all s =? 0) = false).
  { apply Z.eqb_neq. unfold count_all. destruct (rows s); [congruence|].
    simpl. lia. }
  unfold Populate.verify_population_on. rewrite Hcols. cbn [negb].
  unfold Populate.true_div. rewrite Hz. cbn [rbind]. fold cols.
  split.
  - intros Hall.
    destruct (rmap_all_ok
                (fun col => Populate.fmt_range (Populate.sql_min col s)
                              (Populate.sql_max col s)) cols) as [rs Hrs].
    { intros col Hcol. destruct (Hall col Hcol) as (r & Hin & Hr).
      destruct (@fmt_range_complete N s r col Hin Hr) as (lo & hi & ->).
      reflexivity. }
    rewrite Hrs. cbn [rbind]. eauto.
  - intros (col & Hcol & Hnull).
    destruct (rmap_some_raise
                (fun col => Populate.fmt_range (Populate.sql_min col s)
                              (Populate.sql_max col s)) cols col Hcol)
      as [e He].
    { unfold Populate.sql_min, Populate.sql_max.
      rewrite !aggregate_none by exact Hnull. reflexivity. }
    rewrite He. cbn [rbind]. f_equal.
    apply rmap_raise_inv in He as (c0 & _ & Hc0).
    eapply fmt_range_type_error; eauto.
Qed.

(** A table whose only row has its 2D pair but no 3D triple. *)
Lemma verify_population_needs_a_value_in_every_column_witness :
  Populate.verify_population_on (Fixture.table [Fixture.half_done 1])
  = Raise TypeError.
Proof.
  destruct (@verify_population_needs_a_value_in_every_column
              Fixture.integers (Fixture.table [Fixture.half_done 1])
              eq_refl ltac:(discriminate)) as [_ H].
  apply H. exists umap_x_3d. split; [simpl; tauto|].
  intros r [<-|[]]. reflexivity.
Defined.

(* ------------------------------------------------------------------ *)
(** ** The two checkers: check_db_final.py and verify_db.py *)

Section Checkers.
Context {N : Numerics}.

Lemma any_null_complete :
  forall r, CheckDbFinal.any_null r = negb (complete r).
Proof.
  intros r. unfold CheckDbFinal.any_null, complete, not_null.
  destruct (is_null (umap_x_2d r)), (is_null (umap_y_2d r)),
    (is_null (umap_x_3d r)), (is_null (umap_y_3d r)),
    (is_null (umap_z_3d r)); reflexivity.
Qed.

Lemma filter_length_zero :
  forall {A} (f : A -> bool) l,
    List.length (filter f l) = 0%nat <-> forall x, In x l -> f x = false.
Proof.
  intros A f; induction l as [|a l IH]; simpl.
  - split; [intros _ x [] | reflexivity].
  - destruct (f a) eqn:E; simpl.
    + split; [discriminate|]. intros H. specialize (H a (or_introl eq_refl)).
      congruence.
    + rewrite IH. split.
      * intros H x [<-|Hx]; auto.
      * intros H x Hx. apply H. right. exact Hx.
Qed.

Lemma filter_all :
  forall {A} (f : A -> bool) l,
    (forall x, In x l -> f x = true) -> filter f l = l.
Proof.
  intros A f; induction l as [|a l IH]; simpl; intros H; [reflexivity|].
  rewrite (H a (or_introl eq_refl)). f_equal. apply IH.
  intros x Hx. apply H. right. exact Hx.
Qed.

Lemma null_x_2d_counted :
  forall l : list row,
    (List.length l
     <= List.length (filter (fun r => not_null (umap_x_2d r)) l)
        + List.length (filter CheckDbFinal.any_null l))%nat.
Proof.
  induction l as [|r l IH]; [simpl; lia|]. cbn [filter].
  destruct (not_null (umap_x_2d r)) eqn:E1;
    destruct (CheckDbFinal.any_null r) eqn:E2; cbn [List.length]; try lia.
  exfalso. unfold CheckDbFinal.any_null in E2. unfold not_null in E1.
  destruct (is_null (umap_x_2d r)); discriminate.
Qed.

Lemma script_inv :
  forall s cov,
    CheckDbFinal.script s = Ok cov ->
    has_umap_columns s = true
    /\ count_all s <> 0
    /\ CheckDbFinal.total cov = count_all s
    /\ CheckDbFinal.with_2d cov = count_not_null umap_x_2d s
    /\ CheckDbFinal.with_3d cov = count_not_null umap_x_3d s
    /\ CheckDbFinal.embed_count cov = count_not_null embedding_small s
    /\ CheckDbFinal.nulls cov
       = Z.of_nat (List.length (filter CheckDbFinal.any_null (rows s))).
Proof.
  intros s cov H. unfold CheckDbFinal.script in H.
  destruct (negb (has_column "umap_x_2d" s && has_column "umap_x_3d" s));
    [discriminate|].
  unfold Populate.true_div in H.
  destruct (Z.eqb_spec (count_all s) 0) as [E|E]; [discriminate|].
  cbn [rbind] in H.
  destruct (has_umap_columns s); cbn [negb] in H; [|discriminate].
  inversion H; subst. cbn. repeat split; auto.
Qed.

End Checkers.

(** X12.  check_db_final.py reports "NO NULL COORDINATES" exactly when
    every record has all five coordinates.  Its count of records with a
    NULL coordinate lies between the number of records without
    [umap_x_2d] and the total; and when it is 0 both of its coverage
    counts equal the total and verify_db.py, run on the same table,
    completes with the same three counts. *)
Theorem checkers_agree_on_complete_tables :
  forall (N : Numerics) (s : store) cov,
    CheckDbFinal.script s = Ok cov ->
    (CheckDbFinal.nulls cov = 0
     <-> forall r, In r (rows s) -> complete r = true)
    /\ CheckDbFinal.total cov - CheckDbFinal.with_2d cov
       <= CheckDbFinal.nulls cov <= CheckDbFinal.total cov
    /\ (CheckDbFinal.nulls cov = 0 ->
        CheckDbFinal.with_2d cov = CheckDbFinal.total cov
        /\ CheckDbFinal.with_3d cov = CheckDbFinal.total cov
        /\ VerifyDb.verify s
           = Ok (VerifyDb.mkReport (CheckDbFinal.total cov)
                   (CheckDbFinal.total cov) (CheckDbFinal.total cov)
                   (firstn 5 (rows s)))).
Proof.
  intros N s cov H.
  apply script_inv in H as (Hcols & Hne & Ht & H2 & H3 & _ & Hn).
  rewrite Ht, H2, Hn.
  assert (Hiff : Z.of_nat (List.length (filter CheckDbFinal.any_null (rows s)))
                 = 0
                 <-> forall r, In r (rows s) -> complete r = true).
  { rewrite <- Nat2Z.inj_0, Nat2Z.inj_iff, filter_length_zero.
    split; intros Hall r Hr; specialize (Hall r Hr);
      rewrite any_null_complete in *;
      destruct (complete r); simpl in *; congruence. }
  split; [exact Hiff|]. split.
  - unfold count_all, count_not_null. split.
    + assert (Hle : (List.length (rows s)
                     <= List.length (filter (fun r => not_null (umap_x_2d r))
                                       (rows s))
                        + List.length (filter CheckDbFinal.any_null (rows s)))%nat).
      { apply null_x_2d_counted. }
      lia.
    + apply inj_le. apply filter_length_le.
  - intros Hz0. pose proof (proj1 Hiff Hz0) as Hz.
    destruct (@all_complete_counts N s s) as (_ & E2 & E3 & _).
    { clear - Hz. induction (rows s) as [|r l IH]; constructor.
      - apply Hz. left. reflexivity.
      - apply IH. intros r' Hr'. apply Hz. right. exact Hr'. }
    rewrite H3, E2, E3. split; [reflexivity|]. split; [reflexivity|].
    unfold VerifyDb.verify. rewrite Hcols. cbn [negb].
    unfold VerifyDb.counts.
    rewrite !filter_all.
    + fold (count_all s).
      assert (Hp : forallb Update03.printable (firstn 5 (rows s)) = true).
      { apply forallb_forall. intros r Hr. apply in_firstn in Hr.
        apply (Hz r Hr). }
      rewrite Hp. reflexivity.
    + intros r Hr. specialize (Hz r Hr). unfold complete in Hz.
      unfold VerifyDb.all_3d.
      repeat (apply andb_prop in Hz as [Hz ?]).
      repeat (apply andb_true_intro; split); assumption.
    + intros r Hr. specialize (Hz r Hr). unfold complete in Hz.
      unfold VerifyDb.both_2d.
      repeat (apply andb_prop in Hz as [Hz ?]).
      apply andb_true_intro; split; assumption.
Qed.

(** One record, complete. *)
Lemma checkers_agree_on_complete_tables_witness :
  let r := mkRow (N := Fixture.integers) 1 "label" "1" (Some "[1,2]"%string)
             None "attribute" "attribute_label" 1 "2025-01-01"
             (Some 7) (Some 8) (Some 1) (Some 2) (Some 3) in
  let s := Fixture.table [r] in
  exists cov,
    CheckDbFinal.script s = Ok cov
    /\ CheckDbFinal.nulls cov = 0
    /\ VerifyDb.verify s = Ok (VerifyDb.mkReport 1 1 1 [r]).
Proof.
  intros r s. eexists. split; [reflexivity|]. split; [reflexivity|].
  destruct (@checkers_agree_on_complete_tables Fixture.integers s _ eq_refl)
    as (_ & _ & H).
  destruct (H eq_refl) as (_ & _ & E). rewrite E. reflexivity.
Defined.

(* ------------------------------------------------------------------ *)
(** ** run_pipeline.py: the loop over the steps *)

Lemma run_steps_all :
  forall run_script todo idx executed n,
    (forall st, In st todo -> run_script (fst st) = true) ->
    RunPipeline.run_steps run_script idx todo executed n
    = RunPipeline.mkOutcome 0 (executed ++ map fst todo)
        (n + List.length todo) None.
Proof.
  intros run_script; induction todo as [|[script d] rest IH];
    intros idx executed n Hall; simpl.
  - rewrite app_nil_r, Nat.add_0_r. reflexivity.
  - pose proof (Hall (script, d) (or_introl eq_refl)) as H0.
    cbn [fst] in H0. rewrite H0.
    rewrite IH by (intros st Hst; apply Hall; right; exact Hst).
    rewrite <- app_assoc. simpl. f_equal. lia.
Qed.

Lemma run_steps_first_failure :
  forall run_script pre script d post idx executed n,
    (forall st, In st pre -> run_script (fst st) = true) ->
    run_script script = false ->
    RunPipeline.run_steps run_script idx (pre ++ (script, d) :: post)
      executed n
    = RunPipeline.mkOutcome 1 (executed ++ map fst pre ++ [script])
        (n + List.length pre) (Some ((idx + List.length pre)%nat, d)).
Proof.
  intros run_script; induction pre as [|[s0 d0] pre IH];
    intros script d post idx executed n Hpre Hfail; simpl.
  - rewrite Hfail, !Nat.add_0_r. reflexivity.
  - pose proof (Hpre (s0, d0) (or_introl eq_refl)) as H0.
    cbn [fst] in H0. rewrite H0.
    rewrite IH by (auto; intros st Hst; apply Hpre; right; exact Hst).
    rewrite <- app_assoc. simpl. f_equal; [lia|]. do 2 f_equal. lia.
Qed.

(** X13.  run_pipeline.py starts nothing unless all four scripts exist;
    it runs them in order and stops at the first that fails: the scripts
    before it have run and are counted, the failing one is reported with
    its 1-based position, the ones after it are never started, and the
    status is 1.  The status is 0 only when all four have run
    successfully. *)
Theorem pipeline_stops_at_first_failure :
  forall script_exists run_script : string -> bool,
    let out := RunPipeline.main script_exists run_script in
    let names := map fst RunPipeline.steps in
    ((exists script, In script names /\ script_exists script = false) ->
     out = RunPipeline.mkOutcome 1 [] 0 None)
    /\ ((forall script, In script names -> script_exists script = true) ->
        ((forall script, In script names -> run_script script = true) ->
         out = RunPipeline.mkOutcome 0 names 4 None)
        /\ (forall pre script d post,
              RunPipeline.steps = pre ++ (script, d) :: post ->
              (forall st, In st pre -> run_script (fst st) = true) ->
              run_script script = false ->
              out = RunPipeline.mkOutcome 1 (map fst pre ++ [script])
                      (List.length pre) (Some (S (List.length pre), d))))
    /\ (RunPipeline.status out = 0 <->
        forall script, In script names ->
          script_exists script = true /\ run_script script = true).
Proof.
  intros script_exists run_script out names.
  assert (Hex : forallb (fun st => script_exists (fst st)) RunPipeline.steps
                = forallb script_exists names).
  { reflexivity. }
  assert (Hmissing : (exists script, In script names
                                     /\ script_exists script = false) ->
                     out = RunPipeline.mkOutcome 1 [] 0 None).
  { intros (script & Hin & Hno). unfold out, RunPipeline.main. rewrite Hex.
    assert (E : forallb script_exists names = false).
    { destruct (forallb script_exists names) eqn:E; [|reflexivity].
      rewrite forallb_forall in E. rewrite (E script Hin) in Hno.
      discriminate. }
    rewrite E. reflexivity. }
  assert (Hpresent : (forall script, In script names ->
                                     script_exists script = true) ->
                     out = RunPipeline.run_steps run_script 1
                             RunPipeline.steps [] 0).
  { intros Hall. unfold out, RunPipeline.main. rewrite Hex.
    assert (E : forallb script_exists names = true)
      by (apply forallb_forall; exact Hall).
    rewrite E. reflexivity. }
  assert (Hok : (forall script, In script names ->
                                script_exists script = true) ->
                (forall script, In script names ->
                                run_script script = true) ->
                out = RunPipeline.mkOutcome 0 names 4 None).
  { intros Hall Hrun. rewrite (Hpresent Hall). rewrite run_steps_all.
    - reflexivity.
    - intros st Hst. apply Hrun. unfold names. apply in_map. exact Hst. }
  assert (Hfail : (forall script, In script names ->
                                  script_exists script = true) ->
                  forall pre script d post,
                    RunPipeline.steps = pre ++ (script, d) :: post ->
                    (forall st, In st pre -> run_script (fst st) = true) ->
                    run_script script = false ->
                    out = RunPipeline.mkOutcome 1 (map fst pre ++ [script])
                            (List.length pre) (Some (S (List.length pre), d))).
  { intros Hall pre script d post Hsplit Hpre Hbad.
    rewrite (Hpresent Hall), Hsplit.
    rewrite run_steps_first_failure by assumption. reflexivity. }
  split; [exact Hmissing|].
  split; [intros Hall; split; [apply Hok; exact Hall | apply Hfail; exact Hall]|].
  split.
  - intros Hst script Hin.
    destruct (script_exists script) eqn:Es.
    2:{ rewrite Hmissing in Hst by eauto. discriminate Hst. }
    split; [reflexivity|].
    assert (Eall : forall script', In script' names ->
                                   script_exists script' = true).
    { intros s' Hs'. destruct (script_exists s') eqn:E'; [reflexivity|].
      rewrite Hmissing in Hst by eauto. discriminate Hst. }
    destruct (run_script script) eqn:Er; [reflexivity|]. exfalso.
    apply in_map_iff in Hin as ([s0 d] & Hs0 & Hin). simpl in Hs0. subst s0.
    apply in_split in Hin as (l1 & l2 & Hsplit).
    (* the first failing script of [l1 ++ [script]] *)
    assert (Hfirst : forall l1 l2 : list (string * string),
               RunPipeline.steps = l1 ++ l2 ->
               (exists st, In st l1 /\ run_script (fst st) = false) ->
               RunPipeline.status out = 1).
    { clear - Hfail Eall. intros l1. induction l1 as [|[s0 d0] l1 IH]
        using rev_ind; intros l2 Hsplit (st & Hin & Hbad);
        [contradiction|].
      destruct (forallb (fun st => run_script (fst st)) l1) eqn:Eb.
      - rewrite forallb_forall in Eb.
        apply in_app_or in Hin as [Hin|[<-|[]]].
        + rewrite (Eb st Hin) in Hbad. discriminate.
        + rewrite <- app_assoc in Hsplit. simpl in Hsplit, Hbad.
          rewrite (Hfail Eall l1 s0 d0 l2 Hsplit Eb Hbad). reflexivity.
      - rewrite <- app_assoc in Hsplit. eapply IH; [exact Hsplit|].
        apply Bool.not_true_iff_false in Eb.
        destruct (existsb (fun st => negb (run_script (fst st))) l1) eqn:Ee.
        + apply existsb_exists in Ee as (st' & Hin' & Hn).
          exists st'. split; [exact Hin'|].
          destruct (run_script (fst st')); [discriminate | reflexivity].
        + exfalso. apply Eb. apply forallb_forall. intros st' Hin'.
          destruct (run_script (fst st')) eqn:E'; [reflexivity|].
          assert (existsb (fun st => negb (run_script (fst st))) l1 = true).
          { apply existsb_exists. exists st'. rewrite E'. auto. }
          congruence. }
    assert (H1 : RunPipeline.status out = 1).
    { apply (Hfirst (l1 ++ [(script, d)]) l2).
      - rewrite <- app_assoc. exact Hsplit.
      - exists (script, d). split; [apply in_or_app; right; left; reflexivity|].
        exact Er. }
    rewrite H1 in Hst. discriminate.
  - intros Hall. rewrite Hok; [reflexivity| |]; intros script Hin;
      apply (Hall script Hin).
Qed.

(** The third script fails: two have run, the fourth is never started. *)
Lemma pipeline_stops_at_first_failure_witness :
  let run_script s := negb (String.eqb s "03_update_database.py") in
  RunPipeline.main (fun _ => true) run_script
  = RunPipeline.mkOutcome 1
      ["01_extract_embeddings.py"; "02_reduce_with_umap.py";
       "03_update_database.py"]%string 2
      (Some (3%nat, "Update database with coordinates"%string)).
Proof.
  intros run_script.
  destruct (pipeline_stops_at_first_failure (fun _ => true) run_script)
    as (_ & H & _).
  destruct (H (fun _ _ => eq_refl)) as [_ Hfail].
  apply (Hfail
           [("01_extract_embeddings.py", "Extract embeddings from database");
            ("02_reduce_with_umap.py", "Reduce dimensions with UMAP")]%string
           "03_update_database.py"%string
           "Update database with coordinates"%string
           [("04_export_tsv.py",
             "Export TSV files for TensorFlow Projector")]%string eq_refl).
  - intros st [<-|[<-|[]]]; reflexivity.
  - reflexivity.
Defined.

(* ------------------------------------------------------------------ *)
(** ** verify_setup.py: when all checks pass *)

(** X14.  verify_setup.py never reaches its summary when the environment
    file is missing: [database_url] is then read before it was assigned.
    When the file exists the summary is printed, and it is "ALL CHECKS
    PASSED" exactly when the five scripts exist, [DATABASE_URL] is set
    and not empty, both connections succeed, the table exists and the
    count of embeddings is a number other than 0. *)
Theorem setup_checks_pass_exactly_when :
  forall env : VerifySetup.environment,
    (VerifySetup.main env = VerifySetup.UnboundLocalError
     <-> VerifySetup.env_file_exists env = false)
    /\ (VerifySetup.main env = VerifySetup.AllChecksPassed
        <-> VerifySetup.env_file_exists env = true
            /\ (forall script, In script VerifySetup.required_scripts ->
                  VerifySetup.script_exists env script = true)
            /\ (exists a u, VerifySetup.DATABASE_URL env = Some (String a u))
            /\ VerifySetup.connects env 0 = true
            /\ VerifySetup.connects env 1 = true
            /\ VerifySetup.table_exists env = true
            /\ exists count,
                 VerifySetup.embedding_count env = Ok count /\ count <> 0).
Proof.
  intros env. unfold VerifySetup.main, VerifySetup.check_database_connection,
    VerifySetup.check_embeddings_exist.
  destruct (VerifySetup.env_file_exists env); cbn [negb].
  2:{ split; [tauto|]. split; [discriminate|]. intros (H & _). discriminate. }
  split.
  { split; [|discriminate].
    destruct (_ : bool); discriminate. }
  destruct (forallb (VerifySetup.script_exists env)
              VerifySetup.required_scripts) eqn:Es.
  2:{ split.
      - destruct (VerifySetup.truthy _); [|discriminate].
        destruct (VerifySetup.connects env 0); discriminate.
      - intros (_ & Hall & _). exfalso.
        apply forallb_forall in Hall. congruence. }
  rewrite forallb_forall in Es. cbn [andb].
  destruct (VerifySetup.DATABASE_URL env) as [[|a u]|] eqn:Eu;
    cbn [VerifySetup.truthy];
    try (split; [discriminate | intros (_ & _ & (a' & u' & H) & _);
                                discriminate H]).
  destruct (VerifySetup.connects env 0);
    [|split; [discriminate | intros (_ & _ & _ & H & _); discriminate H]].
  destruct (VerifySetup.connects env 1);
    [|split; [discriminate | intros (_ & _ & _ & _ & H & _); discriminate H]].
  destruct (VerifySetup.table_exists env);
    [|split; [discriminate
             | intros (_ & _ & _ & _ & _ & H & _); discriminate H]].
  destruct (VerifySetup.embedding_count env) as [count|e].
  2:{ split; [discriminate|].
      intros (_ & _ & _ & _ & _ & _ & count & H & _). discriminate H. }
  destruct (Z.eqb_spec count 0) as [E|E]; cbn [negb].
  - split; [discriminate|].
    intros (_ & _ & _ & _ & _ & _ & count' & H & Hne).
    inversion H; subst. congruence.
  - split; [|reflexivity]. intros _.
    repeat split; auto. eauto. eauto.
Qed.

(* ------------------------------------------------------------------ *)
(** ** What 01_extract_embeddings.py extracts *)

Lemma split_not_nil : forall sep s, split sep s <> [].
Proof.
  intros sep s. destruct s as [|a s]; simpl; [discriminate|].
  destruct (Ascii.eqb a sep); [discriminate|].
  destruct (split sep s); discriminate.
Qed.

Lemma split_length :
  forall sep s, List.length (split sep s) = S (occurrences sep s).
Proof.
  intros sep; induction s as [|a s IH]; simpl; [reflexivity|].
  destruct (Ascii.eqb a sep); simpl.
  - rewrite IH. reflexivity.
  - pose proof (split_not_nil sep s) as Hne.
    destruct (split sep s) as [|w ws]; [congruence|]. exact IH.
Qed.

Section Extracted.
Context {N : Numerics}.

Lemma selected_ids :
  forall l : list row,
    map Extract01.f_id
      (flat_map (fun r =>
                   match embedding_small r with
                   | Some e => [Extract01.mkFetched (id r) (value r)
                                  (value_hash r) e (source_table r)
                                  (source_column r) (usage_count r)
                                  (created_at r)]
                   | None => []
                   end) l)
    = map id (filter (fun r => not_null (embedding_small r)) l).
Proof.
  induction l as [|r l IH]; simpl; [reflexivity|].
  unfold not_null. destruct (embedding_small r); simpl; rewrite IH;
    reflexivity.
Qed.

Lemma select_embeddings_ids :
  forall s,
    StronglySorted Z.le
      (map Extract01.f_id (Extract01.select_embeddings 1536 s))
    /\ Permutation (map Extract01.f_id (Extract01.select_embeddings 1536 s))
         (map id (filter (fun r => not_null (embedding_small r)) (rows s))).
Proof.
  intros s. unfold Extract01.select_embeddings. split.
  - apply sorted_keys_ascending with (key := Extract01.f_id).
    apply order_by_sorted. intros a b.
    destruct (Z.le_ge_cases (Extract01.f_id a) (Extract01.f_id b));
      [left | right]; apply Z.leb_le; lia.
  - eapply perm_trans; [apply Permutation_map, order_by_perm|].
    change (Extract01.embedding_col 1536) with embedding_small.
    rewrite selected_ids. apply Permutation_refl.
Qed.

Lemma parse_vector_length :
  forall text v,
    Extract01.parse_vector text = Ok v ->
    List.length v
    = S (occurrences "," (strip ["["%char; "]"%char] text)).
Proof.
  intros text v H. unfold Extract01.parse_vector in H.
  apply rmap_length in H. rewrite H. apply split_length.
Qed.

Lemma ndarray_inv :
  forall vs m,
    Extract01.ndarray vs = Ok m ->
    m = vs /\ forall v w, In v vs -> In w vs -> List.length v = List.length w.
Proof.
  intros [|v0 vs] m H; simpl in H.
  - inversion H; subst. split; [reflexivity | intros ? ? []].
  - destruct (_ && _) eqn:E in H; [|discriminate]. inversion H; subst.
    split; [reflexivity|].
    assert (Hall : forall w, In w (v0 :: vs) ->
                             List.length w = List.length v0).
    { intros w Hw. apply andb_prop in E as [E0 E].
      destruct Hw as [<-|Hw]; [reflexivity|].
      rewrite forallb_forall in E. apply Nat.eqb_eq, E, Hw. }
    intros v w Hv Hw. rewrite (Hall v Hv), (Hall w Hw). reflexivity.
Qed.

End Extracted.

(** X15.  When [extract_embeddings] of 01_extract_embeddings.py returns,
    its metadata lists exactly the records that have a 1536-d vector, by
    ascending id; row [i] of the array is the vector of metadata row [i],
    and has one entry more than its stored text has commas; all rows of
    the array have the same length. *)
Theorem extraction_lists_records_with_vectors :
  forall (N : Numerics) (s : store) embeddings metadata,
    Extract01.extract_embeddings s 1536 = Ok (embeddings, metadata) ->
    let selected := Extract01.select_embeddings 1536 s in
    metadata = map Extract01.metadata_of selected
    /\ StronglySorted Z.le (map Extract01.m_id metadata)
    /\ Permutation (map Extract01.m_id metadata)
         (map id (filter (fun r => not_null (embedding_small r)) (rows s)))
    /\ Forall2 (fun f v =>
                  Extract01.parse_vector (Extract01.f_embedding_vector f)
                  = Ok v
                  /\ List.length v
                     = S (occurrences ","
                            (strip ["["%char; "]"%char]
                               (Extract01.f_embedding_vector f))))
         selected embeddings
    /\ (forall v w, In v embeddings -> In w embeddings ->
                    List.length v = List.length w).
Proof.
  intros N s emb meta H selected.
  destruct (select_embeddings_ids s) as [Hsorted Hperm].
  fold selected in Hsorted, Hperm.
  assert (Hids : map Extract01.m_id (map Extract01.metadata_of selected)
                 = map Extract01.f_id selected).
  { rewrite map_map. reflexivity. }
  unfold Extract01.extract_embeddings in H. fold selected in H.
  destruct selected as [|f0 rest] eqn:Hsel.
  - inversion H; subst. repeat split; try constructor.
    + exact Hperm.
    + intros v w [].
  - rewrite <- Hsel in *.
    destruct (rmap _ selected) as [vs|] eqn:Hvs; cbn [rbind] in H;
      [|discriminate].
    destruct (Extract01.ndarray vs) as [m|] eqn:Hm; cbn [rbind] in H;
      [|discriminate].
    inversion H; subst. apply ndarray_inv in Hm as [-> Huni].
    split; [reflexivity|]. rewrite Hids.
    split; [exact Hsorted|]. split; [exact Hperm|]. split; [|exact Huni].
    apply rmap_ok_inv in Hvs.
    eapply Forall2_impl; [|exact Hvs]. cbn beta. intros f v Hf.
    split; [exact Hf | apply parse_vector_length; exact Hf].
Qed.

(** Two records with vectors, stored out of order, and one without. *)
Lemma extraction_lists_records_with_vectors_witness :
  let bare := mkRow (N := Fixture.integers) 3 "label" "3" None None
                "attribute" "attribute_label" 1 "2025-01-01"
                None None None None None in
  let s := Fixture.table [Fixture.fresh 2 "[3,4]"; bare;
                          Fixture.fresh 1 "[1,2]"] in
  exists embeddings metadata,
    Extract01.extract_embeddings s 1536 = Ok (embeddings, metadata)
    /\ map Extract01.m_id metadata = [1; 2]
    /\ StronglySorted Z.le (map Extract01.m_id metadata).
Proof.
  intros bare s. do 2 eexists. split; [reflexivity|]. split; [reflexivity|].
  destruct (@extraction_lists_records_with_vectors Fixture.integers s _ _
              eq_refl) as (_ & Hsorted & _).
  exact Hsorted.
Defined.

(* ------------------------------------------------------------------ *)
(** ** umap-reduce.py: which coordinates a record receives *)

Lemma rmap_nth :
  forall {A B} (f : A -> result B) l ts j x,
    rmap f l = Ok ts -> nth_error l j = Some x ->
    exists t, nth_error ts j = Some t /\ f x = Ok t.
Proof.
  intros A B f; induction l as [|a l IH]; intros ts j x H Hj.
  - destruct j; discriminate.
  - simpl in H. destruct (f a) as [b|] eqn:Ha; [|discriminate].
    destruct (rmap f l) as [bs|] eqn:Hl; [|discriminate].
    inversion H; subst. destruct j as [|j]; simpl in *.
    + inversion Hj; subst. eauto.
    + eapply IH; eauto.
Qed.

Lemma NoDup_map_nth :
  forall {A B} (key : A -> B) l i j a b,
    NoDup (map key l) ->
    nth_error l i = Some a -> nth_error l j = Some b ->
    key a = key b -> i = j.
Proof.
  intros A B key l i j a b Hnd Hi Hj Hk.
  rewrite NoDup_nth_error in Hnd. apply Hnd.
  - rewrite length_map. apply nth_error_Some. congruence.
  - rewrite !nth_error_map, Hi, Hj. simpl. congruence.
Qed.

Section ByValueHash.
Context {N : Numerics}.

Lemma write_of_point_coords :
  forall p w,
    write_of_point p = Ok w ->
    nth_error (UmapReduce.umap_2d p) 0 = Some (w_x2 w)
    /\ nth_error (UmapReduce.umap_2d p) 1 = Some (w_y2 w)
    /\ nth_error (UmapReduce.umap_3d p) 0 = Some (w_x3 w)
    /\ nth_error (UmapReduce.umap_3d p) 1 = Some (w_y3 w)
    /\ nth_error (UmapReduce.umap_3d p) 2 = Some (w_z3 w).
Proof.
  intros p w. unfold write_of_point, UmapReduce.idx.
  destruct (nth_error (UmapReduce.umap_2d p) 0); cbn [of_option rbind];
    [|discriminate].
  destruct (nth_error (UmapReduce.umap_2d p) 1); cbn [of_option rbind];
    [|discriminate].
  destruct (nth_error (UmapReduce.umap_3d p) 0); cbn [of_option rbind];
    [|discriminate].
  destruct (nth_error (UmapReduce.umap_3d p) 1); cbn [of_option rbind];
    [|discriminate].
  destruct (nth_error (UmapReduce.umap_3d p) 2); cbn [of_option rbind];
    [|discriminate].
  intros H; inversion H; subst. cbn. repeat split.
Qed.

Lemma update_database_inv :
  forall ps c c',
    UmapReduce.update_database ps c = (Ok tt, c') ->
    exists ws,
      rmap write_of_point ps = Ok ws
      /\ committed c' = store_after ws (working c)
      /\ working c' = store_after ws (working c).
Proof.
  intros ps c c' H. unfold UmapReduce.update_database, bind at 1 in H.
  destruct (exec_each UmapReduce.update_one ps c) as [[[]|e] c1] eqn:Hex;
    [|discriminate].
  apply (exec_each_inv write_of_point UmapReduce.update_one update_one_prep)
    in Hex as (ws & Hws & -> & _).
  unfold do_commit, commit in H. inversion H; subst. cbn. eauto.
Qed.

End ByValueHash.

(** X16.  [update_database] of umap-reduce.py commits once, at the end,
    and keys its writes by [value_hash]: when it returns, what is
    committed is what was written; the hashes of the elements being
    distinct, every record whose [value_hash] is that of an element holds
    the first two entries of the element's [umap_2d] and the first three
    of its [umap_3d]; a record whose [value_hash] is that of no element
    is unchanged. *)
Theorem update_database_writes_by_value_hash :
  forall (N : Numerics) (ps : list UmapReduce.point) c c',
    UmapReduce.update_database ps c = (Ok tt, c') ->
    NoDup (map (fun p => UmapReduce.d_value_hash (UmapReduce.d p)) ps) ->
    committed c' = working c'
    /\ Forall2
         (fun r r' =>
            payload r' = payload r
            /\ (forall p, In p ps ->
                  value_hash r = UmapReduce.d_value_hash (UmapReduce.d p) ->
                  exists x2 y2 x3 y3 z3,
                    nth_error (UmapReduce.umap_2d p) 0 = Some x2
                    /\ nth_error (UmapReduce.umap_2d p) 1 = Some y2
                    /\ nth_error (UmapReduce.umap_3d p) 0 = Some x3
                    /\ nth_error (UmapReduce.umap_3d p) 1 = Some y3
                    /\ nth_error (UmapReduce.umap_3d p) 2 = Some z3
                    /\ holds r' x2 y2 x3 y3 z3)
            /\ ((forall p, In p ps ->
                   value_hash r <> UmapReduce.d_value_hash (UmapReduce.d p)) ->
                r' = r))
         (rows (working c)) (rows (working c')).
Proof.
  intros N ps c c' H Hnd.
  apply update_database_inv in H as (ws & Hws & Hcm & Hwk).
  split; [congruence|]. rewrite Hwk. simpl. apply Forall2_map_right.
  intros r _. split; [apply row_after_payload|]. split.
  - intros p Hp Hhash.
    apply In_nth_error in Hp as [j Hj].
    destruct (rmap_nth _ _ _ Hws Hj) as (w & Hwj & Hw).
    destruct (write_of_point_coords _ Hw) as (E1 & E2 & E3 & E4 & E5).
    exists (w_x2 w), (w_y2 w), (w_x3 w), (w_y3 w), (w_z3 w).
    repeat (split; [assumption|]).
    rewrite (@row_after_unique_match N ws j w r).
    + repeat split.
    + eapply writes_key_stable; eauto.
    + exact Hwj.
    + apply write_of_point_inv in Hw as [_ ->]. rewrite Hhash.
      apply String.eqb_refl.
    + intros j' w' Hw' Hne.
      destruct (rmap_nth_inv _ _ _ Hws Hw') as (p' & Hp' & Hwp').
      apply write_of_point_inv in Hwp' as [_ ->].
      apply String.eqb_neq. intros E. apply Hne.
      eapply (NoDup_map_nth
                (fun p => UmapReduce.d_value_hash (UmapReduce.d p)));
        eauto. cbn beta. congruence.
  - intros Hnone. apply row_after_no_match. intros w Hw.
    apply In_nth_error in Hw as [j Hj].
    destruct (rmap_nth_inv _ _ _ Hws Hj) as (p & Hp & Hwp).
    apply write_of_point_inv in Hwp as [_ ->].
    apply String.eqb_neq. apply Hnone. eapply nth_error_In; eauto.
Qed.

(** Two records, one element: the record with the element's hash is
    written, the other is untouched. *)
Lemma update_database_writes_by_value_hash_witness :
  let c := connect (Fixture.table [Fixture.fresh 1 "[1,2]";
                                   Fixture.fresh 2 "[3,4]"]) in
  let x := UmapReduce.mkDatum (N := Fixture.integers) "1" "label" [1; 2]
             "attribute" "attribute_label" 1 in
  let ps := [UmapReduce.mkPoint x [10; 11] [1; 2; 3]] in
  exists c',
    UmapReduce.update_database ps c = (Ok tt, c')
    /\ NoDup (map (fun p => UmapReduce.d_value_hash (UmapReduce.d p)) ps)
    /\ committed c' = working c'
    /\ nth_error (rows (working c')) 1 = Some (Fixture.fresh 2 "[3,4]").
Proof.
  intros c x ps.
  destruct (UmapReduce.update_database ps c) as [r c'] eqn:E.
  assert (Hr : r = Ok tt).
  { change r with (fst (r, c')). rewrite <- E. reflexivity. }
  subst r. exists c'. split; [reflexivity|].
  assert (Hnd : NoDup (map (fun p => UmapReduce.d_value_hash (UmapReduce.d p))
                         ps)).
  { repeat constructor. intros []. }
  split; [exact Hnd|].
  destruct (update_database_writes_by_value_hash ps c E Hnd) as [Hcm HF].
  split; [exact Hcm|].
  change (rows (working c))
    with [Fixture.fresh 1 "[1,2]"; Fixture.fresh 2 "[3,4]"] in HF.
  remember (rows (working c')) as out. clear Heqout.
  inversion HF as [|r0 r0' l l' _ Hrest]; subst.
  inversion Hrest as [|r1 r1' l1 l1' (_ & _ & Hsame) _]; subst.
  rewrite Hsame; [reflexivity|].
  intros p [<-|[]]. discriminate.
Defined.

(* ------------------------------------------------------------------ *)
(** ** 00_discover_database.py: the counts add up *)

Section DiscoverCounts.
Context {N : Numerics}.

Lemma sum_app :
  forall l1 l2, Discover.sum (l1 ++ l2) = Discover.sum l1 + Discover.sum l2.
Proof.
  induction l1 as [|x l1 IH]; intros l2; simpl; [reflexivity|].
  rewrite IH. lia.
Qed.

Lemma sum_perm :
  forall l1 l2, Permutation l1 l2 -> Discover.sum l1 = Discover.sum l2.
Proof.
  intros l1 l2 H. induction H; simpl; lia.
Qed.

Lemma sum_ones :
  forall {A} (l : list A),
    Discover.sum (map (fun _ => 1) l) = Z.of_nat (List.length l).
Proof.
  induction l as [|x l IH]; [reflexivity|].
  cbn [map Discover.sum fold_right List.length].
  change (fold_right Z.add 0 (map (fun _ => 1) l))
    with (Discover.sum (map (fun _ : A => 1) l)).
  rewrite IH. lia.
Qed.

Lemma count_where_sum :
  forall (p : row -> bool) l,
    Discover.count_where p l
    = Discover.sum (map (fun r => if p r then 1 else 0) l).
Proof.
  intros p. unfold Discover.count_where.
  induction l as [|r l IH]; [reflexivity|].
  cbn [filter map Discover.sum fold_right].
  change (fold_right Z.add 0 (map (fun r => if p r then 1 else 0) l))
    with (Discover.sum (map (fun r => if p r then 1 else 0) l)).
  rewrite <- IH. destruct (p r); cbn [List.length]; lia.
Qed.

Section Groups.
Variable K : Type.
Variable eqb : K -> K -> bool.
Variable key : row -> K.
Variable f : row -> Z.

Let weight (g : K * list row) : Z := Discover.sum (map f (snd g)).

Lemma add_to_group_weight :
  forall k r groups,
    Discover.sum (map weight (Discover.add_to_group eqb k r groups))
    = Discover.sum (map weight groups) + f r.
Proof.
  intros k r; induction groups as [|[k' rs] rest IH]; simpl.
  - unfold weight. simpl. lia.
  - destruct (eqb k k'); simpl.
    + unfold weight at 1 3. simpl. rewrite map_app, sum_app. simpl.
      fold (Discover.sum (map weight rest)). lia.
    + fold (Discover.sum
              (map weight (Discover.add_to_group eqb k r rest))).
      fold (Discover.sum (map weight rest)). rewrite IH. lia.
Qed.

Lemma group_by_weight_from :
  forall l groups,
    Discover.sum
      (map weight
         (fold_left (fun groups r =>
                       Discover.add_to_group eqb (key r) r groups) l groups))
    = Discover.sum (map weight groups) + Discover.sum (map f l).
Proof.
  induction l as [|r l IH]; intros groups; simpl; [lia|].
  rewrite IH, add_to_group_weight.
  fold (Discover.sum (map f l)). lia.
Qed.

(** An aggregate summed over the groups is the aggregate of the whole. *)
Lemma group_by_weight :
  forall l,
    Discover.sum (map weight (Discover.group_by eqb key l))
    = Discover.sum (map f l).
Proof.
  intros l. unfold Discover.group_by. rewrite group_by_weight_from.
  reflexivity.
Qed.

Lemma add_to_group_nonempty :
  forall k r groups,
    Forall (fun g : K * list row => snd g <> []) groups ->
    Forall (fun g : K * list row => snd g <> [])
      (Discover.add_to_group eqb k r groups).
Proof.
  intros k r; induction groups as [|[k' rs] rest IH]; simpl; intros H.
  - repeat constructor. discriminate.
  - inversion H as [|? ? Hg Hrest]; subst. destruct (eqb k k').
    + constructor; [|exact Hrest]. simpl. destruct rs; discriminate.
    + constructor; [exact Hg | apply IH, Hrest].
Qed.

Lemma group_by_nonempty :
  forall l,
    Forall (fun g : K * list row => snd g <> [])
      (Discover.group_by eqb key l).
Proof.
  intros l. unfold Discover.group_by.
  assert (H : forall groups,
             Forall (fun g : K * list row => snd g <> []) groups ->
             Forall (fun g : K * list row => snd g <> [])
               (fold_left (fun groups r =>
                             Discover.add_to_group eqb (key r) r groups)
                  l groups)).
  { induction l as [|r l IH]; intros groups Hg; simpl; [exact Hg|].
    apply IH, add_to_group_nonempty, Hg. }
  apply H. constructor.
Qed.

End Groups.

Lemma group_counts :
  forall {K} (eqb : K -> K -> bool) (key : row -> K) l,
    Discover.sum
      (map (fun g => Z.of_nat (List.length (snd g)))
         (Discover.group_by eqb key l))
    = Z.of_nat (List.length l).
Proof.
  intros K eqb key l. rewrite <- (sum_ones l).
  rewrite <- (group_by_weight eqb key (fun _ => 1) l).
  f_equal. apply map_ext. intros g. symmetry. apply sum_ones.
Qed.

Lemma group_counts_where :
  forall {K} (eqb : K -> K -> bool) (key : row -> K) (p : row -> bool) l,
    Discover.sum
      (map (fun g => Discover.count_where p (snd g))
         (Discover.group_by eqb key l))
    = Discover.count_where p l.
Proof.
  intros K eqb key p l. rewrite count_where_sum.
  rewrite <- (group_by_weight eqb key (fun r => if p r then 1 else 0) l).
  f_equal. apply map_ext. intros g. apply count_where_sum.
Qed.

(** Every embedded row is an attribute label, a description or something
    else, and only one of them. *)
Lemma categories_partition :
  forall l : list row,
    Discover.count_where Discover.embedded l
    = Discover.count_where Discover.is_attribute_label l
      + Discover.count_where Discover.is_description l
      + Discover.count_where Discover.is_other l.
Proof.
  unfold Discover.count_where.
  induction l as [|r l IH]; [reflexivity|]. cbn [filter].
  unfold Discover.is_attribute_label at 1, Discover.is_description at 1,
    Discover.is_other at 1.
  destruct (Discover.embedded r); rewrite ?andb_false_r; cbn [andb];
    [|exact IH].
  destruct (String.eqb_spec (source_column r) "description") as [E|E].
  - rewrite E. rewrite andb_false_r. cbn [negb andb List.length]. lia.
  - destruct (String.eqb (source_table r) "config_position"
              && String.eqb (source_column r) "attribute_label");
      cbn [negb andb List.length]; lia.
Qed.

End DiscoverCounts.

(** X17.  The counts 00_discover_database.py prints add up.  The
    attribute labels, the descriptions and the other data types partition
    the embeddings: their counts sum to the total to process.  The
    breakdown by source covers the table: its counts sum to the total
    number of rows, its embedding counts to the number of embeddings and
    its coordinate counts to the number of rows with 2D coordinates.  No
    group is empty.  And the script reports that all embeddings have
    coordinates exactly when no record that has a vector lacks
    [umap_x_2d]. *)
Theorem discovery_counts_add_up :
  forall (N : Numerics) (s : store) d,
    Discover.discover_database_state s = Ok d ->
    Discover.attr_count d + Discover.total_desc d
    + Discover.sum (map snd (Discover.other_rows d))
    = Discover.total_to_process d
    /\ Discover.sum (map Discover.b_count (Discover.by_source d))
       = Discover.total_rows d
    /\ Discover.sum (map Discover.b_with_embedding (Discover.by_source d))
       = Discover.embeddings_small d
    /\ Discover.sum (map Discover.b_with_umap (Discover.by_source d))
       = Discover.has_umap_2d d
    /\ Forall (fun g => 0 < snd g) (Discover.desc_rows d)
    /\ 0 <= Discover.need_umap d <= Discover.total_to_process d
    /\ (Discover.need_umap d = 0
        <-> forall r, In r (rows s) -> embedding_small r <> None ->
                      umap_x_2d r <> None).
Proof.
  intros N s d H. unfold Discover.discover_database_state in H.
  destruct (negb _); [discriminate|]. inversion H; subst; clear H.
  cbn [Discover.attr_count Discover.total_desc Discover.other_rows
       Discover.total_to_process Discover.by_source Discover.total_rows
       Discover.embeddings_small Discover.has_umap_2d Discover.desc_rows
       Discover.need_umap].
  split; [|split; [|split; [|split; [|split; [|split]]]]].
  - rewrite categories_partition. f_equal; [f_equal|].
    + rewrite (sum_perm (Permutation_map snd (order_by_perm _ _))).
      rewrite map_map. cbn [snd]. apply group_counts.
    + rewrite (sum_perm (Permutation_map snd (order_by_perm _ _))).
      rewrite map_map. cbn [snd]. apply group_counts.
  - rewrite (sum_perm (Permutation_map Discover.b_count (order_by_perm _ _))).
    rewrite map_map. cbn [Discover.b_count]. apply group_counts.
  - rewrite (sum_perm (Permutation_map Discover.b_with_embedding
                         (order_by_perm _ _))).
    rewrite map_map. cbn [Discover.b_with_embedding].
    apply group_counts_where.
  - rewrite (sum_perm (Permutation_map Discover.b_with_umap
                         (order_by_perm _ _))).
    rewrite map_map. cbn [Discover.b_with_umap].
    apply group_counts_where.
  - apply Forall_forall. intros g Hg.
    eapply Permutation_in in Hg; [|apply order_by_perm].
    apply in_map_iff in Hg as ([k rs] & <- & Hin). cbn [snd fst].
    pose proof (group_by_nonempty String.eqb source_table
                  (filter Discover.is_description (rows s))) as Hne.
    rewrite Forall_forall in Hne. specialize (Hne _ Hin). cbn [snd] in Hne.
    destruct rs; [congruence|]. simpl. lia.
  - unfold Discover.count_where. split; [lia|]. apply inj_le.
    induction (rows s) as [|r l IH]; [simpl; lia|]. cbn [filter].
    destruct (Discover.embedded r); cbn [andb].
    + destruct (is_null (umap_x_2d r)); cbn [List.length]; lia.
    + exact IH.
  - unfold Discover.count_where.
    rewrite <- Nat2Z.inj_0, Nat2Z.inj_iff, filter_length_zero.
    split.
    + intros Hall r Hin He Hx. specialize (Hall r Hin).
      unfold Discover.embedded, not_null in Hall.
      destruct (embedding_small r); [|congruence].
      destruct (umap_x_2d r); [congruence | discriminate Hall].
    + intros Hall r Hin. specialize (Hall r Hin).
      unfold Discover.embedded, not_null.
      destruct (embedding_small r); [|reflexivity].
      destruct (umap_x_2d r); [reflexivity|].
      exfalso. apply Hall; [discriminate | reflexivity].
Qed.

(** One attribute label, two descriptions of two tables, one other value
    and one record without a vector. *)
Lemma discovery_counts_add_up_witness :
  let record k table column vector :=
    mkRow (N := Fixture.integers) k "v" (str_int k) vector None table column
      1 "2025-01-01" None None None None None in
  let s := Fixture.table
             [record 1 "config_position" "attribute_label"
                (Some "[1,2]"%string);
              record 2 "config_option" "description" (Some "[1,2]"%string);
              record 3 "config_file" "description" (Some "[3,4]"%string);
              record 4 "config_file" "name" (Some "[5,6]"%string);
              record 5 "config_file" "description" None]%string in
  exists d,
    Discover.discover_database_state s = Ok d
    /\ Discover.attr_count d = 1
    /\ Discover.total_desc d = 2
    /\ Discover.total_to_process d = 4.
Proof.
  intros record s. eexists. split; [reflexivity|].
  destruct (@discovery_counts_add_up Fixture.integers s _ eq_refl)
    as (Hsum & _).
  split; [reflexivity|]. split; [reflexivity|].
  rewrite <- Hsum. reflexivity.
Defined.

(* ------------------------------------------------------------------ *)
(** ** umap-reduce.py: what [fetch_embeddings] returns *)

Section FetchedData.
Context {N : Numerics}.

Let fields_of (x : UmapReduce.datum)
  : string * string * string * string * Z :=
  (UmapReduce.d_value_hash x, UmapReduce.d_value x,
   UmapReduce.d_source_table x, UmapReduce.d_source_column x,
   UmapReduce.d_usage_count x).

Let selected_fields (t : UmapReduce.selected)
  : string * string * string * string * Z :=
  let '(h, v, _, st, sc, u) := t in (h, v, st, sc, u).

Let record_fields (r : row) : string * string * string * string * Z :=
  (value_hash r, value r, source_table r, source_column r, usage_count r).

Lemma parse_row_fields :
  forall t x, UmapReduce.parse_row t = Ok x ->
    fields_of x = selected_fields t
    /\ UmapReduce.parse_embedding (snd (fst (fst (fst t))))
       = Ok (UmapReduce.d_embedding x).
Proof.
  intros [[[[[h v] emb] st] sc] u] x; unfold UmapReduce.parse_row.
  cbn [fst snd].
  destruct (UmapReduce.parse_embedding emb); simpl; [|discriminate].
  intros H; inversion H; subst. split; reflexivity.
Qed.

Lemma selected_of_records :
  forall l : list row,
    map selected_fields
      (flat_map (fun r =>
                   match embedding_small r with
                   | Some e => [(value_hash r, value r, e, source_table r,
                                 source_column r, usage_count r)]
                   | None => []
                   end) l)
    = map record_fields (filter (fun r => not_null (embedding_small r)) l).
Proof.
  induction l as [|r l IH]; simpl; [reflexivity|].
  unfold not_null. destruct (embedding_small r); simpl; rewrite IH;
    reflexivity.
Qed.

Lemma Sorted_through :
  forall {A B} (RA : A -> A -> Prop) (RB : B -> B -> Prop)
         (P : A -> B -> Prop) l1 l2,
    (forall a a' b b', P a b -> P a' b' -> RA a a' -> RB b b') ->
    Forall2 P l1 l2 -> Sorted RA l1 -> Sorted RB l2.
Proof.
  intros A B RA RB P l1 l2 Hrel HF. induction HF as [|a b l1 l2 Hab HF IH];
    intros Hs; [constructor|].
  inversion Hs as [|? ? Hs' Hhd]; subst. constructor; [apply IH, Hs'|].
  destruct HF as [|a' b' l1' l2' Hab' _]; constructor.
  inversion Hhd; subst. eapply Hrel; eauto.
Qed.

Lemma fetch_embeddings_cases :
  forall c,
    exists selected,
      UmapReduce.select_embeddings (working c) = Ok selected
      /\ UmapReduce.fetch_embeddings c
         = match selected with
           | [] => (Raise (SystemExit 1), c)
           | _ => (rmap UmapReduce.parse_row selected, c)
           end.
Proof.
  intros c. unfold UmapReduce.fetch_embeddings, bind, query.
  unfold UmapReduce.select_embeddings. eexists. split; [reflexivity|].
  destruct (order_by _ _); reflexivity.
Qed.

Lemma fetch_embeddings_data :
  forall c data c',
    UmapReduce.fetch_embeddings c = (Ok data, c') ->
    c' = c
    /\ data <> []
    /\ Sorted (fun a b => String.leb (UmapReduce.d_value_hash a)
                            (UmapReduce.d_value_hash b) = true) data
    /\ Permutation (map fields_of data)
         (map record_fields
            (filter (fun r => not_null (embedding_small r))
               (rows (working c)))).
Proof.
  intros c data c' H.
  destruct (fetch_embeddings_cases c) as (selected & Hsel & Hf).
  rewrite Hf in H. clear Hf.
  unfold UmapReduce.select_embeddings in Hsel. injection Hsel as Hsel.
  assert (Hsorted : Sorted (fun a b => String.leb (UmapReduce.hash_of a)
                                         (UmapReduce.hash_of b) = true)
                      selected).
  { rewrite <- Hsel. apply order_by_sorted. intros a b.
    apply String.leb_total. }
  assert (Hperm : Permutation (map selected_fields selected)
                    (map record_fields
                       (filter (fun r => not_null (embedding_small r))
                          (rows (working c))))).
  { rewrite <- Hsel, <- selected_of_records.
    apply Permutation_map, order_by_perm. }
  clear Hsel.
  assert (Hdata : rmap UmapReduce.parse_row selected = Ok data
                  /\ c' = c /\ selected <> []).
  { destruct selected; [discriminate H|]. inversion H; subst.
    repeat split; auto. discriminate. }
  clear H. destruct Hdata as (Hdata & -> & Hne).
  split; [reflexivity|].
  pose proof (rmap_length _ _ Hdata) as Hlen.
  pose proof (rmap_ok_inv _ _ Hdata) as HF.
  split; [|split].
  - intros ->. destruct selected; [congruence | discriminate].
  - eapply Sorted_through; [|exact HF|exact Hsorted].
    cbn beta. intros a a' b b' Ha Ha' Hle.
    rewrite (parse_row_hash _ Ha), (parse_row_hash _ Ha'). exact Hle.
  - assert (E : map fields_of data = map selected_fields selected).
    { clear - HF. induction HF as [|t x l1 l2 Htx _ IH]; [reflexivity|].
      simpl. rewrite IH. f_equal. apply (parse_row_fields _ Htx). }
    rewrite E. exact Hperm.
Qed.

End FetchedData.

(** X18.  When [fetch_embeddings] of umap-reduce.py returns, it has left
    the connection as it was, and its data is not empty, is in the order
    of the query (ascending [value_hash]), and holds exactly one element
    per record that has a vector, with that record's hash, value, source
    table, source column and usage count. *)
Theorem fetch_embeddings_returns_the_records_with_vectors :
  forall (N : Numerics) c data c',
    UmapReduce.fetch_embeddings c = (Ok data, c') ->
    c' = c
    /\ data <> []
    /\ Sorted (fun a b => String.leb (UmapReduce.d_value_hash a)
                            (UmapReduce.d_value_hash b) = true) data
    /\ Permutation
         (map (fun x => (UmapReduce.d_value_hash x, UmapReduce.d_value x,
                         UmapReduce.d_source_table x,
                         UmapReduce.d_source_column x,
                         UmapReduce.d_usage_count x)) data)
         (map (fun r => (value_hash r, value r, source_table r,
                         source_column r, usage_count r))
            (filter (fun r => not_null (embedding_small r))
               (rows (working c))))
    /\ List.length data
       = List.length (filter (fun r => not_null (embedding_small r))
                        (rows (working c))).
Proof.
  intros N c data c' H.
  destruct (fetch_embeddings_data _ H) as (Hc & Hne & Hs & Hp).
  split; [exact Hc|]. split; [exact Hne|]. split; [exact Hs|].
  split; [exact Hp|].
  apply Permutation_length in Hp. rewrite !length_map in Hp. exact Hp.
Qed.

(** Two records with vectors, stored in descending order of hash, and one
    without a vector. *)
Lemma fetch_embeddings_returns_the_records_with_vectors_witness :
  let bare := mkRow (N := Fixture.integers) 3 "label" "3" None None
                "attribute" "attribute_label" 1 "2025-01-01"
                None None None None None in
  let c := connect (Fixture.table [Fixture.fresh 2 "[3,4]"; bare;
                                   Fixture.fresh 1 "[1,2]"]) in
  exists data,
    UmapReduce.fetch_embeddings c = (Ok data, c)
    /\ map UmapReduce.d_value_hash data = ["1"; "2"]%string
    /\ List.length data = 2%nat.
Proof.
  intros bare c. eexists. split; [reflexivity|]. split; [reflexivity|].
  destruct (@fetch_embeddings_returns_the_records_with_vectors
              Fixture.integers c _ c eq_refl) as (_ & _ & _ & _ & Hlen).
  exact Hlen.
Defined.

(* ------------------------------------------------------------------ *)
(** ** Running 03_update_database.py twice *)

Section Update03Twice.
Context {N : Numerics}.

Lemma ensure_umap_columns_total :
  forall s,
    exists s',
      Update03.ensure_umap_columns s = Ok s'
      /\ has_umap_columns s' = true.
Proof.
  intros s. unfold Update03.ensure_umap_columns.
  destruct (@ensure_loop_spec N (filter Update03.like_umap (columns s))
              Update03.columns_to_add s) as (s' & Hrun & Hcols).
  - change (map fst Update03.columns_to_add) with umap_column_names.
    unfold umap_column_names.
    repeat (apply NoDup_cons; [simpl; intuition discriminate|]).
    apply NoDup_nil.
  - intros c Hc.
    change (map fst Update03.columns_to_add) with umap_column_names in Hc.
    rewrite like_umap_filter; [reflexivity|].
    simpl in Hc. repeat (destruct Hc as [<-|Hc]; [reflexivity|]).
    contradiction.
  - exists s'. split; [exact Hrun|].
    change (map fst Update03.columns_to_add) with umap_column_names in Hcols.
    unfold has_umap_columns. apply forallb_forall. intros c Hc.
    unfold has_column at 1. rewrite Hcols, existsb_app.
    fold (has_column c s). destruct (has_column c s) eqn:E; [reflexivity|].
    cbn [orb]. apply existsb_exists. exists c.
    split; [|apply String.eqb_refl].
    apply filter_In. split; [exact Hc|]. rewrite E. reflexivity.
Qed.

Lemma written_key_stable :
  forall fault c2 c3 ids idx,
    Forall key_stable (written fault c2 c3 idx ids).
Proof.
  intros fault c2 c3 ids idx. apply Forall_forall. intros w Hw.
  destruct (written_keys fault c2 c3 ids idx w Hw) as (k & _ & Hk & _).
  exact Hk.
Qed.

End Update03Twice.

(** X19.  Running 03_update_database.py again on the table it left, with
    the same input files and the same statements failing, changes nothing
    and ends the same way: same status, same table, same counts and
    warnings. *)
Theorem update03_second_run_changes_nothing :
  forall (N : Numerics) fault (db : store) ids umap_2d umap_3d,
    Update03.main fault
      (Update03.table (Update03.main fault db ids umap_2d umap_3d))
      ids umap_2d umap_3d
    = Update03.main fault db ids umap_2d umap_3d.
Proof.
  intros N fault db ids u2 u3. unfold Update03.main.
  destruct (negb _) eqn:Hshape; [reflexivity|].
  destruct (ensure_umap_columns_total db) as (db1 & Hens & Hcols).
  rewrite Hens. unfold Update03.update_umap_coordinates.
  rewrite (update03_loop_spec fault u2 u3 ids 0 db1 _ Hcols).
  set (ws := written fault u2 u3 0 ids).
  set (t := Update03.mkTally _ _ _).
  assert (Hcols2 : has_umap_columns (store_after ws db1) = true)
    by (rewrite store_after_columns; exact Hcols).
  assert (Hagain :
            match Update03.ensure_umap_columns (store_after ws db1) with
            | Ok db1' =>
                let '(db2, t') :=
                  Update03.update_loop fault u2 u3 0 ids db1'
                    (Update03.mkTally 0 0 []) in
                match Update03.verify_updates db2 with
                | Ok _ => Update03.mkOutcome 0 db2 (Some t')
                | Raise _ => Update03.mkOutcome 1 db2 (Some t')
                end
            | Raise _ => Update03.mkOutcome 1 (store_after ws db1) None
            end
            = match Update03.verify_updates (store_after ws db1) with
              | Ok _ => Update03.mkOutcome 0 (store_after ws db1) (Some t)
              | Raise _ => Update03.mkOutcome 1 (store_after ws db1) (Some t)
              end).
  { rewrite (ensure_umap_columns_present _ Hcols2).
    rewrite (update03_loop_spec fault u2 u3 ids 0 _ _ Hcols2).
    fold ws. rewrite store_after_idempotent
      by apply written_key_stable.
    reflexivity. }
  destruct (Update03.verify_updates (store_after ws db1));
    cbn [Update03.table]; exact Hagain.
Qed.

(* ------------------------------------------------------------------ *)
(** ** populate-umap-coordinates.py: what is durable is whole batches *)

Section WholeBatches.
Context {N : Numerics}.
Variable fault : nat -> bool.
Variable ids : list Z.
Variables coords_2d coords_3d : list (list float).

Lemma update_loop_whole_batches :
  forall starts k total c r c',
    committed c = working c ->
    Populate.update_loop fault ids coords_2d coords_3d starts k total c
    = (r, c') ->
    exists j ts,
      (j <= List.length starts)%nat
      /\ rmap (Populate.batch_tuple ids coords_2d coords_3d)
           (flat_map (chunk (List.length ids)) (firstn j starts)) = Ok ts
      /\ committed c' = store_after (map write_by_id ts) (working c)
      /\ (is_ok r = true -> j = List.length starts).
Proof.
  induction starts as [|i rest IH]; intros k total c r c' Hcw H.
  - simpl in H. unfold ret in H. inversion H; subst.
    exists 0%nat, []. simpl. rewrite store_after_nil. auto.
  - cbn [Populate.update_loop] in H. unfold bind at 1 in H.
    destruct (Populate.update_batch (fault k) ids coords_2d coords_3d i c)
      as [rb c1] eqn:Hb.
    apply update_batch_any in Hb as [(ts1 & Hts1 & -> & Hok)|[Hbad Hcm]].
    + destruct rb as [n|]; [|discriminate].
      apply IH in H as (j & ts & Hj & Hts & Hc' & Hall); [|reflexivity].
      exists (S j), (ts1 ++ ts). cbn [firstn flat_map List.length].
      split; [lia|]. split; [|split].
      * rewrite rmap_app, Hts1, Hts. reflexivity.
      * rewrite Hc'. cbn [working]. rewrite store_after_app, map_app.
        reflexivity.
      * intros Hr. rewrite (Hall Hr). reflexivity.
    + destruct rb as [|e]; [discriminate|]. inversion H; subst.
      exists 0%nat, []. simpl. rewrite store_after_nil.
      split; [lia|]. split; [reflexivity|]. split; [congruence|].
      discriminate.
Qed.

End WholeBatches.

(** X20.  What [update_umap_coordinates] of populate-umap-coordinates.py
    leaves durable is always a whole number of batches: however the call
    ends (a commit refused, a coordinate row missing, or a normal return),
    the committed table is the one it started from with the writes of the
    first [j] batches, that is of the first [min (100 j) (len ids)] ids,
    and of no other id; after a normal return these are all the ids. *)
Theorem durable_writes_are_whole_batches :
  forall (N : Numerics) fault ids coords_2d coords_3d (s : store),
    let out :=
      Populate.update_umap_coordinates fault ids coords_2d coords_3d
        (connect s) in
    exists j ts,
      (j <= (List.length ids + 99) / 100)%nat
      /\ rmap (Populate.batch_tuple ids coords_2d coords_3d)
           (seq 0 (Nat.min (j * 100) (List.length ids))) = Ok ts
      /\ committed (snd out) = store_after (map write_by_id ts) s
      /\ (is_ok (fst out) = true ->
          Nat.min (j * 100) (List.length ids) = List.length ids).
Proof.
  intros N fault ids c2 c3 s out.
  destruct out as [r c'] eqn:Hout. unfold out in Hout. clear out.
  unfold Populate.update_umap_coordinates in Hout.
  apply update_loop_whole_batches in Hout as (j & ts & Hj & Hts & Hc & Hall);
    [|reflexivity].
  rewrite range_step_length in Hj. rewrite chunks_cover_firstn in Hts.
  exists j, ts. cbn [fst snd]. split; [exact Hj|]. split; [exact Hts|].
  split; [exact Hc|]. intros Hr. rewrite (Hall Hr), range_step_length.
  pose proof (batches_enough (List.length ids)). lia.
Qed.

(** 150 pending rows, the second commit refused: the first hundred are
    durable. *)
Lemma durable_writes_are_whole_batches_witness :
  let ids := map Z.of_nat (seq 1 150) in
  let coords_2d := repeat [1; 2] 150 in
  let coords_3d := repeat [3; 4; 5] 150 in
  let out :=
    Populate.update_umap_coordinates (N := Fixture.integers)
      (fun k => Nat.eqb k 1) ids coords_2d coords_3d
      (connect (Fixture.many 150)) in
  exists j ts,
    (j <= (List.length ids + 99) / 100)%nat
    /\ rmap (Populate.batch_tuple (N := Fixture.integers) ids coords_2d
               coords_3d)
         (seq 0 (Nat.min (j * 100) (List.length ids))) = Ok ts
    /\ committed (snd out)
       = store_after (map write_by_id ts) (Fixture.many 150)
    /\ (is_ok (fst out) = true ->
        Nat.min (j * 100) (List.length ids) = List.length ids).
Proof.
  intros ids coords_2d coords_3d.
  exact (@durable_writes_are_whole_batches Fixture.integers
           (fun k => Nat.eqb k 1) ids coords_2d coords_3d
           (Fixture.many 150)).
Defined.
